(** * Railway decision pipeline: network model, occupancies, conflicts, precedence

    A shallow embedding of [generate_schedule.py] (station and section
    loading, merging, nearest-neighbour augmentation, adjacency) and of the
    [analyze_scenario] endpoint of [api.py] (name graph, breadth-first route
    search, occupancy construction), together with the conflict detector and
    the precedence decider of [rail_decision_engine], which [api.py] imports.
    The route generator and the schedule generator of [generate_schedule.py]
    ([pick_route], [generate_trains_schedule]) and the [add_train] and
    [run_simulation] endpoints of [api.py] are embedded too, up to the files
    they write.

    Conventions of the embedding:
    - a Python [float] is a binary64 number: [PrimFloat.float], with the
      primitive comparison and arithmetic of the kernel;
    - a Python [int] is a [Z]; a [str] is a [string];
    - a Python [dict] whose iteration order is observed is an association
      list in insertion order ([dict]); a dict that is only looked up is a
      [gmap]; a [set] is a [gset];
    - a call that may raise returns an [option]: [None] is the exception;
    - the [random] and [datetime] libraries are records of their operations,
      and the state of the generator is passed along. *)

From Stdlib Require Import ZArith Lia List String Ascii Floats Bool Permutation Sorted
  DecimalString.
From stdpp Require Import gmap strings list.

Local Open Scope string_scope.
Local Open Scope Z_scope.
Local Open Scope list_scope.

(* ===================================================================== *)
(** * Part I: definitions                                                 *)
(* ===================================================================== *)

(** ** Python values *)

Module Py.

(** [max(a, b)] keeps [a] unless [b > a]. *)
Definition max (a b : float) : float := if PrimFloat.ltb a b then b else a.

(** [min(a, b)] keeps [a] unless [b < a]. *)
Definition min (a b : float) : float := if PrimFloat.ltb b a then b else a.

(** Truth value of a float: false exactly for [0.0] and [-0.0]. *)
Definition truthy_float (x : float) : bool := negb (PrimFloat.eqb x 0%float).

Definition truthy_int (n : Z) : bool := negb (Z.eqb n 0).

Definition truthy_str (s : string) : bool := negb (String.eqb s "").

(** [o or d] for an optional string [o] ([None] and [""] are falsy). *)
Definition or_str (o : option string) (d : string) : string :=
  match o with
  | Some s => if truthy_str s then s else d
  | None => d
  end.

(** [a / b] on floats raises [ZeroDivisionError] when [b == 0]. *)
Definition div (a b : float) : option float :=
  if PrimFloat.eqb b 0%float then None else Some (PrimFloat.div a b).

(** Whitespace of [str.strip()] in the ASCII range. *)
Definition is_space (c : ascii) : bool :=
  let n := N_of_ascii c in
  ((9 <=? n)%N && (n <=? 13)%N) || ((28 <=? n)%N && (n <=? 32)%N).

Fixpoint lstrip (s : string) : string :=
  match s with
  | String c r => if is_space c then lstrip r else s
  | EmptyString => EmptyString
  end.

Fixpoint rstrip (s : string) : string :=
  match s with
  | String c r =>
      let r' := rstrip r in
      if is_space c && negb (truthy_str r') then EmptyString else String c r'
  | EmptyString => EmptyString
  end.

Definition strip (s : string) : string := rstrip (lstrip s).

Definition lower_char (c : ascii) : ascii :=
  let n := N_of_ascii c in
  if ((65 <=? n)%N && (n <=? 90)%N) then ascii_of_N (n + 32) else c.

(** [str.lower()] on ASCII letters. *)
Fixpoint lower (s : string) : string :=
  match s with
  | String c r => String (lower_char c) (lower r)
  | EmptyString => EmptyString
  end.

(** An insertion-ordered dict with string keys. *)
Definition dict (V : Type) : Type := list (string * V).

Fixpoint dict_get {V} (d : dict V) (k : string) : option V :=
  match d with
  | [] => None
  | (k', v) :: r => if String.eqb k' k then Some v else dict_get r k
  end.

(** [d[k] = v]: an existing key keeps its position, a new key goes last. *)
Fixpoint dict_set {V} (d : dict V) (k : string) (v : V) : dict V :=
  match d with
  | [] => [(k, v)]
  | (k', v') :: r =>
      if String.eqb k' k then (k', v) :: r else (k', v') :: dict_set r k v
  end.

Definition dict_keys {V} (d : dict V) : list string := map fst d.

Definition dict_mem {V} (d : dict V) (k : string) : bool :=
  match dict_get d k with Some _ => true | None => false end.

(** [d.update(other)]. *)
Definition dict_update {V} (d other : dict V) : dict V :=
  fold_left (fun acc kv => dict_set acc (fst kv) (snd kv)) other d.

(** A loop whose body may raise: the first exception ends it. *)
Fixpoint foldM {A B} (f : B -> A -> option B) (b : B) (l : list A) : option B :=
  match l with
  | [] => Some b
  | x :: r => match f b x with
              | Some b' => foldM f b' r
              | None => None
              end
  end.

(** The library functions the program calls and that are not programs of
    this repository: [int(str)] and [float(str)] ([None]: [ValueError]),
    and the [math] functions and the float power [x ** y] of [haversine_km]
    ([None]: a domain or range error). The last one is [list.sort] on a list
    of pairs, by their first component, when that component is a NaN for some
    pair: the comparisons are then inconsistent, the order that the sort
    leaves depends on the merge strategy of the interpreter, and all that is
    known of it is that it is a permutation of the list. *)
Record Builtins := {
  int_of_str : string -> option Z;
  float_of_str : string -> option float;
  math_sin : float -> option float;
  math_cos : float -> option float;
  math_atan2 : float -> float -> float;
  float_pow : float -> float -> option float;
  sort_with_nan : list (float * string) -> list (float * string);
  sort_with_nan_perm : forall l, Permutation (sort_with_nan l) l
}.

(** [math.sqrt]: a negative argument is a domain error. *)
Definition math_sqrt (x : float) : option float :=
  if PrimFloat.ltb x 0%float then None else Some (PrimFloat.sqrt x).

(** [math.radians(x)] is [x * (pi / 180)]. *)
Definition deg_to_rad : float := 0x1.1df46a2529d39p-6%float.
Definition math_radians (x : float) : float := PrimFloat.mul x deg_to_rad.

End Py.

(** ** Data model ([generate_schedule.py]) *)

Record Station := mkStation {
  code : string;
  name : string;
  platform_count : Z;
  halt_min : float;
  lat : option float;
  lon : option float
}.

(** The dataclass [Section] of the source. *)
Record TrackSection := mkSection {
  from_code : string;
  from_name : string;
  to_code : string;
  to_name : string;
  distance_km : float;
  travel_min : float;
  leg_type : string
}.

(** What reading a file that exists gives: the rows of [csv.DictReader],
    read to the end (a row maps a column name to its field), or an exception:
    [open] fails, the bytes are not UTF-8, or the [csv] module rejects a
    field. *)
Inductive FileContent : Type :=
  | Rows (rows : list (gmap string string))
  | Unreadable.

(** The files the loaders read: [None] when [os.path.exists] is false. *)
Definition FileSystem : Type := string -> option FileContent.

Definition directed_pair (s : TrackSection) : string * string :=
  (from_code s, to_code s).

Section Network.

Context (py : Py.Builtins).

(** *** Utilities *)

Definition haversine_km (lat1 lon1 lat2 lon2 : float) : option float :=
  let r := 6371%float in
  let phi1 := Py.math_radians lat1 in
  let phi2 := Py.math_radians lat2 in
  let dphi := Py.math_radians (PrimFloat.sub lat2 lat1) in
  let dlambda := Py.math_radians (PrimFloat.sub lon2 lon1) in
  s1 ← Py.math_sin py (PrimFloat.div dphi 2%float);
  p1 ← Py.float_pow py s1 2%float;
  c1 ← Py.math_cos py phi1;
  c2 ← Py.math_cos py phi2;
  s2 ← Py.math_sin py (PrimFloat.div dlambda 2%float);
  p2 ← Py.float_pow py s2 2%float;
  let a := PrimFloat.add p1 (PrimFloat.mul (PrimFloat.mul c1 c2) p2) in
  q1 ← Py.math_sqrt a;
  q2 ← Py.math_sqrt (PrimFloat.sub 1%float a);
  let c := PrimFloat.mul 2%float (Py.math_atan2 py q1 q2) in
  Some (PrimFloat.mul r c).

Definition parse_float (value : string) (default : float) : float :=
  match Py.float_of_str py value with
  | Some f => f
  | None => default
  end.

(** *** Data loading and merging *)

(** [int(row.get("Platform Count", 0) or 0)]. *)
Definition platform_of_row (row : gmap string string) : option Z :=
  match row !! "Platform Count" with
  | Some s => if Py.truthy_str s then Py.int_of_str py s else Some 0
  | None => Some 0
  end.

Definition load_sih_row (stations : Py.dict Station) (row : gmap string string)
  : option (Py.dict Station) :=
  let code := Py.strip (Py.or_str (row !! "Station Code") "") in
  let name := Py.strip (Py.or_str (row !! "Station Name") code) in
  platform ← platform_of_row row;
  let halt := parse_float (Py.or_str (row !! "Halt Time (mins)") "0") 0%float in
  Some (Py.dict_set stations code (mkStation code name platform halt None None)).

Definition load_sih_stations (fs : FileSystem) (path : string)
  : option (Py.dict Station) :=
  match fs path with
  | None => Some []
  | Some Unreadable => None
  | Some (Rows rows) => Py.foldM load_sih_row [] rows
  end.

(** [parse_float(x) if x not in (None, "") else None]. *)
Definition coord_of_field (o : option string) : option float :=
  match o with
  | Some s => if Py.truthy_str s then Some (parse_float s 0%float) else None
  | None => None
  end.

Definition has_coords (st : Station) : bool :=
  match lat st, lon st with
  | Some _, Some _ => true
  | _, _ => false
  end.

Definition load_trainsih_row (stations : Py.dict Station) (row : gmap string string)
  : option (Py.dict Station) :=
  let code := Py.strip (Py.or_str (row !! "Station Code") "") in
  let name := Py.strip (Py.or_str (row !! "Station Name") code) in
  platform ← platform_of_row row;
  let halt := parse_float (Py.or_str (row !! "Halt Time (mins)") "0") 0%float in
  let latf := coord_of_field (row !! "Latitude") in
  let lonf := coord_of_field (row !! "Longitude") in
  let st := mkStation code name platform halt latf lonf in
  match Py.dict_get stations code with
  | Some existing =>
      if negb (has_coords existing) && has_coords st
      then Some (Py.dict_set stations code st)
      else Some stations
  | None => Some (Py.dict_set stations code st)
  end.

Definition load_trainsih_stations (fs : FileSystem) (path : string)
  : option (Py.dict Station) :=
  match fs path with
  | None => Some []
  | Some Unreadable => None
  | Some (Rows rows) => Py.foldM load_trainsih_row [] rows
  end.

(** The body of the loop of [merge_stations] over [sih.items()]. *)
Definition merge_entry (merged : Py.dict Station) (entry : string * Station)
  : Py.dict Station :=
  let '(code, st) := entry in
  match Py.dict_get merged code with
  | Some m =>
      let name := if Py.truthy_str (name m) then name m else name st in
      let platform :=
        if Py.truthy_int (platform_count m) then platform_count m
        else platform_count st in
      let halt :=
        if Py.truthy_float (halt_min m) then halt_min m else halt_min st in
      Py.dict_set merged code (mkStation code name platform halt (lat m) (lon m))
  | None => Py.dict_set merged code st
  end.

(** [merge_stations] once both datasets are loaded. *)
Definition merge_loaded (sih trn : Py.dict Station) : Py.dict Station :=
  fold_left merge_entry sih (Py.dict_update [] trn).

Definition merge_stations (fs : FileSystem) (sih_path trainsih_path : string)
  : option (Py.dict Station) :=
  sih ← load_sih_stations fs sih_path;
  trn ← load_trainsih_stations fs trainsih_path;
  Some (merge_loaded sih trn).

Definition load_section_row (sections : list TrackSection) (row : gmap string string)
  : option (list TrackSection) :=
  let fc := Py.strip (Py.or_str (row !! "From Station Code") "") in
  let fn := Py.strip (Py.or_str (row !! "From Station Name") fc) in
  let tc := Py.strip (Py.or_str (row !! "To Station Code") "") in
  let tn := Py.strip (Py.or_str (row !! "To Station Name") tc) in
  let dist := parse_float (Py.or_str (row !! "Distance (km)") "0") 0%float in
  let tmin :=
    parse_float (Py.or_str (row !! "Average Travel Time (mins)") "0") 0%float in
  if Py.truthy_str fc && Py.truthy_str tc && negb (String.eqb fc tc)
  then Some (sections ++ [mkSection fc fn tc tn dist tmin "real"])
  else Some sections.

Definition load_real_sections (fs : FileSystem) (path : string)
  : option (list TrackSection) :=
  match fs path with
  | None => Some []
  | Some Unreadable => None
  | Some (Rows rows) => Py.foldM load_section_row [] rows
  end.

(** *** Graph augmentation *)

(** The inner loop of [augment_sections_with_knn] that fills [dlist] for the
    station [code] at [(la, lo)]. *)
Fixpoint distances (stations : Py.dict Station) (code : string) (la lo : float)
    (codes : list string) : option (list (float * string)) :=
  match codes with
  | [] => Some []
  | other_code :: rest =>
      if String.eqb other_code code then distances stations code la lo rest
      else
        ot ← Py.dict_get stations other_code;
        match lat ot, lon ot with
        | Some ola, Some olo =>
            d ← haversine_km la lo ola olo;
            dl ← distances stations code la lo rest;
            Some ((d, other_code) :: dl)
        | _, _ => distances stations code la lo rest
        end
  end.

(** No distance of [l] is a NaN. *)
Definition no_nan (l : list (float * string)) : bool :=
  forallb (fun x => negb (PrimFloat.is_nan (fst x))) l.

(** A stable insertion sort on the distance alone: an element passes only
    those of a strictly smaller distance. *)
Fixpoint insert_by_distance (x : float * string) (l : list (float * string))
  : list (float * string) :=
  match l with
  | [] => [x]
  | y :: r =>
      if PrimFloat.ltb (fst y) (fst x) then y :: insert_by_distance x r
      else x :: l
  end.

Definition stable_sort (l : list (float * string)) : list (float * string) :=
  foldr insert_by_distance [] l.

(** [dlist.sort(key=lambda x: x[0])]. [list.sort] is a stable sort: when no
    distance is a NaN the distances are totally ordered and a stable sort has
    one result, the one of [stable_sort] (see [stable_sort_unique]). With a
    NaN the result is the interpreter's. *)
Definition sort_by_distance (l : list (float * string)) : list (float * string) :=
  if no_nan l then stable_sort l else Py.sort_with_nan py l.

(** The loop over the sorted [dlist]: [st] is [(existing, result)]. *)
Fixpoint connect (stations : Py.dict Station) (k : Z) (avg_speed_kmph : float)
    (code : string) (dlist : list (float * string)) (added : Z)
    (st : gset (string * string) * list TrackSection)
  : option (gset (string * string) * list TrackSection) :=
  match dlist with
  | [] => Some st
  | (d, oc) :: rest =>
      if added >=? k then Some st
      else if decide ((code, oc) ∈ st.1)
      then connect stations k avg_speed_kmph code rest added st
      else
        q ← Py.div d avg_speed_kmph;
        let travel_min := PrimFloat.mul q 60%float in
        sa ← Py.dict_get stations code;
        sb ← Py.dict_get stations oc;
        connect stations k avg_speed_kmph code rest (added + 1)
          ({[ (code, oc) ]} ∪ st.1,
           st.2 ++ [mkSection code (name sa) oc (name sb) d travel_min "inferred"])
  end.

(** The body of the outer loop over [codes]. *)
Definition augment_station (stations : Py.dict Station) (k : Z)
    (avg_speed_kmph : float) (st : gset (string * string) * list TrackSection)
    (code : string) : option (gset (string * string) * list TrackSection) :=
  s ← Py.dict_get stations code;
  match lat s, lon s with
  | Some la, Some lo =>
      dl ← distances stations code la lo (Py.dict_keys stations);
      connect stations k avg_speed_kmph code (sort_by_distance dl) 0 st
  | _, _ => Some st
  end.

Definition augment_loop (stations : Py.dict Station)
    (base_sections : list TrackSection) (k : Z) (avg_speed_kmph : float)
  : option (gset (string * string) * list TrackSection) :=
  Py.foldM (augment_station stations k avg_speed_kmph)
    (list_to_set (map directed_pair base_sections), base_sections)
    (Py.dict_keys stations).

Definition augment_sections_with_knn (stations : Py.dict Station)
    (base_sections : list TrackSection) (k : Z) (avg_speed_kmph : float)
  : option (list TrackSection) :=
  st ← augment_loop stations base_sections k avg_speed_kmph;
  Some st.2.

(** The network as the three endpoints of [api.py] and [main] build it. *)
Record Inputs := {
  sih_stations_csv : string;
  sih_sections_csv : string;
  trainsih_stations_csv : string
}.

Definition build_network (fs : FileSystem) (inp : Inputs)
  : option (Py.dict Station * list TrackSection) :=
  merged_stations ← merge_stations fs (sih_stations_csv inp) (trainsih_stations_csv inp);
  real_sections ← load_real_sections fs (sih_sections_csv inp);
  augmented_sections ←
    augment_sections_with_knn merged_stations real_sections 3 70%float;
  Some (merged_stations, augmented_sections).

End Network.

(** *** Adjacency *)

(** [adj.setdefault(s.from_code, []).append((s.to_code, s))]. *)
Definition add_to_adjacency (adj : gmap string (list (string * TrackSection)))
    (s : TrackSection) : gmap string (list (string * TrackSection)) :=
  <[from_code s := default [] (adj !! from_code s) ++ [(to_code s, s)]]> adj.

Definition build_adjacency (sections : list TrackSection)
  : gmap string (list (string * TrackSection)) :=
  fold_left add_to_adjacency sections ∅.

(** [adj.get(a, [])], the lookup of [add_train] and [pick_route]. *)
Definition neighbors (adj : gmap string (list (string * TrackSection))) (a : string)
  : list (string * TrackSection) :=
  default [] (adj !! a).

(** ** The scenario analysis ([api.py], [analyze_scenario]) *)

(** The request model [ScenarioTrain]. *)
Module Scenario.
Record Train := mkTrain {
  train_id : string;
  name : option string;
  train_type : string;
  priority_level : string;
  source : string;
  destination : string
}.
End Scenario.

(** [BlockOccupancy] and [Train] (imported as [SimTrain]) of
    [rail_decision_engine], with the fields [analyze_scenario] sets. *)
Record BlockOccupancy := mkOcc {
  block_id : string;
  start_time : float;
  end_time : float
}.

Record SimTrain := mkTrain {
  train_id : string;
  category : string;
  priority : Z;
  planned_path : list string;
  occupancies : list BlockOccupancy;
  delay_minutes : float
}.

(** *** Name graph and travel times *)

(** The loop over [augmented_sections]: the state is [(name_graph, edge_tt)]. *)
Definition add_named_edge
    (st : gmap string (list string) * gmap (string * string) float)
    (sec : TrackSection)
  : gmap string (list string) * gmap (string * string) float :=
  let u := from_name sec in
  let v := to_name sec in
  if negb (Py.truthy_str u) || negb (Py.truthy_str v) then st
  else (<[u := default [] (st.1 !! u) ++ [v]]> st.1,
        <[(u, v) := Py.max 1%float (travel_min sec)]> st.2).

Definition name_network (augmented_sections : list TrackSection)
  : gmap string (list string) * gmap (string * string) float :=
  fold_left add_named_edge augmented_sections (∅, ∅).

(** *** Breadth-first route search *)

(** The loop over the neighbours of a dequeued node: [st] is [(seen, q)]. *)
Definition visit (path : list string)
    (st : gset string * list (string * list string)) (nb : string)
  : gset string * list (string * list string) :=
  if decide (nb ∈ st.1) then st
  else ({[ nb ]} ∪ st.1, st.2 ++ [(nb, path ++ [nb])]).

(** The [while q] loop, one iteration per unit of [fuel]; [None] when the
    fuel runs out before the loop ends. *)
Fixpoint bfs (fuel : nat) (name_graph : gmap string (list string)) (end_ : string)
    (q : list (string * list string)) (seen : gset string)
  : option (list string) :=
  match fuel with
  | O => None
  | S fuel' =>
      match q with
      | [] => Some []
      | (node, path) :: q' =>
          if String.eqb node end_ then Some path
          else
            let st :=
              fold_left (visit path) (default [] (name_graph !! node)) (seen, q') in
            bfs fuel' name_graph end_ st.2 st.1
      end
  end.

(** Every name that occurs as a neighbour. *)
Definition graph_nodes (name_graph : gmap string (list string)) : gset string :=
  list_to_set (mjoin (snd <$> map_to_list name_graph)).

(** Each name enters the queue at most once, so the loop runs at most
    [size (graph_nodes name_graph) + 1] times (see [bfs_terminates]). *)
Definition bfs_fuel (name_graph : gmap string (list string)) : nat :=
  S (S (size (graph_nodes name_graph))).

Definition shortest_path (name_graph : gmap string (list string))
    (start end_ : string) : list string :=
  match name_graph !! start with
  | None => []
  | Some _ =>
      default []
        (bfs (bfs_fuel name_graph) name_graph end_ [(start, [start])] {[ start ]})
  end.

(** *** Trains and occupancies *)

(** [pr_map.get(t.priority_level, 1)]. *)
Definition priority_of (level : string) : Z :=
  if String.eqb level "High" then 5
  else if String.eqb level "Medium" then 3
  else if String.eqb level "Low" then 1
  else 1.

(** [edge_tt.get((u, v), 5.0)]. *)
Definition travel_time (edge_tt : gmap (string * string) float) (u v : string)
  : float :=
  default 5%float (edge_tt !! (u, v)).

(** The loop [for i in range(len(route) - 1)] with its clock [current]. *)
Fixpoint build_occupancies (edge_tt : gmap (string * string) float)
    (current : float) (route : list string) : list BlockOccupancy :=
  match route with
  | u :: ((v :: _) as rest) =>
      let travel := travel_time edge_tt u v in
      mkOcc (u +:+ "-" +:+ v) current (PrimFloat.add current travel)
        :: build_occupancies edge_tt (PrimFloat.add current travel) rest
  | _ => []
  end.

(** The body of the loop over [req.trains]. *)
Definition build_train (name_graph : gmap string (list string))
    (edge_tt : gmap (string * string) float)
    (built_trains : list SimTrain) (t : Scenario.Train) : list SimTrain :=
  let route := shortest_path name_graph (Scenario.source t) (Scenario.destination t) in
  match route with
  | [] => built_trains
  | _ :: _ =>
      built_trains ++
        [mkTrain (Scenario.train_id t) (Py.lower (Scenario.train_type t))
           (priority_of (Scenario.priority_level t)) route
           (build_occupancies edge_tt 0%float route) 0%float]
  end.

Definition build_trains (name_graph : gmap string (list string))
    (edge_tt : gmap (string * string) float) (trains : list Scenario.Train)
  : list SimTrain :=
  fold_left (build_train name_graph edge_tt) trains [].

(** ** The decision engine ([rail_decision_engine])

    [api.py] imports [detect_block_conflicts] and [decide_precedence] from
    [rail_decision_engine], whose source is not among the files of the
    repository at hand; both are written here from the specification. *)

Inductive Verdict := HOLD | PROCEED.

#[global] Instance Verdict_eq_dec : EqDecision Verdict.
Proof. solve_decision. Defined.

(** An entry of the block index: [(train_id, start, end)]. *)
Definition Occupant : Type := string * float * float.

(** A reported conflict: [(block_id, train_a, train_b, (start, end))]. *)
Definition Conflict : Type := string * string * string * (float * float).

(** Modelled from the spec: the overlap test of the absent
    [detect_block_conflicts], "an overlap exists iff
    [max(startA,startB) < min(endA,endB)]" with a strict inequality. *)
Definition overlap (sa ea sb eb : float) : bool :=
  PrimFloat.ltb (Py.max sa sb) (Py.min ea eb).

(** Modelled from the spec: the index step of the absent
    [detect_block_conflicts], "build an index: [block_id] to list of
    [(train_id, start, end)] by flattening every train's occupancies". *)
Definition index_occupancy (tid : string) (idx : Py.dict (list Occupant))
    (o : BlockOccupancy) : Py.dict (list Occupant) :=
  Py.dict_set idx (block_id o)
    (default [] (Py.dict_get idx (block_id o)) ++ [(tid, start_time o, end_time o)]).

(** Modelled from the spec: the block index of the absent
    [detect_block_conflicts], filled in the order the trains were provided,
    then by ascending occupancy index. *)
Definition block_index (trains : list SimTrain) : Py.dict (list Occupant) :=
  fold_left
    (fun idx t => fold_left (index_occupancy (train_id t)) (occupancies t) idx)
    trains [].

(** Modelled from the spec: the comparison of two occupants of one block in
    the absent [detect_block_conflicts]; a train is never paired with itself,
    and the window reported is [(max(startA,startB), min(endA,endB))]. *)
Definition pair_conflict (blk : string) (a b : Occupant) : list Conflict :=
  let '(ida, sa, ea) := a in
  let '(idb, sb, eb) := b in
  if negb (String.eqb ida idb) && overlap sa ea sb eb
  then [(blk, ida, idb, (Py.max sa sb, Py.min ea eb))]
  else [].

(** Modelled from the spec: the comparison, in the absent
    [detect_block_conflicts], of one occupant with the later occupants of its
    block. *)
Definition conflicts_with (blk : string) (a : Occupant) (rest : list Occupant)
  : list Conflict :=
  flat_map (pair_conflict blk a) rest.

(** Modelled from the spec: every unordered pair of occupants of one block,
    for the absent [detect_block_conflicts]. *)
Fixpoint block_conflicts (blk : string) (occupants : list Occupant) : list Conflict :=
  match occupants with
  | [] => []
  | a :: rest => conflicts_with blk a rest ++ block_conflicts blk rest
  end.

(** Modelled from the spec: [detect_block_conflicts] of the absent
    [rail_decision_engine], "for each block with at least two occupants,
    compare every unordered pair of occupants on that block". *)
Definition detect_block_conflicts (trains : list SimTrain) : list Conflict :=
  flat_map (fun e => block_conflicts (fst e) (snd e)) (block_index trains).

(** Modelled from the spec: the arbitration of one pair in the absent
    [decide_precedence]: the higher priority wins; on equal priority the
    greater [delay_minutes] wins; on a further tie the lexicographically
    smaller [train_id] wins. [beats a b] says that [a] wins against [b]. *)
Definition beats (a b : SimTrain) : bool :=
  if priority b <? priority a then true
  else if priority a <? priority b then false
  else if PrimFloat.ltb (delay_minutes b) (delay_minutes a) then true
  else if PrimFloat.ltb (delay_minutes a) (delay_minutes b) then false
  else String.leb (train_id a) (train_id b).

(** Modelled from the spec: the outcome [(winner, loser)] of a pair of train
    ids in the absent [decide_precedence]; a pair that names an unknown
    train has none. *)
Definition outcome (trains_by_id : gmap string SimTrain) (p : string * string)
  : option (string * string) :=
  match trains_by_id !! p.1, trains_by_id !! p.2 with
  | Some a, Some b => Some (if beats a b then (p.1, p.2) else (p.2, p.1))
  | _, _ => None
  end.

(** Modelled from the spec: the minimum of two verdicts, [HOLD] below
    [PROCEED], for the absent [decide_precedence]. *)
Definition verdict_min (v w : Verdict) : Verdict :=
  match v, w with
  | PROCEED, PROCEED => PROCEED
  | _, _ => HOLD
  end.

(** Modelled from the spec: the update of the decision map by one pair in the
    absent [decide_precedence]: the winner's verdict is set or reinforced,
    never downgraded, to [PROCEED], and the loser's is set to [HOLD]. *)
Definition decide_pair (trains_by_id : gmap string SimTrain)
    (decisions : gmap string Verdict) (p : string * string) : gmap string Verdict :=
  match outcome trains_by_id p with
  | Some (winner, loser) =>
      <[loser := HOLD]>
        (<[winner := verdict_min (default PROCEED (decisions !! winner)) PROCEED]>
           decisions)
  | None => decisions
  end.

(** Modelled from the spec: [decide_precedence] of the absent
    [rail_decision_engine], a map from [train_id] to verdict that covers the
    trains of the pairs. *)
Definition decide_precedence (pairs : list (string * string))
    (trains_by_id : gmap string SimTrain) : gmap string Verdict :=
  fold_left (decide_pair trains_by_id) pairs ∅.

(** Modelled from the spec: the verdict read off the map of the absent
    [decide_precedence], "a train appearing in no conflicts defaults to
    PROCEED". *)
Definition verdict_of (decisions : gmap string Verdict) (tid : string) : Verdict :=
  default PROCEED (decisions !! tid).

(** *** The endpoint *)

(** [tuple(sorted((a, b)))]. *)
Definition sorted_pair (a b : string) : string * string :=
  if String.ltb b a then (b, a) else (a, b).

(** [{tuple(sorted((a, b))) for _, a, b, _ in conflicts}]. *)
Definition id_pairs (conflicts : list Conflict) : gset (string * string) :=
  list_to_set (map (fun c : Conflict => sorted_pair c.1.1.2 c.1.2) conflicts).

(** [{tr.train_id: tr for tr in built_trains}]: a later train replaces an
    earlier one of the same id. *)
Definition trains_by_id (built_trains : list SimTrain) : gmap string SimTrain :=
  fold_left (fun m tr => <[train_id tr := tr]> m) built_trains ∅.

(** Lines 299 to 301 of [analyze_scenario]: the decisions for built trains. *)
Definition decisions_of (built_trains : list SimTrain) : gmap string Verdict :=
  decide_precedence (elements (id_pairs (detect_block_conflicts built_trains)))
    (trains_by_id built_trains).

Record Analysis := mkAnalysis {
  built_trains : list SimTrain;
  conflicts : list Conflict;
  decisions : gmap string Verdict
}.

(** The analysis once the network is built. *)
Definition analyze_network (augmented_sections : list TrackSection)
    (trains : list Scenario.Train) : Analysis :=
  let net := name_network augmented_sections in
  let built := build_trains net.1 net.2 trains in
  mkAnalysis built (detect_block_conflicts built) (decisions_of built).

Definition analyze_scenario (py : Py.Builtins) (fs : FileSystem) (inp : Inputs)
    (trains : list Scenario.Train) : option Analysis :=
  net ← build_network py fs inp;
  Some (analyze_network net.2 trains).

(** ** Notions used to state the properties *)

(** The occupants of the block [blk]: the occupancies of that block, train
    by train in the order given, each with the id of its train. *)
Definition occupants_of (trains : list SimTrain) (blk : string) : list Occupant :=
  flat_map
    (fun t =>
       map (fun o => (train_id t, start_time o, end_time o))
         (List.filter (fun o => String.eqb (block_id o) blk) (occupancies t)))
    trains.

(** The order of candidates in the words of the specification: by distance,
    then by station code among candidates at one distance. *)
Definition before_by_distance_then_code (x y : float * string) : bool :=
  PrimFloat.ltb (fst x) (fst y)
  || (negb (PrimFloat.ltb (fst y) (fst x)) && String.leb (snd x) (snd y)).

Fixpoint insert_by_distance_then_code (x : float * string)
    (l : list (float * string)) : list (float * string) :=
  match l with
  | [] => [x]
  | y :: r =>
      if before_by_distance_then_code x y then x :: l
      else y :: insert_by_distance_then_code x r
  end.

(** The candidates sorted by distance, then by code. *)
Definition sort_by_distance_then_code (l : list (float * string))
  : list (float * string) :=
  foldr insert_by_distance_then_code [] l.

(** The travel times of the hops of a route, in order. *)
Fixpoint hop_times (edge_tt : gmap (string * string) float) (route : list string)
  : list float :=
  match route with
  | u :: ((v :: _) as rest) => travel_time edge_tt u v :: hop_times edge_tt rest
  | _ => []
  end.

(** The elapsed clock after the first [i] hops: it starts at [0.0] and each
    hop adds its travel time, in route order. *)
Definition clock (edge_tt : gmap (string * string) float) (route : list string)
    (i : nat) : float :=
  fold_left PrimFloat.add (take i (hop_times edge_tt route)) 0%float.

(** The measure of the loop of [shortest_path]: queue length plus the number
    of names not yet seen. *)
Definition bfs_measure (name_graph : gmap string (list string))
    (q : list (string * list string)) (seen : gset string) : nat :=
  (length q + size (graph_nodes name_graph ∖ seen))%nat.

(** What the loop of [merge_stations] leaves at [code] when the SIH entry
    [st] meets the value [o] already merged. *)
Definition merge_value (code : string) (o : option Station) (st : Station)
  : Station :=
  match o with
  | Some m =>
      mkStation code
        (if Py.truthy_str (name m) then name m else name st)
        (if Py.truthy_int (platform_count m) then platform_count m
         else platform_count st)
        (if Py.truthy_float (halt_min m) then halt_min m else halt_min st)
        (lat m) (lon m)
  | None => st
  end.

(** [haversine_km] raises on no two stations of the dict that have
    coordinates. *)
Definition haversine_defined (py : Py.Builtins) (stations : Py.dict Station)
  : Prop :=
  forall c1 s1 c2 s2 la lo ola olo,
    Py.dict_get stations c1 = Some s1 -> Py.dict_get stations c2 = Some s2 ->
    lat s1 = Some la -> lon s1 = Some lo ->
    lat s2 = Some ola -> lon s2 = Some olo ->
    is_Some (haversine_km py la lo ola olo).

(** [oc] is a candidate neighbour of [code]: another station with
    coordinates. *)
Definition is_candidate (stations : Py.dict Station) (code oc : string) : bool :=
  negb (String.eqb oc code)
  && match Py.dict_get stations oc with
     | Some ot => has_coords ot
     | None => false
     end.

(** The section [s] is an inferred edge from [code] to a candidate of
    [dlist] that [existing] does not connect, with the travel time inferred
    from its distance and the names of the two stations. *)
Definition inferred_edge (stations : Py.dict Station) (avg_speed_kmph : float)
    (code : string) (existing : gset (string * string))
    (dlist : list (float * string)) (s : TrackSection) : Prop :=
  from_code s = code
  /\ leg_type s = "inferred"
  /\ ((code, to_code s) ∉ existing)
  /\ In (distance_km s, to_code s) dlist
  /\ (exists q, Py.div (distance_km s) avg_speed_kmph = Some q
                /\ travel_min s = PrimFloat.mul q 60%float)
  /\ (exists sa sb, Py.dict_get stations code = Some sa
                    /\ Py.dict_get stations (to_code s) = Some sb
                    /\ from_name s = name sa /\ to_name s = name sb).

(** The state [(existing, result)] of the augmentation loop: the result is
    the base list followed by appended sections; [existing] holds exactly the
    directed pairs of the result; every appended section is inferred, joins
    two stations of the dict, and its directed pair occurs neither in the
    base list nor twice among the appended ones. *)
Definition augment_inv (stations : Py.dict Station) (base : list TrackSection)
    (st : gset (string * string) * list TrackSection) : Prop :=
  exists added,
    st.2 = base ++ added
    /\ (forall p, (p ∈ st.1) <-> In p (map directed_pair st.2))
    /\ (forall s, In s added ->
          leg_type s = "inferred"
          /\ In (from_code s) (Py.dict_keys stations)
          /\ In (to_code s) (Py.dict_keys stations))
    /\ List.NoDup (map directed_pair added)
    /\ (forall s, In s added -> ~ In (directed_pair s) (map directed_pair base)).

(** [x] may stand before [y]: [y] is not strictly nearer than [x]. *)
Definition not_farther (x y : float * string) : Prop :=
  PrimFloat.ltb (fst y) (fst x) = false.

(** The candidates at the distance [d]. *)
Definition at_distance (d : float) (l : list (float * string))
  : list (float * string) :=
  List.filter (fun x => PrimFloat.Leibniz.eqb (fst x) d) l.

(** The candidates at the distance [d] as [==] compares floats: [0.0] and
    [-0.0] are one distance. *)
Definition same_distance (d : float) (l : list (float * string))
  : list (float * string) :=
  List.filter (fun x => PrimFloat.eqb (fst x) d) l.

(** ** A user train ([api.py], [add_train]): the path sections *)

Section AddTrainPath.

Context (py : Py.Builtins).

(** The body of the loop over consecutive stations [a], [b] of the request:
    the first section of the adjacency from [a] to [b] when there is one,
    otherwise a direct inferred leg when both are stations with coordinates,
    otherwise nothing ([Some None]: the [continue]). *)
Definition leg_between (merged_stations : Py.dict Station)
    (adj : gmap string (list (string * TrackSection))) (a b : string)
  : option (option TrackSection) :=
  match List.filter (fun e : string * TrackSection => String.eqb e.1 b)
          (neighbors adj a) with
  | e :: _ => Some (Some e.2)
  | [] =>
      match Py.dict_get merged_stations a, Py.dict_get merged_stations b with
      | Some sa, Some sb =>
          match lat sa, lon sa, lat sb, lon sb with
          | Some la, Some lo, Some lb, Some lob =>
              dist ← haversine_km py la lo lb lob;
              let travel_min :=
                PrimFloat.mul (PrimFloat.div dist 70%float) 60%float in
              Some (Some (mkSection a (name sa) b (name sb) dist travel_min
                            "inferred"))
          | _, _, _, _ => Some None
          end
      | _, _ => Some None
      end
  end.

(** The loop [for i in range(len(req.stations) - 1)]. *)
Fixpoint path_sections_from (merged_stations : Py.dict Station)
    (adj : gmap string (list (string * TrackSection))) (stations : list string)
    (path_sections : list TrackSection) : option (list TrackSection) :=
  match stations with
  | a :: ((b :: _) as rest) =>
      leg ← leg_between merged_stations adj a b;
      path_sections_from merged_stations adj rest
        match leg with
        | Some sec => path_sections ++ [sec]
        | None => path_sections
        end
  | _ => Some path_sections
  end.

(** [add_train] up to its path: the network, its adjacency, the path
    sections of the requested stations. *)
Definition add_train_path (fs : FileSystem) (inp : Inputs) (stations : list string)
  : option (list TrackSection) :=
  net ← build_network py fs inp;
  path_sections_from net.1 (build_adjacency net.2) stations [].

End AddTrainPath.

(** The sections of [path] join consecutive stations of [stations], in
    order: [path] can be read along [stations] from left to right. *)
Fixpoint follows (stations : list string) (path : list TrackSection) : Prop :=
  match path with
  | [] => True
  | sec :: path' =>
      exists before after,
        stations = before ++ from_code sec :: to_code sec :: after
        /\ follows (to_code sec :: after) path'
  end.

(** ** A random route ([generate_schedule.py], [pick_route]) *)

(** The generator of the [random] module: its states, and [_randbelow(n)],
    which gives a number below [n] and the next state when [n] is
    positive. *)
Record Random := {
  rng : Type;
  randbelow : rng -> nat -> nat * rng;
  randbelow_lt : forall s n, (0 < n)%nat -> ((randbelow s n).1 < n)%nat
}.

Section PickRoute.

Context (R : Random).

(** [random.choice(seq)] is [seq[_randbelow(len(seq))]], and [IndexError] on
    an empty [seq]. *)
Definition choice {A} (s : rng R) (seq : list A) : option (A * rng R) :=
  match seq with
  | [] => None
  | _ :: _ =>
      let r := randbelow R s (length seq) in
      x ← nth_error seq r.1; Some (x, r.2)
  end.

(** [random.randint(a, b)] is [a + _randbelow(b + 1 - a)], and [ValueError]
    on an empty range. *)
Definition randint (s : rng R) (a b : Z) : option (Z * rng R) :=
  if (0 <? b + 1 - a)%Z then
    let r := randbelow R s (Z.to_nat (b + 1 - a)) in
    Some (a + Z.of_nat r.1, r.2)
  else None.

(** The loop [while start_code not in adj and attempts < 50], with [n] the
    attempts left. *)
Fixpoint pick_start (n : nat) (adj : gmap string (list (string * TrackSection)))
    (keys : list string) (start_code : string) (s : rng R)
  : option (string * rng R) :=
  match n with
  | O => Some (start_code, s)
  | S n' =>
      match adj !! start_code with
      | Some _ => Some (start_code, s)
      | None => c ← choice s keys; pick_start n' adj keys c.1 c.2
      end
  end.

(** [[sec for nxt, sec in adj.get(current, []) if nxt not in visited]]. *)
Definition unvisited (adj : gmap string (list (string * TrackSection)))
    (visited : gset string) (current : string) : list TrackSection :=
  map snd
    (List.filter (fun e : string * TrackSection => negb (bool_decide (e.1 ∈ visited)))
       (neighbors adj current)).

(** The loop [for _ in range(200)], with [n] the rounds left. *)
Fixpoint extend_route (n : nat) (adj : gmap string (list (string * TrackSection)))
    (target_len : Z) (s : rng R) (visited : gset string)
    (path_sections : list TrackSection) (current : string)
  : option (list TrackSection * rng R) :=
  match n with
  | O => Some (path_sections, s)
  | S n' =>
      let nbs := unvisited adj visited current in
      match nbs with
      | [] => Some (path_sections, s)
      | _ :: _ =>
          c ← choice s nbs;
          let path_sections' := path_sections ++ [c.1] in
          if (target_len <=? Z.of_nat (length path_sections'))%Z
          then Some (path_sections', c.2)
          else extend_route n' adj target_len c.2 ({[ to_code c.1 ]} ∪ visited)
                 path_sections' (to_code c.1)
      end
  end.

(** [pick_route]: the route and the next state of the generator; [None] when
    a call of [random] raises. *)
Definition pick_route (adj : gmap string (list (string * TrackSection)))
    (stations : Py.dict Station) (min_stops max_stops : Z) (s : rng R)
  : option (list TrackSection * rng R) :=
  if (size adj =? 0)%nat then Some ([], s)
  else
    c ← choice s (Py.dict_keys stations);
    st ← pick_start 50 adj (Py.dict_keys stations) c.1 c.2;
    match adj !! st.1 with
    | None => Some ([], st.2)
    | Some _ =>
        t ← randint st.2 (min_stops - 1) (max_stops - 1);
        r ← extend_route 200 adj t.1 t.2 {[ st.1 ]} [] st.1;
        if (Z.of_nat (length r.1) <? min_stops - 1)%Z then Some ([], r.2)
        else Some r
    end.

End PickRoute.

(** [path] is a chain of sections from [start]: each section leaves the
    station where the one before it arrives. *)
Fixpoint route_chain (start : string) (path : list TrackSection) : Prop :=
  match path with
  | [] => True
  | sec :: rest => from_code sec = start /\ route_chain (to_code sec) rest
  end.

(** The station where the chain [path] from [start] ends. *)
Definition route_end (start : string) (path : list TrackSection) : string :=
  List.last (map to_code path) start.

(** ** Timelines ([generate_schedule.py], [generate_trains_schedule];
       [api.py], [add_train]) *)

(** A row of a schedule: [TrainStop], and the dict of [add_train] with the
    same keys. *)
Module TrainStop.

Record t := mk {
  train_id : string;
  train_name : string;
  train_type : string;
  priority_level : string;
  stop_index : Z;
  station_code : string;
  station_name : string;
  latitude : option float;
  longitude : option float;
  arrive_time_iso : string;
  depart_time_iso : string;
  eta_minutes_from_start : float;
  from_code : string;
  to_code : string;
  section_travel_time_min : float;
  halt_time_min_at_station : float;
  leg_type : string
}.

End TrainStop.

(** The [datetime] library: [datetime.fromisoformat] ([None]: [ValueError]),
    [dt + timedelta(minutes=m)] ([None]: the minutes are not a finite number,
    or the date leaves the range of [datetime]) and [dt.isoformat()]. *)
Record DateTime := {
  datetime : Type;
  fromisoformat : string -> option datetime;
  plus_minutes : datetime -> float -> option datetime;
  isoformat : datetime -> string
}.

(** [str(n)] and the format [f"{n:03d}"] of an integer. *)
Module Fmt.

Definition str (n : Z) : string := NilZero.string_of_int (Z.to_int n).

Fixpoint zeros (n : nat) : string :=
  match n with
  | O => ""
  | S n' => String "0" (zeros n')
  end.

(** [s.zfill(width)] on a string of digits. *)
Definition zfill (width : nat) (s : string) : string :=
  zeros (width - String.length s) ++ s.

Definition d03 (n : Z) : string :=
  if (n <? 0)%Z then "-" ++ zfill 2 (str (- n)) else zfill 3 (str n).

End Fmt.

Section Timeline.

Context (D : DateTime).

(** The names of a train on its rows: id, name, type and priority level. *)
Record TrainMeta := {
  meta_id : string;
  meta_name : string;
  meta_type : string;
  meta_priority : string
}.

(** The row of the first stop. *)
Definition origin_stop (m : TrainMeta) (start_dt : datetime D) (origin : Station)
    (first : TrackSection) : TrainStop.t :=
  TrainStop.mk (meta_id m) (meta_name m) (meta_type m) (meta_priority m) 0
    (code origin) (name origin) (lat origin) (lon origin)
    (isoformat D start_dt) (isoformat D start_dt) 0%float
    "" (to_code first) 0%float (halt_min origin) "origin".

(** The body of the loop over the path sections, the same in both programs:
    the state is [(schedule, current_time, elapsed, stop_index)]. A section
    to a code that is no station moves the clock and adds no row. *)
Definition add_stop (m : TrainMeta) (stations : Py.dict Station)
    (st : list TrainStop.t * datetime D * float * Z) (sec : TrackSection)
  : option (list TrainStop.t * datetime D * float * Z) :=
  let '(schedule, current_time, elapsed, stop_index) := st in
  let travel := Py.max 1%float (travel_min sec) in
  arrival ← plus_minutes D current_time travel;
  let elapsed := PrimFloat.add elapsed travel in
  match Py.dict_get stations (to_code sec) with
  | None => Some (schedule, arrival, elapsed, stop_index)
  | Some to_st =>
      let halt := Py.max 0%float (halt_min to_st) in
      departure ← plus_minutes D arrival halt;
      let elapsed := PrimFloat.add elapsed halt in
      Some (schedule
              ++ [TrainStop.mk (meta_id m) (meta_name m) (meta_type m)
                    (meta_priority m) stop_index
                    (code to_st) (name to_st) (lat to_st) (lon to_st)
                    (isoformat D arrival) (isoformat D departure) elapsed
                    (from_code sec) (to_code sec) travel halt (leg_type sec)],
            departure, elapsed, stop_index + 1)
  end.

(** The origin row and the loop, appended to [schedule]. *)
Definition timeline (m : TrainMeta) (stations : Py.dict Station)
    (start_dt : datetime D) (origin : Station) (path_sections : list TrackSection)
    (first : TrackSection) (schedule : list TrainStop.t)
  : option (list TrainStop.t) :=
  st ← Py.foldM (add_stop m stations)
         (schedule ++ [origin_stop m start_dt origin first], start_dt, 0%float, 1)
         path_sections;
  Some st.1.1.1.

End Timeline.

(** ** A user train ([api.py], [add_train]) *)

(** The request model [AddTrainRequest]. *)
Module AddTrainRequest.

Record t := mk {
  train_id : option string;
  train_name : option string;
  train_type : string;
  priority_level : string;
  stations : list string;
  start_time_iso : string
}.

End AddTrainRequest.

Section AddTrain.

Context (py : Py.Builtins) (D : DateTime).

(** [f"USR{abs(hash(tuple(req.stations))) % 100000:05d}"]: the hash of a
    tuple of strings is the interpreter's. *)
Context (user_train_id : list string -> string).

(** [tid], [tname] and the type and priority level of the request. *)
Definition request_meta (req : AddTrainRequest.t) : TrainMeta :=
  {| meta_id :=
       Py.or_str (AddTrainRequest.train_id req)
         (user_train_id (AddTrainRequest.stations req));
     meta_name := Py.or_str (AddTrainRequest.train_name req) "User Train";
     meta_type := AddTrainRequest.train_type req;
     meta_priority := AddTrainRequest.priority_level req |}.

(** The answer of [add_train]: [inl] is the text under ["error"], [inr] the
    rows under ["schedule"]. The copy of the rows written to
    [user_train_schedule.csv] is not part of the answer. *)
Definition add_train (fs : FileSystem) (inp : Inputs) (req : AddTrainRequest.t)
  : option (string + list TrainStop.t) :=
  net ← build_network py fs inp;
  path_sections ←
    path_sections_from py net.1 (build_adjacency net.2)
      (AddTrainRequest.stations req) [];
  let m := request_meta req in
  match path_sections with
  | [] => Some (inl "No valid path built from provided stations")
  | first :: _ =>
      start_dt ← fromisoformat D (AddTrainRequest.start_time_iso req);
      match Py.dict_get net.1 (from_code first) with
      | None => Some (inl "Origin not found")
      | Some origin =>
          schedule ← timeline D m net.1 start_dt origin path_sections first [];
          Some (inr schedule)
      end
  end.

End AddTrain.

(** ** Generated trains ([generate_schedule.py], [generate_trains_schedule]) *)

Section Generate.

Context (R : Random) (D : DateTime).

(** [random.seed(a)]. *)
Context (seed : Z -> rng R).

Definition train_types : list string :=
  ["Passenger"; "Express"; "Superfast"; "Freight"; "Special"].

Definition priorities : list string := ["High"; "Medium"; "Low"].

(** The loop [while tcount < num_trains and attempts < num_trains * 10], with
    [n] the attempts left. *)
Fixpoint generate_loop (n : nat) (adj : gmap string (list (string * TrackSection)))
    (stations : Py.dict Station) (start_dt : datetime D) (num_trains : Z)
    (s : rng R) (schedule : list TrainStop.t) (tcount : Z)
  : option (list TrainStop.t) :=
  match n with
  | O => Some schedule
  | S n' =>
      if (tcount <? num_trains)%Z then
        r ← pick_route R adj stations 5 10 s;
        match r.1 with
        | [] => generate_loop n' adj stations start_dt num_trains r.2 schedule tcount
        | first :: _ =>
            let tcount := (tcount + 1)%Z in
            ttype ← choice R r.2 train_types;
            prio ← choice R ttype.2 priorities;
            let m :=
              {| meta_id := ("T" ++ Fmt.d03 tcount)%string;
                 meta_name := ("Auto " ++ Fmt.str tcount)%string;
                 meta_type := ttype.1;
                 meta_priority := prio.1 |} in
            match Py.dict_get stations (from_code first) with
            | None =>
                generate_loop n' adj stations start_dt num_trains prio.2 schedule
                  (tcount - 1)%Z
            | Some origin =>
                schedule ← timeline D m stations start_dt origin r.1 first schedule;
                generate_loop n' adj stations start_dt num_trains prio.2 schedule
                  tcount
            end
        end
      else Some schedule
  end.

Definition generate_trains_schedule (stations : Py.dict Station)
    (sections : list TrackSection) (num_trains : Z) (start_time_iso : string)
  : option (list TrainStop.t) :=
  let s := seed 42 in
  let adj := build_adjacency sections in
  start_dt ← fromisoformat D start_time_iso;
  generate_loop (Z.to_nat (num_trains * 10)) adj stations start_dt num_trains s [] 0.

End Generate.

(** ** The simulation ([api.py], [run_simulation]) *)

(** The stations, the sections and the schedule of the answer of
    [run_simulation]. The three files it writes are not part of the
    answer. *)
Definition run_simulation (py : Py.Builtins) (R : Random) (D : DateTime)
    (seed : Z -> rng R) (fs : FileSystem) (inp : Inputs) (num_trains : Z)
    (start_time_iso : string)
  : option (Py.dict Station * list TrackSection * list TrainStop.t) :=
  net ← build_network py fs inp;
  schedule ←
    generate_trains_schedule R D seed net.1 net.2 num_trains start_time_iso;
  Some (net.1, net.2, schedule).

(** The rows of [rows] are numbered from [first] on. *)
Definition numbered_from (first : Z) (rows : list TrainStop.t) : Prop :=
  map TrainStop.stop_index rows
  = map (fun k => (first + Z.of_nat k)%Z) (seq 0 (length rows)).

(** The row [row] carries the names of the train. *)
Definition row_of_train (m : TrainMeta) (row : TrainStop.t) : Prop :=
  TrainStop.train_id row = meta_id m
  /\ TrainStop.train_name row = meta_name m
  /\ TrainStop.train_type row = meta_type m
  /\ TrainStop.priority_level row = meta_priority m.

(** A row that the loop over the path sections adds for [sec]. *)
Definition stop_of (m : TrainMeta) (stations : Py.dict Station) (sec : TrackSection)
    (row : TrainStop.t) : Prop :=
  row_of_train m row
  /\ TrainStop.from_code row = from_code sec
  /\ TrainStop.to_code row = to_code sec
  /\ TrainStop.leg_type row = leg_type sec
  /\ (exists to_st,
        Py.dict_get stations (to_code sec) = Some to_st
        /\ TrainStop.station_code row = code to_st
        /\ TrainStop.station_name row = name to_st
        /\ TrainStop.halt_time_min_at_station row = Py.max 0%float (halt_min to_st))
  /\ TrainStop.section_travel_time_min row = Py.max 1%float (travel_min sec)
  /\ PrimFloat.leb 1%float (TrainStop.section_travel_time_min row) = true
  /\ PrimFloat.leb 0%float (TrainStop.halt_time_min_at_station row) = true.

(** The sections of [path] that end at a station of the dict. *)
Definition to_known (stations : Py.dict Station) (path : list TrackSection)
  : list TrackSection :=
  List.filter (fun sec => Py.dict_mem stations (to_code sec)) path.

(** The rows [block] of the generated train number [tcount]: the origin row
    and one row for each section of its route that ends at a station; the
    route is a chain of 4 to 9 sections of the network that starts at a
    station and comes to no station twice. *)
Definition generated_train (D : DateTime) (stations : Py.dict Station)
    (sections : list TrackSection) (start_dt : datetime D) (tcount : Z)
    (block : list TrainStop.t) : Prop :=
  exists m origin first path rows,
    meta_id m = ("T" ++ Fmt.d03 tcount)%string
    /\ meta_name m = ("Auto " ++ Fmt.str tcount)%string
    /\ In (meta_type m) train_types
    /\ In (meta_priority m) priorities
    /\ Py.dict_get stations (from_code first) = Some origin
    /\ route_chain (from_code first) (first :: path)
    /\ Forall (fun sec => In sec sections) (first :: path)
    /\ List.NoDup (from_code first :: map to_code (first :: path))
    /\ (4 <= length (first :: path) <= 9)%nat
    /\ block = origin_stop D m start_dt origin first :: rows
    /\ numbered_from 0 block
    /\ Forall2 (stop_of m stations) (to_known stations (first :: path)) rows.

(** The blocks of the generated trains number [first], [first + 1], ... *)
Fixpoint trains_from (D : DateTime) (stations : Py.dict Station)
    (sections : list TrackSection) (start_dt : datetime D) (first : Z)
    (blocks : list (list TrainStop.t)) : Prop :=
  match blocks with
  | [] => True
  | block :: rest =>
      generated_train D stations sections start_dt first block
      /\ trains_from D stations sections start_dt (first + 1) rest
  end.

(** ** Notions for the route search *)

(** The names [name_graph.get(node, [])] gives. *)
Definition named_neighbors (name_graph : gmap string (list string))
    (node : string) : list string :=
  default [] (name_graph !! node).

(** [path] walks the graph: each name is among the neighbours of the name
    before it. *)
Fixpoint is_walk (name_graph : gmap string (list string)) (path : list string)
  : Prop :=
  match path with
  | u :: ((v :: _) as rest) =>
      In v (named_neighbors name_graph u) /\ is_walk name_graph rest
  | _ => True
  end.

(** A walk from [start] to [end_]. *)
Definition walk_between (name_graph : gmap string (list string))
    (start end_ : string) (path : list string) : Prop :=
  head path = Some start /\ last path = Some end_ /\ is_walk name_graph path.

(** What the loop of [shortest_path] keeps for an entry [(node, path)] of its
    queue: [path] is a walk from [start] to [node] that repeats no name and
    whose names are all in [seen]. *)
Definition queue_entry_ok (name_graph : gmap string (list string)) (start : string)
    (seen : gset string) (e : string * list string) : Prop :=
  walk_between name_graph start e.1 e.2
  /\ List.NoDup e.2
  /\ (forall x, In x e.2 -> x ∈ seen).

(** What the loop keeps for [seen]: a seen name is still in the queue, or is
    not [end_] and has all its neighbours seen. *)
Definition seen_closed (name_graph : gmap string (list string)) (end_ : string)
    (q : list (string * list string)) (seen : gset string) : Prop :=
  forall x, x ∈ seen ->
    In x (map fst q)
    \/ (x <> end_ /\ forall nb, In nb (named_neighbors name_graph x) -> nb ∈ seen).

(** What the loop of [shortest_path] keeps about lengths: the queue is
    [q1 ++ q2], the paths of [q1] have [L] names and those of [q2] one more;
    every path of the queue is a walk from [start] to its node, and no walk
    from [start] to that node is shorter; every name that a walk of at most
    [L] names reaches is seen; [L] is at least one. *)
Definition bfs_level_inv (name_graph : gmap string (list string))
    (start end_ : string) (L : nat) (q1 q2 : list (string * list string))
    (seen : gset string) : Prop :=
  (1 <= L)%nat
  /\ Forall (fun e => length e.2 = L) q1
  /\ Forall (fun e => length e.2 = S L) q2
  /\ Forall (fun e =>
               walk_between name_graph start e.1 e.2
               /\ forall w, walk_between name_graph start e.1 w ->
                    (length e.2 <= length w)%nat) (q1 ++ q2)
  /\ seen_closed name_graph end_ (q1 ++ q2) seen
  /\ (forall w x, walk_between name_graph start x w -> (length w <= L)%nat ->
        x ∈ seen).

(** ** Notions for the name graph and the built trains *)

(** [sec] has both names, so [analyze_scenario] keeps it in its name graph. *)
Definition is_named (sec : TrackSection) : bool :=
  Py.truthy_str (from_name sec) && Py.truthy_str (to_name sec).

(** [sec] is a named section from [u]. *)
Definition named_from (u : string) (sec : TrackSection) : bool :=
  is_named sec && String.eqb (from_name sec) u.

(** [sec] is a named section from [u] to [v]. *)
Definition named_edge (u v : string) (sec : TrackSection) : bool :=
  named_from u sec && String.eqb (to_name sec) v.

(** ** Notions for the inferred sections *)

(** The section [s] joins two different stations of the dict that both have
    coordinates; its distance is the haversine distance between them, its
    travel time is that distance at [avg_speed_kmph], in minutes, and its
    names are the names of the two stations. *)
Definition inferred_between (py : Py.Builtins) (stations : Py.dict Station)
    (avg_speed_kmph : float) (s : TrackSection) : Prop :=
  leg_type s = "inferred"
  /\ from_code s <> to_code s
  /\ exists sa sb la lo ola olo q,
       Py.dict_get stations (from_code s) = Some sa
       /\ Py.dict_get stations (to_code s) = Some sb
       /\ lat sa = Some la /\ lon sa = Some lo
       /\ lat sb = Some ola /\ lon sb = Some olo
       /\ haversine_km py la lo ola olo = Some (distance_km s)
       /\ Py.div (distance_km s) avg_speed_kmph = Some q
       /\ travel_min s = PrimFloat.mul q 60%float
       /\ from_name s = name sa /\ to_name s = name sb.

(** The sections of [l] that leave the station [c]. *)
Definition sections_from (c : string) (l : list TrackSection) : list TrackSection :=
  List.filter (fun s => String.eqb (from_code s) c) l.

(** ** Data for the examples *)

Module Demo.

Fixpoint digits (s : string) (acc : Z) : option Z :=
  match s with
  | EmptyString => Some acc
  | String c r =>
      let n := N_of_ascii c in
      if ((48 <=? n)%N && (n <=? 57)%N)
      then digits r (10 * acc + Z.of_N (n - 48))
      else None
  end.

(** [int] on a plain string of decimal digits. *)
Definition int_of_digits (s : string) : option Z :=
  match s with
  | EmptyString => None
  | _ => digits s 0
  end.

(** [float] on a plain string of at most 15 decimal digits, each of which
    is a binary64 number. *)
Definition float_of_digits (s : string) : option float :=
  if (15 <? String.length s)%nat then None
  else n ← int_of_digits s; Some (PrimFloat.of_uint63 (Uint63.of_Z n)).

(** Stand-ins for the library functions in the examples: the parsers
    above, and the small-angle forms of the [math] functions ([sin x] as
    [x], [cos x] as [1], [atan2 y x] as [y], [x ** 2] as [x * x]). No
    example depends on the distances they give. A list with a NaN distance
    is left as it is; no example has one. *)
Definition builtins : Py.Builtins :=
  {| Py.int_of_str := int_of_digits;
     Py.float_of_str := float_of_digits;
     Py.math_sin := fun x => Some x;
     Py.math_cos := fun _ => Some 1%float;
     Py.math_atan2 := fun y _ => y;
     Py.float_pow := fun x _ => Some (PrimFloat.mul x x);
     Py.sort_with_nan := fun l => l;
     Py.sort_with_nan_perm := fun l => Permutation_refl l |}.

(** Two sections [A -> B -> C] with station names equal to the codes. *)
Definition line_sections : list TrackSection :=
  [ mkSection "A" "A" "B" "B" 10%float 7%float "real";
    mkSection "B" "B" "C" "C" 12%float 9%float "real" ].

(** A train from [A] to [C], one that stays at [A], and one from the
    unknown station [Z]. *)
Definition through_train : Scenario.Train :=
  Scenario.mkTrain "T1" None "Express" "High" "A" "C".
Definition loop_train : Scenario.Train :=
  Scenario.mkTrain "T9" None "Passenger" "Low" "A" "A".
Definition lost_train : Scenario.Train :=
  Scenario.mkTrain "T7" None "Freight" "Medium" "Z" "C".

(** A CSV row from its fields. *)
Definition row (fields : list (string * string)) : gmap string string :=
  list_to_map fields.

(** Three files: station [X] in both station files, with every field
    filled in and different, and one section from [X] to a code [Q] that
    no station file has. *)
Definition files : FileSystem :=
  fun path =>
    if String.eqb path "sih_stations.csv" then
      Some (Rows [row [("Station Code", "X"); ("Station Name", "Alpha");
                       ("Platform Count", "2"); ("Halt Time (mins)", "5")]])
    else if String.eqb path "trainsih_stations.csv" then
      Some (Rows [row [("Station Code", "X"); ("Station Name", "Beta");
                       ("Platform Count", "4"); ("Halt Time (mins)", "3");
                       ("Latitude", "1"); ("Longitude", "2")]])
    else if String.eqb path "sih_sections.csv" then
      Some (Rows [row [("From Station Code", "X"); ("From Station Name", "Alpha");
                       ("To Station Code", "Q"); ("To Station Name", "Quay");
                       ("Distance (km)", "10");
                       ("Average Travel Time (mins)", "8")]])
    else None.

Definition inputs : Inputs :=
  {| sih_stations_csv := "sih_stations.csv";
     sih_sections_csv := "sih_sections.csv";
     trainsih_stations_csv := "trainsih_stations.csv" |}.

(** No file at all. *)
Definition no_files : FileSystem := fun _ => None.

(** Three stations, in the order [A], [C], [B] of the dict: [C] and [B]
    share their coordinates, so they are at one distance from [A]. *)
Definition tie_stations : Py.dict Station :=
  [ ("A", mkStation "A" "Alpha" 2 5%float (Some 0%float) (Some 0%float));
    ("C", mkStation "C" "Gamma" 1 2%float (Some 1%float) (Some 1%float));
    ("B", mkStation "B" "Beta" 1 2%float (Some 1%float) (Some 1%float)) ].

(** One real section, from [A] to [C]. *)
Definition tie_base : list TrackSection :=
  [ mkSection "A" "Alpha" "C" "Gamma" 150%float 90%float "real" ].

(** Three trains on the block [X-Y]: [A] at [0, 10) with priority 5, [B] at
    [5, 15) with priority 1, [C] at [10, 20) with priority 3. *)
Definition train_a : SimTrain :=
  mkTrain "A" "express" 5 ["X"; "Y"] [mkOcc "X-Y" 0%float 10%float] 0%float.
Definition train_b : SimTrain :=
  mkTrain "B" "freight" 1 ["X"; "Y"] [mkOcc "X-Y" 5%float 15%float] 0%float.
Definition train_c : SimTrain :=
  mkTrain "C" "passenger" 3 ["X"; "Y"] [mkOcc "X-Y" 10%float 20%float] 0%float.

(** A fourth train, [D] at [8, 20) with priority 3, that overlaps both [A]
    and [B]. *)
Definition train_d : SimTrain :=
  mkTrain "D" "passenger" 3 ["X"; "Y"] [mkOcc "X-Y" 8%float 20%float] 0%float.

End Demo.

(** ** Data for the examples of the generator and of the user train *)

Module Sample.

(** A generator: the state is a counter, [_randbelow(n)] is the counter
    modulo [n], and every call adds one to the counter; [seed(a)] sets the
    counter to [a]. *)
Definition counter : Random :=
  {| rng := nat;
     randbelow := fun s n => (s mod n, S s)%nat;
     randbelow_lt :=
       fun s n H => Nat.mod_upper_bound s n (proj2 (Nat.neq_0_lt_0 n) H) |}.

Definition seed (a : Z) : rng counter := Z.to_nat a.

(** A clock: a date is the number of durations added since the start, every
    string but the empty one is the start, and a date is written as its
    number. *)
Definition clock : DateTime :=
  {| datetime := nat;
     fromisoformat := fun s => if String.eqb s "" then None else Some 0%nat;
     plus_minutes := fun t _ => Some (S t);
     isoformat := fun t => Fmt.str (Z.of_nat t) |}.

(** The id of a user train without one. *)
Definition user_train_id (stations : list string) : string := "USR00000".

(** Six stations [A] to [F] without coordinates, and the five sections of
    the line [A -> B -> C -> D -> E -> F]. *)
Definition station (c : string) : string * Station :=
  (c, mkStation c c 1 2%float None None).

Definition line_stations : Py.dict Station :=
  map station ["A"; "B"; "C"; "D"; "E"; "F"].

Definition leg (a b : string) : TrackSection :=
  mkSection a a b b 10%float 7%float "real".

Definition line : list TrackSection :=
  [leg "A" "B"; leg "B" "C"; leg "C" "D"; leg "D" "E"; leg "E" "F"].

(** The request of a user train over [X], [Q] and [R] on the example files
    of [Demo]: a section joins [X] to [Q], and [R] is no station. *)
Definition request : AddTrainRequest.t :=
  AddTrainRequest.mk (Some "U1") None "Express" "High" ["X"; "Q"; "R"]
    "2025-09-19T08:00:00".

(** Files with the section file of [Demo] alone. *)
Definition sections_only : FileSystem :=
  fun path =>
    if String.eqb path "sih_sections.csv" then Demo.files path else None.

(** A station file with a platform count that is no integer. *)
Definition bad_rows : list (gmap string string) :=
  [Demo.row [("Station Code", "X"); ("Station Name", "Alpha");
             ("Platform Count", "two"); ("Halt Time (mins)", "5")]].

Definition bad_files : FileSystem :=
  fun path =>
    if String.eqb path "sih_stations.csv" then Some (Rows bad_rows) else None.

(** A section file that exists and cannot be read. *)
Definition unreadable_files : FileSystem :=
  fun path => if String.eqb path "sih_sections.csv" then Some Unreadable else None.

(** Two stations [A] and [B] in the SIH station file and one section from
    [A] to [B]; the request of a user train from [A] to [B]. *)
Definition pair_files : FileSystem :=
  fun path =>
    if String.eqb path "sih_stations.csv" then
      Some (Rows [Demo.row [("Station Code", "A"); ("Station Name", "Alpha");
                            ("Platform Count", "2"); ("Halt Time (mins)", "5")];
                  Demo.row [("Station Code", "B"); ("Station Name", "Beta");
                            ("Platform Count", "1"); ("Halt Time (mins)", "3")]])
    else if String.eqb path "sih_sections.csv" then
      Some (Rows [Demo.row [("From Station Code", "A");
                            ("From Station Name", "Alpha");
                            ("To Station Code", "B"); ("To Station Name", "Beta");
                            ("Distance (km)", "10");
                            ("Average Travel Time (mins)", "8")]])
    else None.

Definition pair_request : AddTrainRequest.t :=
  AddTrainRequest.mk (Some "U2") None "Express" "High" ["A"; "B"]
    "2025-09-19T08:00:00".

(** A Trainsih file with two rows for [X]: the first has coordinates. *)
Definition first_row : gmap string string :=
  Demo.row [("Station Code", "X"); ("Station Name", "Beta");
            ("Platform Count", "4"); ("Halt Time (mins)", "3");
            ("Latitude", "1"); ("Longitude", "2")].

Definition second_row : gmap string string :=
  Demo.row [("Station Code", "X"); ("Station Name", "Gamma");
            ("Platform Count", "6"); ("Halt Time (mins)", "9");
            ("Latitude", "5"); ("Longitude", "6")].

Definition twice_files : FileSystem :=
  fun path =>
    if String.eqb path "trainsih_stations.csv"
    then Some (Rows ([first_row] ++ [second_row]))
    else None.

End Sample.

(* ===================================================================== *)
(** * Part II: properties                                                 *)
(* ===================================================================== *)

(** ** The order of binary64 numbers *)

Section FloatOrder.

(** Case analysis on the comparison of three specification floats. *)
Ltac sf_order x y z :=
  unfold SFltb, SFcompare;
  destruct x as [?sx|?sx| |?sx ?mx ?ex], y as [?sy|?sy| |?sy ?my ?ey],
           z as [?sz|?sz| |?sz ?mz ?ez];
  repeat match goal with s : bool |- _ => destruct s end;
  simpl; try congruence;
  rewrite ?Pos.compare_cont_spec; unfold Pos.switch_Eq;
  repeat match goal with
         | |- context [(?a ?= ?b)%Z] =>
             destruct (Z.compare_spec a b); simpl; try congruence; try lia; subst
         end;
  repeat match goal with
         | |- context [(?a ?= ?b)%positive] =>
             destruct (Pos.compare_spec a b); simpl; try congruence; try lia; subst
         end.

Lemma SFltb_irrefl x : SFltb x x = false.
Proof.
  unfold SFltb, SFcompare.
  destruct x as [s|s| |s m e]; try destruct s; try reflexivity;
    rewrite Z.compare_refl, ?Pos.compare_cont_refl; reflexivity.
Qed.

Lemma SFltb_trans x y z :
  SFltb x y = true -> SFltb y z = true -> SFltb x z = true.
Proof. sf_order x y z. Qed.

Lemma SFltb_le_lt_trans x y z :
  x <> S754_nan -> y <> S754_nan ->
  SFltb y x = false -> SFltb y z = true -> SFltb x z = true.
Proof. sf_order x y z. Qed.

Lemma SFltb_lt_le_trans x y z :
  y <> S754_nan -> z <> S754_nan ->
  SFltb x y = true -> SFltb z y = false -> SFltb x z = true.
Proof. sf_order x y z. Qed.

Lemma ltb_irrefl x : PrimFloat.ltb x x = false.
Proof. rewrite ltb_spec. apply SFltb_irrefl. Qed.

Lemma ltb_trans x y z :
  PrimFloat.ltb x y = true -> PrimFloat.ltb y z = true -> PrimFloat.ltb x z = true.
Proof. rewrite !ltb_spec. apply SFltb_trans. Qed.

Lemma ltb_asym x y : PrimFloat.ltb x y = true -> PrimFloat.ltb y x = false.
Proof.
  intros Hxy. destruct (PrimFloat.ltb y x) eqn:Hyx; [|reflexivity].
  rewrite <- (ltb_irrefl x). symmetry. exact (ltb_trans _ _ _ Hxy Hyx).
Qed.

End FloatOrder.

(** ** The equality of binary64 numbers *)

Section FloatEquality.

(** Case analysis on the comparisons of the specification floats at hand. *)
Ltac sf_cases :=
  unfold SFeqb, SFltb, SFcompare;
  repeat match goal with
         | x : spec_float |- _ => destruct x as [?s|?s| |?s ?m ?e]
         end;
  repeat match goal with s : bool |- _ => destruct s end;
  simpl; try congruence;
  rewrite ?Pos.compare_cont_spec; unfold Pos.switch_Eq;
  repeat match goal with
         | |- context [(?a ?= ?b)%Z] =>
             destruct (Z.compare_spec a b); simpl; try congruence; try lia; subst
         end;
  repeat match goal with
         | |- context [(?a ?= ?b)%positive] =>
             destruct (Pos.compare_spec a b); simpl; try congruence; try lia; subst
         end.

Lemma SFnot_ltb_trans x y z :
  x <> S754_nan -> y <> S754_nan -> z <> S754_nan ->
  SFltb y x = false -> SFltb z y = false -> SFltb z x = false.
Proof. sf_cases. Qed.

Lemma SFeqb_of_not_ltb x y :
  x <> S754_nan -> y <> S754_nan ->
  SFltb x y = false -> SFltb y x = false -> SFeqb x y = true.
Proof. sf_cases. Qed.

Lemma SFeqb_trans x y z :
  SFeqb x y = true -> SFeqb y z = true -> SFeqb x z = true.
Proof. sf_cases. Qed.

Lemma SFeqb_sym x y : SFeqb x y = true -> SFeqb y x = true.
Proof. sf_cases. Qed.

Lemma SFeqb_refl x : x <> S754_nan -> SFeqb x x = true.
Proof. sf_cases. Qed.

Lemma SFltb_not_eqb x y : SFltb x y = true -> SFeqb x y = false.
Proof. sf_cases. Qed.

Lemma float_eqb_trans x y z :
  PrimFloat.eqb x y = true -> PrimFloat.eqb y z = true -> PrimFloat.eqb x z = true.
Proof. rewrite !FloatAxioms.eqb_spec. apply SFeqb_trans. Qed.

Lemma float_eqb_sym x y : PrimFloat.eqb x y = true -> PrimFloat.eqb y x = true.
Proof. rewrite !FloatAxioms.eqb_spec. apply SFeqb_sym. Qed.

Lemma ltb_not_eqb x y : PrimFloat.ltb x y = true -> PrimFloat.eqb x y = false.
Proof. rewrite ltb_spec, FloatAxioms.eqb_spec. apply SFltb_not_eqb. Qed.

End FloatEquality.

(** ** Occupancy construction *)

Section Occupancies.

Context (edge_tt : gmap (string * string) float).

Lemma build_occupancies_length current route :
  length (build_occupancies edge_tt current route) = (length route - 1)%nat.
Proof.
  revert current. induction route as [|u [|v rest] IH]; intros current;
    [reflexivity | reflexivity |].
  change (S (length (build_occupancies edge_tt
                       (PrimFloat.add current (travel_time edge_tt u v))
                       (v :: rest))) = S (length rest)).
  rewrite IH. simpl. lia.
Qed.

Lemma hop_times_length route :
  length (hop_times edge_tt route) = (length route - 1)%nat.
Proof.
  induction route as [|u [|v rest] IH]; [reflexivity | reflexivity |].
  change (S (length (hop_times edge_tt (v :: rest))) = S (length rest)).
  rewrite IH. simpl. lia.
Qed.

Lemma hop_times_lookup route i u v :
  route !! i = Some u -> route !! S i = Some v ->
  hop_times edge_tt route !! i = Some (travel_time edge_tt u v).
Proof.
  revert i. induction route as [|a [|b rest] IH]; intros i Hu Hv;
    [discriminate | destruct i; discriminate |].
  destruct i as [|i].
  - simpl in Hu, Hv. injection Hu as ->. injection Hv as ->. reflexivity.
  - change (hop_times edge_tt (b :: rest) !! i = Some (travel_time edge_tt u v)).
    apply IH; assumption.
Qed.

(** The occupancy at index [i], for a loop entered with any clock value. *)
Lemma build_occupancies_lookup current route i u v :
  route !! i = Some u -> route !! S i = Some v ->
  let start := fold_left PrimFloat.add (take i (hop_times edge_tt route)) current in
  build_occupancies edge_tt current route !! i
  = Some (mkOcc (u +:+ "-" +:+ v) start
            (PrimFloat.add start (travel_time edge_tt u v))).
Proof.
  revert current i. induction route as [|a [|b rest] IH]; intros current i Hu Hv;
    [discriminate | destruct i; discriminate |].
  destruct i as [|i].
  - simpl in Hu, Hv. injection Hu as ->. injection Hv as ->. reflexivity.
  - change (build_occupancies edge_tt
              (PrimFloat.add current (travel_time edge_tt a b)) (b :: rest) !! i
            = Some (mkOcc (u +:+ "-" +:+ v)
                      (fold_left PrimFloat.add
                         (take i (hop_times edge_tt (b :: rest)))
                         (PrimFloat.add current (travel_time edge_tt a b)))
                      (PrimFloat.add
                         (fold_left PrimFloat.add
                            (take i (hop_times edge_tt (b :: rest)))
                            (PrimFloat.add current (travel_time edge_tt a b)))
                         (travel_time edge_tt u v)))).
    apply (IH (PrimFloat.add current (travel_time edge_tt a b)) i); assumption.
Qed.

Lemma clock_step route i u v :
  route !! i = Some u -> route !! S i = Some v ->
  clock edge_tt route (S i)
  = PrimFloat.add (clock edge_tt route i) (travel_time edge_tt u v).
Proof.
  intros Hu Hv. unfold clock.
  rewrite (take_S_r _ _ _ (hop_times_lookup _ _ _ _ Hu Hv)).
  rewrite fold_left_app. reflexivity.
Qed.

End Occupancies.

(** C3. For every route [s0..sn], the occupancy sequence built from clock [0.0]
    has [len(route) - 1] entries; entry [i] has the block id made of the
    ordered pair [(si, si+1)], starts at the elapsed clock and ends at the
    clock plus the hop's travel time, which is the value of [edge_tt] at
    [(si, si+1)] when there is one and [5.0] otherwise; the clock starts at
    [0.0] and advances by exactly that travel time. *)
Theorem occupancy_construction (edge_tt : gmap (string * string) float)
    (route : list string) :
  length (build_occupancies edge_tt 0%float route) = (length route - 1)%nat
  /\ clock edge_tt route 0 = 0%float
  /\ forall i u v, route !! i = Some u -> route !! S i = Some v ->
       exists travel,
         travel = match edge_tt !! (u, v) with Some t => t | None => 5%float end
         /\ build_occupancies edge_tt 0%float route !! i
            = Some (mkOcc (u +:+ "-" +:+ v) (clock edge_tt route i)
                      (PrimFloat.add (clock edge_tt route i) travel))
         /\ clock edge_tt route (S i)
            = PrimFloat.add (clock edge_tt route i) travel.
Proof.
  split; [apply build_occupancies_length|].
  split; [reflexivity|].
  intros i u v Hu Hv. exists (travel_time edge_tt u v).
  split; [unfold travel_time; destruct (edge_tt !! (u, v)); reflexivity|].
  split.
  - apply (build_occupancies_lookup edge_tt 0%float route i u v Hu Hv).
  - apply clock_step; assumption.
Qed.

(** The theorem at the route [A, B, C] where only the hop [A-B] has a known
    travel time (7 minutes): the second block starts at 7 and lasts the
    default 5 minutes. *)
Lemma occupancy_construction_witness :
  ["A"; "B"; "C"] !! 1%nat = Some "B"
  /\ ["A"; "B"; "C"] !! 2%nat = Some "C"
  /\ build_occupancies {[ ("A", "B") := 7%float ]} 0%float ["A"; "B"; "C"] !! 1%nat
     = Some (mkOcc "B-C" 7%float 12%float).
Proof.
  split; [reflexivity|]. split; [reflexivity|].
  destruct (occupancy_construction {[ ("A", "B") := 7%float ]} ["A"; "B"; "C"])
    as (_ & _ & H).
  destruct (H 1%nat "B" "C" eq_refl eq_refl) as (travel & -> & Hocc & _).
  rewrite Hocc. vm_compute. reflexivity.
Defined.

(** ** Route search: the loop of [shortest_path] ends *)

Lemma size_difference_step (U seen : gset string) (nb : string) :
  nb ∈ U -> nb ∉ seen ->
  (1 + size (U ∖ ({[ nb ]} ∪ seen)) = size (U ∖ seen))%nat.
Proof.
  intros Hnb Hnotin.
  assert (U ∖ seen = {[ nb ]} ∪ U ∖ ({[ nb ]} ∪ seen)) as ->.
  { apply set_eq. intros x.
    rewrite elem_of_union, !elem_of_difference, elem_of_union, elem_of_singleton.
    destruct (decide (x = nb)) as [->|]; tauto. }
  rewrite (size_union {[ nb ]} (U ∖ ({[ nb ]} ∪ seen))).
  - rewrite size_singleton. lia.
  - intros x.
    rewrite elem_of_singleton, elem_of_difference, elem_of_union, elem_of_singleton.
    tauto.
Qed.

Section RouteSearch.

Context (name_graph : gmap string (list string)).

Lemma neighbour_in_graph_nodes node nb :
  nb ∈ default [] (name_graph !! node) -> nb ∈ graph_nodes name_graph.
Proof.
  destruct (name_graph !! node) as [nbs|] eqn:Hnode; simpl; [|set_solver].
  intros Hnb. unfold graph_nodes. apply elem_of_list_to_set.
  apply list_elem_of_join. exists nbs. split; [exact Hnb|].
  apply list_elem_of_fmap. exists (node, nbs). split; [reflexivity|].
  apply elem_of_map_to_list. exact Hnode.
Qed.

Lemma visit_measure path seen q nb :
  nb ∈ graph_nodes name_graph ->
  bfs_measure name_graph (visit path (seen, q) nb).2 (visit path (seen, q) nb).1
  = bfs_measure name_graph q seen.
Proof.
  intros Hnb. unfold visit, bfs_measure. simpl.
  destruct (decide (nb ∈ seen)) as [Hin|Hnotin]; simpl; [reflexivity|].
  rewrite length_app. simpl.
  pose proof (size_difference_step (graph_nodes name_graph) seen nb Hnb Hnotin).
  lia.
Qed.

Lemma visit_fold_measure path nbs seen q :
  (forall nb, nb ∈ nbs -> nb ∈ graph_nodes name_graph) ->
  bfs_measure name_graph (fold_left (visit path) nbs (seen, q)).2
    (fold_left (visit path) nbs (seen, q)).1
  = bfs_measure name_graph q seen.
Proof.
  revert seen q. induction nbs as [|nb nbs IH]; intros seen q Hnbs; [reflexivity|].
  simpl. destruct (visit path (seen, q) nb) as [seen' q'] eqn:Hv.
  rewrite IH by (intros; apply Hnbs; set_solver).
  pose proof (visit_measure path seen q nb (Hnbs nb ltac:(set_solver))) as Hm.
  rewrite Hv in Hm. exact Hm.
Qed.

Lemma bfs_enough_fuel fuel end_ q seen :
  (bfs_measure name_graph q seen < fuel)%nat ->
  is_Some (bfs fuel name_graph end_ q seen).
Proof.
  revert q seen. induction fuel as [|fuel IH]; intros q seen Hlt; [lia|].
  destruct q as [|[node path] q']; simpl; [eexists; reflexivity|].
  destruct (String.eqb node end_); [eexists; reflexivity|].
  apply IH.
  rewrite visit_fold_measure by (intros; eapply neighbour_in_graph_nodes; eassumption).
  unfold bfs_measure in *. simpl in Hlt. lia.
Qed.

(** The fuel of [shortest_path] is never used up: the loop returns. *)
Lemma bfs_terminates start end_ :
  is_Some (bfs (bfs_fuel name_graph) name_graph end_ [(start, [start])] {[ start ]}).
Proof.
  apply bfs_enough_fuel. unfold bfs_measure, bfs_fuel. simpl.
  assert (graph_nodes name_graph ∖ {[ start ]} ⊆ graph_nodes name_graph) as Hsub.
  { intros x Hx. apply elem_of_difference in Hx. tauto. }
  apply subseteq_size in Hsub. lia.
Qed.

(** [shortest_path] as the source returns it: the empty list when [start]
    is no key of the graph, the result of the loop otherwise. *)
Lemma shortest_path_returns start end_ :
  (name_graph !! start = None /\ shortest_path name_graph start end_ = [])
  \/ (is_Some (name_graph !! start)
      /\ bfs (bfs_fuel name_graph) name_graph end_ [(start, [start])] {[ start ]}
         = Some (shortest_path name_graph start end_)).
Proof.
  unfold shortest_path. destruct (name_graph !! start) as [nbs|] eqn:Hs.
  - right. split; [eexists; reflexivity|].
    destruct (bfs_terminates start end_) as [p Hp]. rewrite Hp. reflexivity.
  - left. split; reflexivity.
Qed.

(** A train whose source is its destination, and a key of the graph, gets
    the one-station route. *)
Lemma shortest_path_same start :
  is_Some (name_graph !! start) -> shortest_path name_graph start start = [start].
Proof.
  intros [nbs Hs]. unfold shortest_path, bfs_fuel. rewrite Hs. simpl.
  rewrite String.eqb_refl. reflexivity.
Qed.

End RouteSearch.

(** ** Building the trains of a request *)

Section BuiltTrains.

Context (name_graph : gmap string (list string))
        (edge_tt : gmap (string * string) float).

Lemma build_train_app built t :
  build_train name_graph edge_tt built t
  = built ++ build_train name_graph edge_tt [] t.
Proof.
  unfold build_train.
  destruct (shortest_path name_graph (Scenario.source t) (Scenario.destination t));
    [rewrite app_nil_r|]; reflexivity.
Qed.

Lemma build_trains_from built trains :
  fold_left (build_train name_graph edge_tt) trains built
  = built ++ build_trains name_graph edge_tt trains.
Proof.
  unfold build_trains. revert built.
  induction trains as [|t trains IH]; intros built; simpl.
  - rewrite app_nil_r. reflexivity.
  - rewrite (IH (build_train name_graph edge_tt built t)).
    rewrite (IH (build_train name_graph edge_tt [] t)).
    rewrite (build_train_app built t), <- app_assoc. reflexivity.
Qed.

(** The trains of a batch are built one by one, none depending on another. *)
Lemma build_trains_app before after :
  build_trains name_graph edge_tt (before ++ after)
  = build_trains name_graph edge_tt before ++ build_trains name_graph edge_tt after.
Proof.
  unfold build_trains at 1. rewrite fold_left_app.
  fold (build_trains name_graph edge_tt before). apply build_trains_from.
Qed.

Lemma build_trains_cons t trains :
  build_trains name_graph edge_tt (t :: trains)
  = build_train name_graph edge_tt [] t ++ build_trains name_graph edge_tt trains.
Proof. unfold build_trains at 1. simpl. apply build_trains_from. Qed.

(** A built train comes from a request whose route is not empty, and
    carries that route, its occupancies from clock [0.0] and delay [0.0]. *)
Lemma build_trains_In tr trains :
  In tr (build_trains name_graph edge_tt trains) ->
  exists t, In t trains
    /\ planned_path tr
       = shortest_path name_graph (Scenario.source t) (Scenario.destination t)
    /\ planned_path tr <> []
    /\ train_id tr = Scenario.train_id t
    /\ priority tr = priority_of (Scenario.priority_level t)
    /\ occupancies tr = build_occupancies edge_tt 0%float (planned_path tr)
    /\ delay_minutes tr = 0%float.
Proof.
  induction trains as [|t trains IH]; [intros []|].
  rewrite build_trains_cons, in_app_iff. intros [Hin|Hin].
  - exists t. split; [left; reflexivity|]. unfold build_train in Hin.
    destruct (shortest_path name_graph (Scenario.source t) (Scenario.destination t))
      as [|s route] eqn:Hroute; [destruct Hin|].
    destruct Hin as [<-|[]]. simpl. repeat split; try reflexivity. discriminate.
  - destruct (IH Hin) as (t' & Ht' & H). exists t'. split; [right; exact Ht'|exact H].
Qed.

End BuiltTrains.

(** C10. Every train that [analyze_scenario] builds has [delay_minutes] equal
    to [0.0], so between two built trains neither delay is greater than the
    other: a comparison of delays cannot tell them apart. *)
Theorem built_trains_have_no_delay (augmented_sections : list TrackSection)
    (trains : list Scenario.Train) (a b : SimTrain) :
  In a (built_trains (analyze_network augmented_sections trains)) ->
  In b (built_trains (analyze_network augmented_sections trains)) ->
  delay_minutes a = 0%float
  /\ delay_minutes b = 0%float
  /\ PrimFloat.ltb (delay_minutes a) (delay_minutes b) = false
  /\ PrimFloat.ltb (delay_minutes b) (delay_minutes a) = false.
Proof.
  unfold analyze_network. simpl. intros Ha Hb.
  apply build_trains_In in Ha as (_ & _ & _ & _ & _ & _ & _ & Ha).
  apply build_trains_In in Hb as (_ & _ & _ & _ & _ & _ & _ & Hb).
  rewrite Ha, Hb. repeat split; reflexivity.
Qed.

(** The theorem at the batch of the through train and the train that stays
    at [A] on the line [A -> B -> C]. *)
Lemma built_trains_have_no_delay_witness :
  let built :=
    built_trains
      (analyze_network Demo.line_sections [Demo.through_train; Demo.loop_train]) in
  map train_id built = ["T1"; "T9"]
  /\ Forall (fun tr => delay_minutes tr = 0%float) built.
Proof.
  split; [vm_compute; reflexivity|].
  apply Forall_forall. intros tr Hin. apply list_elem_of_In in Hin.
  exact (proj1 (built_trains_have_no_delay Demo.line_sections
                  [Demo.through_train; Demo.loop_train] tr tr Hin Hin)).
Defined.

(** ** Exclusion of a train without a route *)

(** C5, as stated, fails: on the line [A -> B -> C] the train that asks for a
    route from [A] to [A] resolves to the one-station path [A], fewer than two
    stations, and is nevertheless built and handed to the analysis. *)
Lemma one_station_route_is_built :
  shortest_path (name_network Demo.line_sections).1 "A" "A" = ["A"]
  /\ map train_id
       (built_trains (analyze_network Demo.line_sections [Demo.loop_train]))
     = ["T9"]
  /\ map planned_path
       (built_trains (analyze_network Demo.line_sections [Demo.loop_train]))
     = [["A"]].
Proof. vm_compute. repeat split; reflexivity. Qed.

(** C5, amended. A requested train whose route search returns the empty
    route is left out: the analysis of the batch is the analysis of the batch
    without it. A train whose search returns a one-station route is built,
    with no occupancy, between the trains built before and after it. *)
Theorem unroutable_train_excluded (augmented_sections : list TrackSection)
    (before after : list Scenario.Train) (t : Scenario.Train) :
  let net := name_network augmented_sections in
  let route := shortest_path net.1 (Scenario.source t) (Scenario.destination t) in
  (route = [] ->
   analyze_network augmented_sections (before ++ t :: after)
   = analyze_network augmented_sections (before ++ after))
  /\ (forall s, route = [s] ->
      build_trains net.1 net.2 (before ++ t :: after)
      = build_trains net.1 net.2 before
          ++ mkTrain (Scenario.train_id t) (Py.lower (Scenario.train_type t))
               (priority_of (Scenario.priority_level t)) [s] [] 0%float
          :: build_trains net.1 net.2 after).
Proof.
  intros net route. split.
  - intros Hroute. unfold analyze_network. fold net.
    assert (build_trains net.1 net.2 (before ++ t :: after)
            = build_trains net.1 net.2 (before ++ after)) as ->; [|reflexivity].
    rewrite !build_trains_app, build_trains_cons. unfold build_train.
    fold route. rewrite Hroute. reflexivity.
  - intros s Hroute. rewrite build_trains_app, build_trains_cons.
    unfold build_train. fold route. rewrite Hroute. reflexivity.
Qed.

(** The theorem at the line [A -> B -> C]: the train from the unknown station
    [Z] is left out of the batch, the train that stays at [A] is built. *)
Lemma unroutable_train_excluded_witness :
  shortest_path (name_network Demo.line_sections).1 "Z" "C" = []
  /\ analyze_network Demo.line_sections
       ([Demo.through_train] ++ Demo.lost_train :: [Demo.loop_train])
     = analyze_network Demo.line_sections ([Demo.through_train] ++ [Demo.loop_train]).
Proof.
  split; [vm_compute; reflexivity|].
  apply (unroutable_train_excluded Demo.line_sections
           [Demo.through_train] [Demo.loop_train] Demo.lost_train).
  vm_compute. reflexivity.
Defined.

(** ** Insertion-ordered dicts *)

Section Dicts.

Context {V : Type}.
Implicit Types (d : Py.dict V) (k : string) (v : V).

Lemma dict_get_set_eq d k v : Py.dict_get (Py.dict_set d k v) k = Some v.
Proof.
  induction d as [|[k' v'] d IH]; simpl.
  - rewrite String.eqb_refl. reflexivity.
  - destruct (String.eqb k' k) eqn:E; simpl; rewrite E; [reflexivity|exact IH].
Qed.

Lemma dict_get_set_ne d k k' v :
  k <> k' -> Py.dict_get (Py.dict_set d k v) k' = Py.dict_get d k'.
Proof.
  intros Hne. induction d as [|[k0 v0] d IH]; simpl.
  - apply String.eqb_neq in Hne. rewrite Hne. reflexivity.
  - destruct (String.eqb k0 k) eqn:E; simpl.
    + apply String.eqb_eq in E. subst k0.
      apply String.eqb_neq in Hne. rewrite Hne. reflexivity.
    + rewrite IH. reflexivity.
Qed.

Lemma dict_get_None d k : Py.dict_get d k = None <-> ~ In k (Py.dict_keys d).
Proof.
  induction d as [|[k' v'] d IH]; simpl; [tauto|].
  destruct (String.eqb_spec k' k) as [->|Hne].
  - split; [discriminate|]. intros H. exfalso. apply H. left. reflexivity.
  - rewrite IH. tauto.
Qed.

Lemma dict_get_Some_In d k v : Py.dict_get d k = Some v -> In (k, v) d.
Proof.
  induction d as [|[k' v'] d IH]; simpl; [discriminate|].
  destruct (String.eqb_spec k' k) as [->|Hne].
  - intros [= ->]. left. reflexivity.
  - intros H. right. apply IH, H.
Qed.

Lemma dict_get_In_keys d k v : Py.dict_get d k = Some v -> In k (Py.dict_keys d).
Proof.
  intros H. apply dict_get_Some_In in H.
  apply (in_map fst) in H. exact H.
Qed.

Lemma dict_keys_get d k : In k (Py.dict_keys d) -> is_Some (Py.dict_get d k).
Proof.
  intros Hin. destruct (Py.dict_get d k) eqn:E; [eexists; reflexivity|].
  apply dict_get_None in E. contradiction.
Qed.

Lemma dict_set_fresh d k v :
  ~ In k (Py.dict_keys d) -> Py.dict_set d k v = d ++ [(k, v)].
Proof.
  induction d as [|[k' v'] d IH]; simpl; [reflexivity|]. intros Hnot.
  destruct (String.eqb_spec k' k) as [->|Hne]; [tauto|].
  rewrite IH by tauto. reflexivity.
Qed.

Lemma dict_keys_set_present d k v :
  In k (Py.dict_keys d) -> Py.dict_keys (Py.dict_set d k v) = Py.dict_keys d.
Proof.
  induction d as [|[k' v'] d IH]; simpl; [tauto|]. intros Hin.
  destruct (String.eqb_spec k' k) as [->|Hne]; simpl; [reflexivity|].
  f_equal. apply IH. destruct Hin; [contradiction|assumption].
Qed.

(** Keys stay distinct under assignment. *)
Lemma dict_set_NoDup d k v :
  List.NoDup (Py.dict_keys d) -> List.NoDup (Py.dict_keys (Py.dict_set d k v)).
Proof.
  intros Hnd. destruct (in_dec string_dec k (Py.dict_keys d)) as [Hin|Hnot].
  - rewrite dict_keys_set_present by exact Hin. exact Hnd.
  - rewrite dict_set_fresh by exact Hnot. unfold Py.dict_keys.
    rewrite map_app. simpl. apply NoDup_ListNoDup, NoDup_app.
    split; [apply NoDup_ListNoDup, Hnd|]. split; [|apply NoDup_singleton].
    intros x Hx Hx'. apply list_elem_of_In in Hx.
    apply list_elem_of_singleton in Hx'. subst x. apply Hnot, Hx.
Qed.

(** [update] with a dict of distinct fresh keys appends it. *)
Lemma dict_update_fresh d other :
  List.NoDup (Py.dict_keys d ++ Py.dict_keys other) ->
  Py.dict_update d other = d ++ other.
Proof.
  unfold Py.dict_update. revert d.
  induction other as [|[k v] other IH]; intros d Hnd; simpl.
  - rewrite app_nil_r. reflexivity.
  - assert (~ In k (Py.dict_keys d)) as Hfresh.
    { intros Hin. apply NoDup_ListNoDup, NoDup_app in Hnd as (_ & Hdisj & _).
      apply (Hdisj k); [apply list_elem_of_In, Hin|]. simpl. left. }
    rewrite dict_set_fresh by exact Hfresh. rewrite IH.
    + rewrite <- app_assoc. reflexivity.
    + unfold Py.dict_keys in *. rewrite map_app. simpl in *.
      rewrite <- app_assoc. exact Hnd.
Qed.

End Dicts.

(** A loop whose body keeps an invariant keeps it when it returns. *)
Lemma foldM_invariant {A B} (P : B -> Prop) (f : B -> A -> option B) l :
  (forall b x b', P b -> f b x = Some b' -> P b') ->
  forall b r, P b -> Py.foldM f b l = Some r -> P r.
Proof.
  intros Hstep. induction l as [|x l IH]; intros b r Hb; simpl.
  - intros [= <-]. exact Hb.
  - destruct (f b x) as [b'|] eqn:E; [|discriminate].
    apply IH. eapply Hstep; eassumption.
Qed.

(** ** Loading and merging stations *)

Section Merging.

Context (py : Py.Builtins).

Lemma load_sih_stations_NoDup fs path sih :
  load_sih_stations py fs path = Some sih -> List.NoDup (Py.dict_keys sih).
Proof.
  unfold load_sih_stations. destruct (fs path) as [[rows|]|]; [|discriminate|].
  - apply (foldM_invariant (fun d => List.NoDup (Py.dict_keys d)));
      [|apply List.NoDup_nil].
    intros d row d' Hd. unfold load_sih_row.
    destruct (platform_of_row py row); simpl; [|discriminate].
    intros [= <-]. apply dict_set_NoDup, Hd.
  - intros [= <-]. apply List.NoDup_nil.
Qed.

Lemma load_trainsih_stations_NoDup fs path trn :
  load_trainsih_stations py fs path = Some trn -> List.NoDup (Py.dict_keys trn).
Proof.
  unfold load_trainsih_stations. destruct (fs path) as [[rows|]|]; [|discriminate|].
  - apply (foldM_invariant (fun d => List.NoDup (Py.dict_keys d)));
      [|apply List.NoDup_nil].
    intros d row d' Hd. unfold load_trainsih_row.
    destruct (platform_of_row py row); simpl; [|discriminate].
    destruct (Py.dict_get d _); [destruct (_ && _)|]; intros [= <-];
      try apply dict_set_NoDup; exact Hd.
  - intros [= <-]. apply List.NoDup_nil.
Qed.

Lemma merge_entry_hit merged code st :
  Py.dict_get (merge_entry merged (code, st)) code
  = Some (merge_value code (Py.dict_get merged code) st).
Proof.
  unfold merge_entry, merge_value.
  destruct (Py.dict_get merged code); apply dict_get_set_eq.
Qed.

Lemma merge_entry_other merged c st code :
  c <> code ->
  Py.dict_get (merge_entry merged (c, st)) code = Py.dict_get merged code.
Proof.
  intros Hne. unfold merge_entry.
  destruct (Py.dict_get merged c); apply dict_get_set_ne, Hne.
Qed.

Lemma merge_fold_other sih merged code :
  ~ In code (Py.dict_keys sih) ->
  Py.dict_get (fold_left merge_entry sih merged) code = Py.dict_get merged code.
Proof.
  revert merged. induction sih as [|[c s] sih IH]; intros merged Hnot;
    [reflexivity|].
  cbn [fold_left]. rewrite IH by (intros Hin; apply Hnot; right; exact Hin).
  apply merge_entry_other. intros ->. apply Hnot. left. reflexivity.
Qed.

Lemma merge_fold_hit sih merged code st :
  List.NoDup (Py.dict_keys sih) ->
  Py.dict_get sih code = Some st ->
  Py.dict_get (fold_left merge_entry sih merged) code
  = Some (merge_value code (Py.dict_get merged code) st).
Proof.
  revert merged. induction sih as [|[c s] sih IH]; intros merged Hnd Hget;
    [discriminate|].
  cbn [fold_left Py.dict_get Py.dict_keys map fst] in *.
  apply List.NoDup_cons_iff in Hnd as [Hfresh Hnd].
  destruct (String.eqb_spec c code) as [->|Hne].
  - injection Hget as ->. rewrite merge_fold_other by exact Hfresh.
    apply merge_entry_hit.
  - rewrite (IH _ Hnd Hget). rewrite merge_entry_other by exact Hne. reflexivity.
Qed.

(** The merged entry of a code that both loaded datasets have. *)
Lemma merge_loaded_both sih trn code st m :
  List.NoDup (Py.dict_keys sih) -> List.NoDup (Py.dict_keys trn) ->
  Py.dict_get sih code = Some st -> Py.dict_get trn code = Some m ->
  Py.dict_get (merge_loaded sih trn) code = Some (merge_value code (Some m) st).
Proof.
  intros Hsih Htrn Hst Hm. unfold merge_loaded.
  rewrite (dict_update_fresh [] trn) by exact Htrn. simpl.
  rewrite (merge_fold_hit sih trn code st Hsih Hst), Hm. reflexivity.
Qed.

End Merging.

(** C8, as stated, fails: station [X] has a name, a platform count and a halt
    time in both files; the merged station carries those of the secondary
    (Trainsih) file, not those of the primary (SIH) file. *)
Lemma merge_keeps_secondary_fields :
  (load_sih_stations Demo.builtins Demo.files "sih_stations.csv"
     ≫= fun d => Py.dict_get d "X")
  = Some (mkStation "X" "Alpha" 2 5%float None None)
  /\ (load_trainsih_stations Demo.builtins Demo.files "trainsih_stations.csv"
        ≫= fun d => Py.dict_get d "X")
     = Some (mkStation "X" "Beta" 4 3%float (Some 1%float) (Some 2%float))
  /\ (merge_stations Demo.builtins Demo.files
        "sih_stations.csv" "trainsih_stations.csv"
        ≫= fun d => Py.dict_get d "X")
     = Some (mkStation "X" "Beta" 4 3%float (Some 1%float) (Some 2%float)).
Proof. vm_compute. repeat split; reflexivity. Qed.

(** C8, amended. For every station code that both loaded datasets have, the
    merged station takes its coordinates from the secondary (Trainsih)
    entry, and each of name, platform count and halt time from the secondary
    entry when it is non-empty or non-zero there, and from the primary (SIH)
    entry otherwise. *)
Theorem merge_prefers_secondary (py : Py.Builtins) (fs : FileSystem)
    (sih_path trainsih_path : string) (sih trn : Py.dict Station)
    (code : string) (st m : Station) :
  load_sih_stations py fs sih_path = Some sih ->
  load_trainsih_stations py fs trainsih_path = Some trn ->
  Py.dict_get sih code = Some st ->
  Py.dict_get trn code = Some m ->
  exists merged,
    merge_stations py fs sih_path trainsih_path = Some merged
    /\ Py.dict_get merged code
       = Some (mkStation code
                 (if Py.truthy_str (name m) then name m else name st)
                 (if Py.truthy_int (platform_count m) then platform_count m
                  else platform_count st)
                 (if Py.truthy_float (halt_min m) then halt_min m else halt_min st)
                 (lat m) (lon m)).
Proof.
  intros Hsih Htrn Hst Hm. exists (merge_loaded sih trn). split.
  - unfold merge_stations. rewrite Hsih, Htrn. reflexivity.
  - apply (merge_loaded_both sih trn code st m);
      eauto using load_sih_stations_NoDup, load_trainsih_stations_NoDup.
Qed.

(** The theorem at the two station files of the examples. *)
Lemma merge_prefers_secondary_witness :
  exists merged,
    merge_stations Demo.builtins Demo.files
      "sih_stations.csv" "trainsih_stations.csv" = Some merged
    /\ Py.dict_get merged "X"
       = Some (mkStation "X" "Beta" 4 3%float (Some 1%float) (Some 2%float)).
Proof.
  apply (merge_prefers_secondary Demo.builtins Demo.files
           "sih_stations.csv" "trainsih_stations.csv"
           [("X", mkStation "X" "Alpha" 2 5%float None None)]
           [("X", mkStation "X" "Beta" 4 3%float (Some 1%float) (Some 2%float))]
           "X" (mkStation "X" "Alpha" 2 5%float None None)
           (mkStation "X" "Beta" 4 3%float (Some 1%float) (Some 2%float)));
    vm_compute; reflexivity.
Defined.

(** ** Missing source files *)

Lemma build_trains_empty_graph edge_tt trains : build_trains ∅ edge_tt trains = [].
Proof.
  induction trains as [|t trains IH]; [reflexivity|].
  rewrite build_trains_cons, IH. unfold build_train, shortest_path.
  rewrite lookup_empty. reflexivity.
Qed.

Lemma analyze_network_empty trains : analyze_network [] trains = mkAnalysis [] [] ∅.
Proof.
  unfold analyze_network. simpl. rewrite build_trains_empty_graph. reflexivity.
Qed.

(** C9. A loader given a path that does not exist returns the empty
    collection; [merge_stations] over two such paths returns the empty
    station set; with no station file the network is the loaded sections
    alone, and with no file at all it is empty, and the analysis of any batch
    then returns, with no train, no conflict and no decision. *)
Theorem missing_sources_degrade (py : Py.Builtins) (fs : FileSystem) :
  (forall path, fs path = None ->
     load_sih_stations py fs path = Some []
     /\ load_trainsih_stations py fs path = Some []
     /\ load_real_sections py fs path = Some [])
  /\ (forall sih_path trainsih_path,
        fs sih_path = None -> fs trainsih_path = None ->
        merge_stations py fs sih_path trainsih_path = Some [])
  /\ (forall inp trains,
        fs (sih_stations_csv inp) = None ->
        fs (trainsih_stations_csv inp) = None ->
        (fs (sih_sections_csv inp) = None ->
         build_network py fs inp = Some ([], [])
         /\ analyze_scenario py fs inp trains = Some (mkAnalysis [] [] ∅))
        /\ (forall real_sections,
              load_real_sections py fs (sih_sections_csv inp) = Some real_sections ->
              build_network py fs inp = Some ([], real_sections)
              /\ analyze_scenario py fs inp trains
                 = Some (analyze_network real_sections trains))).
Proof.
  assert (forall p q, fs p = None -> fs q = None ->
            merge_stations py fs p q = Some []) as Hmerge.
  { intros p q Hp Hq.
    unfold merge_stations, load_sih_stations, load_trainsih_stations.
    rewrite Hp, Hq. reflexivity. }
  assert (forall inp real, fs (sih_stations_csv inp) = None ->
            fs (trainsih_stations_csv inp) = None ->
            load_real_sections py fs (sih_sections_csv inp) = Some real ->
            build_network py fs inp = Some ([], real)) as Hnet.
  { intros inp real H1 H2 H3. unfold build_network.
    rewrite (Hmerge _ _ H1 H2), H3. reflexivity. }
  split; [|split; [exact Hmerge|]].
  - intros path Hpath.
    unfold load_sih_stations, load_trainsih_stations, load_real_sections.
    rewrite Hpath. repeat split; reflexivity.
  - intros inp trains H1 H2. split.
    + intros H3.
      assert (load_real_sections py fs (sih_sections_csv inp) = Some []) as Hreal
        by (unfold load_real_sections; rewrite H3; reflexivity).
      unfold analyze_scenario. rewrite (Hnet inp [] H1 H2 Hreal). simpl.
      rewrite analyze_network_empty. split; reflexivity.
    + intros real Hreal. unfold analyze_scenario.
      rewrite (Hnet inp real H1 H2 Hreal). split; reflexivity.
Qed.

(** The theorem where no file exists. *)
Lemma missing_sources_degrade_witness :
  Demo.no_files "sih_stations.csv" = None
  /\ merge_stations Demo.builtins Demo.no_files
       "sih_stations.csv" "trainsih_stations.csv" = Some []
  /\ analyze_scenario Demo.builtins Demo.no_files Demo.inputs [Demo.through_train]
     = Some (mkAnalysis [] [] ∅).
Proof.
  destruct (missing_sources_degrade Demo.builtins Demo.no_files)
    as (_ & Hmerge & Hnet).
  split; [reflexivity|]. split; [apply Hmerge; reflexivity|].
  apply (Hnet Demo.inputs [Demo.through_train] eq_refl eq_refl). reflexivity.
Defined.

(** ** Nearest-neighbour augmentation *)

Section Connect.

Context (stations : Py.dict Station) (k : Z) (avg_speed_kmph : float)
        (code : string).

Lemma inferred_edge_weaken existing existing' dlist dlist' s :
  inferred_edge stations avg_speed_kmph code existing' dlist s ->
  (forall p, p ∈ existing -> p ∈ existing') ->
  (forall x, In x dlist -> In x dlist') ->
  inferred_edge stations avg_speed_kmph code existing dlist' s.
Proof.
  intros (Hfrom & Hleg & Hnot & Hin & Hq & Hnames) Hex Hdl.
  split; [exact Hfrom|]. split; [exact Hleg|].
  split; [intros H; apply Hnot, Hex, H|].
  split; [apply Hdl, Hin|]. split; assumption.
Qed.

(** What one run of the loop over the sorted candidates appends. *)
Lemma connect_spec dlist : forall added existing result existing' result',
  connect stations k avg_speed_kmph code dlist added (existing, result)
  = Some (existing', result') ->
  exists new,
    result' = result ++ new
    /\ (forall p, (p ∈ existing') <-> ((p ∈ existing) \/ In p (map directed_pair new)))
    /\ (forall s, In s new ->
        inferred_edge stations avg_speed_kmph code existing dlist s)
    /\ List.NoDup (map directed_pair new)
    /\ (List.NoDup (map snd dlist) ->
        map to_code new
        = take (Z.to_nat (k - added))
            (List.filter (fun oc => negb (bool_decide ((code, oc) ∈ existing)))
               (map snd dlist))).
Proof.
  induction dlist as [|[d oc] rest IH]; intros added existing result existing' result'.
  - simpl. intros [= <- <-]. exists []. rewrite app_nil_r.
    split; [reflexivity|]. split; [simpl; tauto|]. split; [intros s []|].
    split; [apply List.NoDup_nil|]. intros _. cbn [map List.filter].
    rewrite take_nil. reflexivity.
  - cbn [connect]. destruct (added >=? k) eqn:Hk.
    + intros [= <- <-]. exists []. rewrite app_nil_r.
      split; [reflexivity|]. split; [simpl; tauto|]. split; [intros s []|].
      split; [apply List.NoDup_nil|]. intros _.
      replace (Z.to_nat (k - added)) with 0%nat by lia. reflexivity.
    + cbn [fst snd]. destruct (decide ((code, oc) ∈ existing)) as [Hin|Hnotin].
      * intros Hc. destruct (IH _ _ _ _ _ Hc) as (new & Hres & Hex & Hnew & Hnd & Htake).
        exists new. split; [exact Hres|]. split; [exact Hex|].
        split; [|split; [exact Hnd|]].
        -- intros s Hs. apply (inferred_edge_weaken existing existing rest);
             [apply Hnew, Hs|tauto|intros x Hx; right; exact Hx].
        -- intros Hnodup. cbn [map snd List.filter].
           rewrite bool_decide_eq_true_2 by exact Hin. cbn [negb].
           apply Htake. apply List.NoDup_cons_iff in Hnodup. tauto.
      * destruct (Py.div d avg_speed_kmph) as [q|] eqn:Hq; [|discriminate].
        cbn [mbind option_bind].
        destruct (Py.dict_get stations code) as [sa|] eqn:Hsa; [|discriminate].
        cbn [mbind option_bind].
        destruct (Py.dict_get stations oc) as [sb|] eqn:Hsb; [|discriminate].
        cbn [mbind option_bind]. intros Hc.
        destruct (IH _ _ _ _ _ Hc) as (new & Hres & Hex & Hnew & Hnd & Htake).
        set (s0 := mkSection code (name sa) oc (name sb) d
                     (PrimFloat.mul q 60%float) "inferred") in *.
        exists (s0 :: new). split; [rewrite Hres, <- app_assoc; reflexivity|].
        assert (~ In (code, oc) (map directed_pair new)) as Hfresh.
        { intros Hp. apply in_map_iff in Hp as (s & Hpair & Hs).
          destruct (Hnew s Hs) as (Hfrom & _ & Hnot & _).
          apply Hnot. injection Hpair as _ ->. apply elem_of_union_l.
          apply elem_of_singleton. reflexivity. }
        split; [|split; [|split]].
        -- intros p. rewrite Hex, elem_of_union, elem_of_singleton.
           cbn [map In]. unfold directed_pair at 1. cbn [from_code to_code s0].
           split; [intros [[->|?]|?]|intros [?|[<-|?]]]; tauto.
        -- intros s [<-|Hs].
           ++ split; [reflexivity|]. split; [reflexivity|].
              split; [exact Hnotin|]. split; [left; reflexivity|].
              split; [exists q|exists sa, sb]; repeat split; assumption.
           ++ apply (inferred_edge_weaken existing ({[(code, oc)]} ∪ existing) rest);
                [apply Hnew, Hs|intros p; apply elem_of_union_r
                |intros x Hx; right; exact Hx].
        -- cbn [map]. apply List.NoDup_cons; assumption.
        -- intros Hnodup. apply List.NoDup_cons_iff in Hnodup as [Hoc Hnodup].
           cbn [map snd List.filter to_code s0].
           rewrite bool_decide_eq_false_2 by exact Hnotin. cbn [negb].
           replace (Z.to_nat (k - added)) with (S (Z.to_nat (k - (added + 1)))) by lia.
           cbn [take]. f_equal. rewrite (Htake Hnodup). f_equal.
           apply filter_ext_in. intros oc' Hoc'. f_equal.
           apply bool_decide_ext. rewrite elem_of_union, elem_of_singleton.
           split; [|tauto]. intros [[= ->]|?]; [contradiction|assumption].
Qed.

End Connect.

(** ** The stable sort of the candidates *)

Section SortByDistance.

Lemma insert_by_distance_perm x l : Permutation (insert_by_distance x l) (x :: l).
Proof.
  induction l as [|y r IH]; simpl; [reflexivity|].
  destruct (PrimFloat.ltb (fst y) (fst x)); [|reflexivity].
  rewrite IH. apply perm_swap.
Qed.

Lemma stable_sort_perm l : Permutation (stable_sort l) l.
Proof.
  induction l as [|x l IH]; simpl; [reflexivity|].
  rewrite insert_by_distance_perm, IH. reflexivity.
Qed.

(** Whatever the distances are, sorting permutes the candidates. *)
Lemma sort_by_distance_perm py l : Permutation (sort_by_distance py l) l.
Proof.
  unfold sort_by_distance.
  destruct (no_nan l); [apply stable_sort_perm|apply Py.sort_with_nan_perm].
Qed.

Lemma sort_by_distance_no_nan py l :
  no_nan l = true -> sort_by_distance py l = stable_sort l.
Proof. intros H. unfold sort_by_distance. rewrite H. reflexivity. Qed.

Lemma insert_by_distance_HdRel a x l :
  HdRel not_farther a l -> not_farther a x ->
  HdRel not_farther a (insert_by_distance x l).
Proof.
  intros Hl Hx. destruct l as [|y r]; simpl; [constructor; exact Hx|].
  destruct (PrimFloat.ltb (fst y) (fst x)); constructor;
    [inversion Hl; assumption|exact Hx].
Qed.

Lemma insert_by_distance_sorted x l :
  Sorted not_farther l -> Sorted not_farther (insert_by_distance x l).
Proof.
  induction l as [|y r IH]; simpl; intros Hs; [repeat constructor|].
  inversion Hs as [|? ? Hr Hhd]; subst.
  destruct (PrimFloat.ltb (fst y) (fst x)) eqn:Hlt.
  - constructor; [apply IH, Hr|].
    apply insert_by_distance_HdRel; [exact Hhd|]. apply ltb_asym, Hlt.
  - constructor; [exact Hs|]. constructor. exact Hlt.
Qed.

Lemma stable_sort_sorted l : Sorted not_farther (stable_sort l).
Proof.
  induction l as [|x l IH]; simpl; [constructor|].
  apply insert_by_distance_sorted, IH.
Qed.

(** Without a NaN the candidates come out in ascending order of distance. *)
Lemma sort_by_distance_sorted py l :
  no_nan l = true -> Sorted not_farther (sort_by_distance py l).
Proof.
  intros H. rewrite (sort_by_distance_no_nan py l H). apply stable_sort_sorted.
Qed.

Lemma insert_by_distance_stable d x l :
  at_distance d (insert_by_distance x l) = at_distance d (x :: l).
Proof.
  unfold at_distance. induction l as [|y r IH]; [reflexivity|].
  cbn [insert_by_distance]. destruct (PrimFloat.ltb (fst y) (fst x)) eqn:Hlt;
    [|reflexivity].
  cbn [List.filter] in *. rewrite IH.
  destruct (PrimFloat.Leibniz.eqb (fst y) d) eqn:Hy; [|reflexivity].
  destruct (PrimFloat.Leibniz.eqb (fst x) d) eqn:Hx; [|reflexivity].
  apply Leibniz.eqb_spec in Hy, Hx. rewrite Hy, Hx, ltb_irrefl in Hlt.
  discriminate.
Qed.

Lemma stable_sort_stable d l :
  at_distance d (stable_sort l) = at_distance d l.
Proof.
  induction l as [|x l IH]; [reflexivity|].
  cbn [stable_sort foldr]. rewrite insert_by_distance_stable.
  unfold at_distance in *. cbn [List.filter].
  fold (stable_sort l). rewrite IH. reflexivity.
Qed.

(** Without a NaN the sort is stable: candidates at one distance keep the
    order they had, which is the order of the station dict. *)
Lemma sort_by_distance_stable py d l :
  no_nan l = true ->
  at_distance d (sort_by_distance py l) = at_distance d l.
Proof.
  intros H. rewrite (sort_by_distance_no_nan py l H). apply stable_sort_stable.
Qed.

(** An element passes no element that [==] makes equal to it. *)
Lemma insert_by_distance_same_distance d x l :
  same_distance d (insert_by_distance x l) = same_distance d (x :: l).
Proof.
  unfold same_distance. induction l as [|y r IH]; [reflexivity|].
  cbn [insert_by_distance]. destruct (PrimFloat.ltb (fst y) (fst x)) eqn:Hlt;
    [|reflexivity].
  cbn [List.filter] in *. rewrite IH.
  destruct (PrimFloat.eqb (fst y) d) eqn:Hy; [|reflexivity].
  destruct (PrimFloat.eqb (fst x) d) eqn:Hx; [|reflexivity].
  apply ltb_not_eqb in Hlt.
  rewrite (float_eqb_trans _ _ _ Hy (float_eqb_sym _ _ Hx)) in Hlt. discriminate.
Qed.

Lemma stable_sort_same_distance d l :
  same_distance d (stable_sort l) = same_distance d l.
Proof.
  induction l as [|x l IH]; [reflexivity|].
  cbn [stable_sort foldr]. rewrite insert_by_distance_same_distance.
  unfold same_distance in *. cbn [List.filter].
  fold (stable_sort l). rewrite IH. reflexivity.
Qed.

End SortByDistance.

(** ** The augmentation loop *)

Section Augmentation.

Context (py : Py.Builtins) (stations : Py.dict Station).

Lemma distances_spec code la lo codes : forall dl,
  distances py stations code la lo codes = Some dl ->
  map snd dl = List.filter (is_candidate stations code) codes
  /\ (forall d oc, In (d, oc) dl ->
        exists ot ola olo,
          Py.dict_get stations oc = Some ot
          /\ lat ot = Some ola /\ lon ot = Some olo
          /\ haversine_km py la lo ola olo = Some d).
Proof.
  induction codes as [|oc codes IH]; intros dl; cbn [distances List.filter].
  - intros [= <-]. split; [reflexivity|intros ? ? []].
  - unfold is_candidate at 1. destruct (String.eqb oc code); cbn [negb andb].
    { apply IH. }
    destruct (Py.dict_get stations oc) as [ot|] eqn:Hot; [|discriminate].
    cbn [mbind option_bind]. unfold has_coords.
    destruct (lat ot) as [ola|] eqn:Hla; [destruct (lon ot) as [olo|] eqn:Hlo|];
      try apply IH.
    destruct (haversine_km py la lo ola olo) as [d|] eqn:Hd; [|discriminate].
    cbn [mbind option_bind].
    destruct (distances py stations code la lo codes) as [dl'|]; [|discriminate].
    cbn [mbind option_bind]. intros [= <-].
    destruct (IH dl' eq_refl) as [Hsnd Hdl]. split.
    + cbn [map snd]. rewrite Hsnd. reflexivity.
    + intros d' oc' [[= <- <-]|Hin]; [eauto 10|apply Hdl, Hin].
Qed.

Lemma augment_inv_init base :
  augment_inv stations base (list_to_set (map directed_pair base), base).
Proof.
  exists []. cbn [fst snd]. rewrite app_nil_r. split; [reflexivity|].
  split; [intros p; rewrite elem_of_list_to_set; apply list_elem_of_In|].
  split; [intros s []|]. split; [apply List.NoDup_nil|intros s []].
Qed.

Lemma augment_station_inv base k avg_speed_kmph st code st' :
  augment_inv stations base st ->
  augment_station py stations k avg_speed_kmph st code = Some st' ->
  augment_inv stations base st'.
Proof.
  intros Hinv. unfold augment_station.
  destruct (Py.dict_get stations code) as [s|] eqn:Hs; [|discriminate].
  cbn [mbind option_bind].
  destruct (lat s) as [la|]; [destruct (lon s) as [lo|]|];
    try (intros [= <-]; exact Hinv).
  destruct (distances py stations code la lo (Py.dict_keys stations)) as [dl|];
    [|discriminate].
  cbn [mbind option_bind]. destruct st as [existing result], st' as [existing' result'].
  intros Hc. apply connect_spec in Hc as (new & Hres & Hex & Hnew & Hnd & _).
  destruct Hinv as (added & Hresult & Hexisting & Hadded & Hnodup & Hbase).
  cbn [fst snd] in *.
  assert (forall s0, In s0 new ->
            ~ In (directed_pair s0) (map directed_pair result)) as Hfresh.
  { intros s0 Hs0 Hin. destruct (Hnew s0 Hs0) as (Hfrom & _ & Hnot & _).
    apply Hnot, Hexisting. unfold directed_pair in Hin at 1.
    rewrite Hfrom in Hin. exact Hin. }
  exists (added ++ new). split; [rewrite Hres, Hresult, app_assoc; reflexivity|].
  split; [|split; [|split]].
  - intros p. cbn [fst snd].
    rewrite Hex, Hexisting, Hres, map_app, in_app_iff. reflexivity.
  - intros s0 Hs0. apply in_app_iff in Hs0 as [Hs0|Hs0]; [apply Hadded, Hs0|].
    destruct (Hnew s0 Hs0) as (Hfrom & Hleg & _ & _ & _ & sa & sb & Hsa & Hsb & _).
    split; [exact Hleg|]. rewrite Hfrom.
    split; eapply dict_get_In_keys; eassumption.
  - rewrite map_app. apply List.NoDup_app; [exact Hnodup|exact Hnd|].
    intros p Hp Hp'. apply in_map_iff in Hp' as (s0 & <- & Hs0).
    apply (Hfresh s0 Hs0). rewrite Hresult, map_app, in_app_iff. right. exact Hp.
  - intros s0 Hs0. apply in_app_iff in Hs0 as [Hs0|Hs0]; [apply Hbase, Hs0|].
    intros Hin. apply (Hfresh s0 Hs0).
    rewrite Hresult, map_app, in_app_iff. left. exact Hin.
Qed.

Lemma augment_loop_inv base k avg_speed_kmph st :
  augment_loop py stations base k avg_speed_kmph = Some st ->
  augment_inv stations base st.
Proof.
  unfold augment_loop.
  apply (foldM_invariant (augment_inv stations base)); [|apply augment_inv_init].
  intros b x b' Hb Hstep. eapply augment_station_inv; eassumption.
Qed.

End Augmentation.

(** *** The augmentation returns *)

Lemma foldM_total {A B} (f : B -> A -> option B) l :
  (forall b x, In x l -> is_Some (f b x)) -> forall b, is_Some (Py.foldM f b l).
Proof.
  induction l as [|x l IH]; intros Hf b; cbn [Py.foldM]; [eexists; reflexivity|].
  destruct (Hf b x (or_introl eq_refl)) as [b' ->].
  apply IH. intros b0 y Hy. apply Hf. right. exact Hy.
Qed.

Lemma distances_total py stations code c st la lo codes :
  haversine_defined py stations ->
  Py.dict_get stations c = Some st -> lat st = Some la -> lon st = Some lo ->
  (forall oc, In oc codes -> In oc (Py.dict_keys stations)) ->
  is_Some (distances py stations code la lo codes).
Proof.
  intros Hhav Hst Hla Hlo. induction codes as [|oc codes IH]; intros Hcodes;
    cbn [distances]; [eexists; reflexivity|].
  assert (is_Some (distances py stations code la lo codes)) as [dl Hdl]
    by (apply IH; intros oc' Hoc'; apply Hcodes; right; exact Hoc').
  destruct (String.eqb oc code); [rewrite Hdl; eexists; reflexivity|].
  destruct (dict_keys_get stations oc (Hcodes oc (or_introl eq_refl))) as [ot Hot].
  rewrite Hot. cbn [mbind option_bind].
  destruct (lat ot) as [ola|] eqn:Hola; [destruct (lon ot) as [olo|] eqn:Holo|];
    try (rewrite Hdl; eexists; reflexivity).
  destruct (Hhav c st oc ot la lo ola olo Hst Hot Hla Hlo Hola Holo) as [d ->].
  cbn [mbind option_bind]. rewrite Hdl. eexists. reflexivity.
Qed.

Lemma connect_total stations k avg_speed_kmph code dlist :
  PrimFloat.eqb avg_speed_kmph 0%float = false ->
  is_Some (Py.dict_get stations code) ->
  (forall d oc, In (d, oc) dlist -> is_Some (Py.dict_get stations oc)) ->
  forall added st, is_Some (connect stations k avg_speed_kmph code dlist added st).
Proof.
  intros Hspeed [sa Hsa]. induction dlist as [|[d oc] rest IH]; intros Hdl added st;
    cbn [connect]; [eexists; reflexivity|].
  assert (forall added st,
            is_Some (connect stations k avg_speed_kmph code rest added st)) as Hrest
    by (apply IH; intros d' oc' Hin; apply (Hdl d' oc'); right; exact Hin).
  destruct (added >=? k); [eexists; reflexivity|].
  destruct (decide ((code, oc) ∈ st.1)); [apply Hrest|].
  unfold Py.div. rewrite Hspeed. cbn [mbind option_bind]. rewrite Hsa.
  cbn [mbind option_bind].
  destruct (Hdl d oc (or_introl eq_refl)) as [sb ->]. cbn [mbind option_bind].
  apply Hrest.
Qed.

Lemma augment_loop_total py stations base k avg_speed_kmph :
  haversine_defined py stations ->
  PrimFloat.eqb avg_speed_kmph 0%float = false ->
  is_Some (augment_loop py stations base k avg_speed_kmph).
Proof.
  intros Hhav Hspeed. unfold augment_loop. apply foldM_total.
  intros st code Hcode. unfold augment_station.
  destruct (dict_keys_get stations code Hcode) as [s Hs]. rewrite Hs.
  cbn [mbind option_bind].
  destruct (lat s) as [la|] eqn:Hla; [destruct (lon s) as [lo|] eqn:Hlo|];
    try (eexists; reflexivity).
  destruct (distances_total py stations code code s la lo (Py.dict_keys stations)
              Hhav Hs Hla Hlo (fun oc H => H)) as [dl Hdl].
  rewrite Hdl. cbn [mbind option_bind].
  apply connect_total; [exact Hspeed|eexists; exact Hs|].
  intros d oc Hin.
  apply (Permutation_in _ (sort_by_distance_perm py dl)) in Hin.
  destruct (distances_spec py stations code la lo _ dl Hdl) as [_ Hall].
  destruct (Hall d oc Hin) as (ot & _ & _ & Hot & _). eexists. exact Hot.
Qed.

Lemma NoDup_map_prefix {A B} (f : A -> B) (l1 l2 : list A) (x : A) :
  List.NoDup (map f (l1 ++ x :: l2)) -> ~ In (f x) (map f l1).
Proof.
  rewrite map_app. cbn [map]. intros Hnd Hin.
  apply (NoDup_remove_2 _ _ _ Hnd). apply in_app_iff. left. exact Hin.
Qed.

(** What one augmentation returns, with the distinctness of the directed
    pairs it appends. *)
Lemma augment_sections_with_knn_spec py stations base k avg_speed_kmph result :
  augment_sections_with_knn py stations base k avg_speed_kmph = Some result ->
  exists added,
    result = base ++ added
    /\ (forall s, In s added ->
          leg_type s = "inferred"
          /\ In (from_code s) (Py.dict_keys stations)
          /\ In (to_code s) (Py.dict_keys stations))
    /\ List.NoDup (map directed_pair added)
    /\ (forall s, In s added -> ~ In (directed_pair s) (map directed_pair base)).
Proof.
  unfold augment_sections_with_knn.
  destruct (augment_loop py stations base k avg_speed_kmph) as [st|] eqn:Hloop;
    [|discriminate].
  cbn [mbind option_bind]. intros [= <-].
  destruct (augment_loop_inv _ _ _ _ _ _ Hloop)
    as (added & Hres & _ & Hadded & Hnd & Hbase).
  exists added. repeat split; try assumption; apply Hadded; assumption.
Qed.

Lemma augment_keeps_distinct py stations base k avg_speed_kmph result :
  List.NoDup (map directed_pair base) ->
  augment_sections_with_knn py stations base k avg_speed_kmph = Some result ->
  List.NoDup (map directed_pair result).
Proof.
  intros Hbase Haug.
  apply augment_sections_with_knn_spec in Haug as (added & -> & _ & Hnd & Hfresh).
  rewrite map_app. apply List.NoDup_app; [exact Hbase|exact Hnd|].
  intros p Hp Hp'. apply in_map_iff in Hp' as (s & <- & Hs).
  exact (Hfresh s Hs Hp).
Qed.

(** C4. The augmentation returns whenever [haversine_km] is defined on the
    stations and the average speed is not zero. What it returns is the base
    list, unchanged, followed by appended sections; every appended section
    has leg type [inferred] and a directed pair that occurs neither in the
    base list nor among the sections appended before it; so when the directed
    pairs of the base list are pairwise distinct, those of the result are,
    and so are those of a second augmentation fed with the result of the
    first. *)
Theorem augmentation_preserves_and_never_duplicates (py : Py.Builtins)
    (stations : Py.dict Station) (base : list TrackSection) (k : Z)
    (avg_speed_kmph : float) :
  (haversine_defined py stations ->
   PrimFloat.eqb avg_speed_kmph 0%float = false ->
   is_Some (augment_sections_with_knn py stations base k avg_speed_kmph))
  /\ forall result,
       augment_sections_with_knn py stations base k avg_speed_kmph = Some result ->
       exists added,
         result = base ++ added
         /\ (forall s, In s added -> leg_type s = "inferred")
         /\ (forall before s after, added = before ++ s :: after ->
               ~ In (directed_pair s) (map directed_pair (base ++ before)))
         /\ (List.NoDup (map directed_pair base) ->
             List.NoDup (map directed_pair result)
             /\ forall k' avg_speed_kmph' result',
                  augment_sections_with_knn py stations result k' avg_speed_kmph'
                  = Some result' ->
                  List.NoDup (map directed_pair result')).
Proof.
  split.
  - intros Hhav Hspeed. unfold augment_sections_with_knn.
    destruct (augment_loop_total py stations base k avg_speed_kmph Hhav Hspeed)
      as [st ->].
    eexists. reflexivity.
  - intros result Haug.
    destruct (augment_sections_with_knn_spec _ _ _ _ _ _ Haug)
      as (added & Hres & Hadded & Hnd & Hfresh).
    exists added. split; [exact Hres|]. split; [intros s Hs; apply Hadded, Hs|].
    split.
    + intros before s after Hsplit. rewrite map_app, in_app_iff. intros [Hin|Hin].
      * apply (Hfresh s); [|exact Hin]. rewrite Hsplit. apply in_elt.
      * rewrite Hsplit in Hnd. exact (NoDup_map_prefix _ _ _ _ Hnd Hin).
    + intros Hbase.
      pose proof (augment_keeps_distinct _ _ _ _ _ _ Hbase Haug) as Hresult.
      split; [exact Hresult|]. intros k' v' result' Haug'.
      exact (augment_keeps_distinct _ _ _ _ _ _ Hresult Haug').
Qed.

(** The theorem at the three stations of the examples, with one real section
    [A -> C] and [k = 1]: the three inferred sections are appended after it
    and no directed pair occurs twice. *)
Lemma augmentation_preserves_and_never_duplicates_witness :
  exists result,
    augment_sections_with_knn Demo.builtins Demo.tie_stations Demo.tie_base
      1 70%float = Some result
    /\ map directed_pair result = [("A", "C"); ("A", "B"); ("C", "B"); ("B", "C")]
    /\ map leg_type result = ["real"; "inferred"; "inferred"; "inferred"]
    /\ List.NoDup (map directed_pair result).
Proof.
  eexists. split; [vm_compute; reflexivity|].
  split; [reflexivity|]. split; [reflexivity|].
  match goal with
  | |- List.NoDup (map directed_pair ?r) =>
      destruct (proj2 (augmentation_preserves_and_never_duplicates Demo.builtins
                         Demo.tie_stations Demo.tie_base 1 70%float) r)
        as (added & _ & _ & _ & Hdistinct); [vm_compute; reflexivity|]
  end.
  apply Hdistinct. repeat constructor. intros [].
Defined.

(** ** Candidate ordering and selection *)

(** A distance that [haversine_km] returns is the Earth radius 6371 km times
    the central angle. *)
Lemma haversine_km_radius py lat1 lon1 lat2 lon2 d :
  haversine_km py lat1 lon1 lat2 lon2 = Some d ->
  exists c, d = PrimFloat.mul 6371%float c.
Proof.
  unfold haversine_km. intros H.
  repeat match type of H with
         | mbind _ ?o = Some _ =>
             destruct o; cbn [mbind option_bind] in H; [|discriminate]
         end.
  injection H as <-. eexists. reflexivity.
Qed.

(** C7, as stated, fails: seen from [A], the stations [C] and [B] are at one
    distance; the code orders them [C], [B], the order of the station dict,
    where distance then code orders them [B], [C]; with [k = 1] the inferred
    edge from [A] goes to [C]. *)
Lemma ties_keep_dict_order_not_code_order :
  (map snd ∘ sort_by_distance Demo.builtins
     <$> distances Demo.builtins Demo.tie_stations "A" 0%float 0%float
           (Py.dict_keys Demo.tie_stations))
  = Some ["C"; "B"]
  /\ (map snd ∘ sort_by_distance_then_code
        <$> distances Demo.builtins Demo.tie_stations "A" 0%float 0%float
              (Py.dict_keys Demo.tie_stations))
     = Some ["B"; "C"]
  /\ (map directed_pair
        <$> augment_sections_with_knn Demo.builtins Demo.tie_stations [] 1 70%float)
     = Some [("A", "C"); ("C", "B"); ("B", "C")].
Proof. vm_compute. repeat split; reflexivity. Qed.

(** The tie of the example does not depend on the distance function: the two
    stations share their coordinates. *)
Lemma tie_for_every_distance py d :
  haversine_km py 0%float 0%float 1%float 1%float = Some d ->
  PrimFloat.is_nan d = false ->
  sort_by_distance py
    <$> distances py Demo.tie_stations "A" 0%float 0%float
          (Py.dict_keys Demo.tie_stations)
  = Some [(d, "C"); (d, "B")].
Proof.
  intros Hd Hnan. cbn. rewrite Hd. cbn. unfold sort_by_distance, no_nan.
  cbn. rewrite Hnan. cbn. rewrite ltb_irrefl. reflexivity.
Qed.

(** C7, amended. For a station [code] with coordinates [(la, lo)], one step
    of the augmentation computes the haversine distance to every other
    station with coordinates ([dl], in the order of the station dict), sorts
    these candidates with [list.sort] on the distance alone, and appends
    inferred edges to the first [k] candidates, in the sorted order, that
    [existing] does not connect from [code]: at most [k]. The sorted list is
    a permutation of the candidates; when no distance is a NaN it is
    ascending by distance and the sort is stable (candidates at one distance
    keep the order of the station dict), which leaves one possible order,
    that of [stable_sort]. Each such edge has
    [travel_min = (distance_km / avg_speed) * 60]. *)
Theorem knn_candidate_selection (py : Py.Builtins) (stations : Py.dict Station)
    (k : Z) (avg_speed_kmph : float) (code : string) (st : Station)
    (la lo : float) (existing existing' : gset (string * string))
    (result result' : list TrackSection) :
  List.NoDup (Py.dict_keys stations) ->
  Py.dict_get stations code = Some st ->
  lat st = Some la -> lon st = Some lo ->
  augment_station py stations k avg_speed_kmph (existing, result) code
  = Some (existing', result') ->
  exists dl new,
    distances py stations code la lo (Py.dict_keys stations) = Some dl
    /\ map snd dl = List.filter (is_candidate stations code) (Py.dict_keys stations)
    /\ (forall d oc, In (d, oc) dl ->
          exists ot ola olo,
            Py.dict_get stations oc = Some ot
            /\ lat ot = Some ola /\ lon ot = Some olo
            /\ haversine_km py la lo ola olo = Some d)
    /\ Permutation (sort_by_distance py dl) dl
    /\ (no_nan dl = true ->
        Sorted not_farther (sort_by_distance py dl)
        /\ sort_by_distance py dl = stable_sort dl
        /\ (forall d,
              same_distance d (sort_by_distance py dl) = same_distance d dl)
        /\ forall d, at_distance d (sort_by_distance py dl) = at_distance d dl)
    /\ result' = result ++ new
    /\ map to_code new
       = take (Z.to_nat k)
           (List.filter (fun oc => negb (bool_decide ((code, oc) ∈ existing)))
              (map snd (sort_by_distance py dl)))
    /\ (length new <= Z.to_nat k)%nat
    /\ (forall s, In s new ->
          from_code s = code
          /\ leg_type s = "inferred"
          /\ In (distance_km s, to_code s) dl
          /\ exists q, Py.div (distance_km s) avg_speed_kmph = Some q
                       /\ travel_min s = PrimFloat.mul q 60%float).
Proof.
  intros Hkeys Hst Hla Hlo. unfold augment_station.
  rewrite Hst. cbn [mbind option_bind]. rewrite Hla, Hlo.
  destruct (distances py stations code la lo (Py.dict_keys stations)) as [dl|] eqn:Hdl;
    [|discriminate].
  cbn [mbind option_bind]. intros Hc.
  destruct (distances_spec py stations code la lo _ dl Hdl) as [Hsnd Hhav].
  apply connect_spec in Hc as (new & Hres & _ & Hnew & _ & Htake).
  assert (List.NoDup (map snd (sort_by_distance py dl))) as Hnodup.
  { apply (Permutation_NoDup (l := map snd dl)).
    - apply Permutation_map. symmetry. apply sort_by_distance_perm.
    - rewrite Hsnd. apply List.NoDup_filter, Hkeys. }
  specialize (Htake Hnodup). rewrite Z.sub_0_r in Htake.
  exists dl, new. split; [reflexivity|]. split; [exact Hsnd|].
  split; [exact Hhav|]. split; [apply sort_by_distance_perm|].
  split.
  { intros Hnan. split; [apply sort_by_distance_sorted, Hnan|].
    split; [apply sort_by_distance_no_nan, Hnan|].
    split; [|intros d; apply sort_by_distance_stable, Hnan].
    intros d. rewrite (sort_by_distance_no_nan py dl Hnan).
    apply stable_sort_same_distance. }
  split; [exact Hres|]. split; [exact Htake|]. split.
  - rewrite <- (length_map to_code), Htake, length_take. lia.
  - intros s Hs. destruct (Hnew s Hs) as (Hfrom & Hleg & _ & Hin & Hq & _).
    split; [exact Hfrom|]. split; [exact Hleg|]. split; [|exact Hq].
    apply (Permutation_in _ (sort_by_distance_perm py dl)), Hin.
Qed.

(** The theorem at station [A] of the example, with [k = 1] and nothing
    connected yet: one edge is appended, to [C]. *)
Lemma knn_candidate_selection_witness :
  exists existing' result',
    augment_station Demo.builtins Demo.tie_stations 1 70%float (∅, []) "A"
    = Some (existing', result')
    /\ map to_code result' = ["C"]
    /\ (length result' <= 1)%nat.
Proof.
  destruct (augment_station Demo.builtins Demo.tie_stations 1 70%float (∅, []) "A")
    as [[existing' result']|] eqn:Haug; [|vm_compute in Haug; discriminate].
  exists existing', result'. split; [reflexivity|].
  assert (List.NoDup (Py.dict_keys Demo.tie_stations)) as Hkeys.
  { apply NoDup_ListNoDup. apply (bool_decide_unpack _). vm_compute. exact I. }
  destruct (knn_candidate_selection Demo.builtins Demo.tie_stations 1 70%float
              "A" (mkStation "A" "Alpha" 2 5%float (Some 0%float) (Some 0%float))
              0%float 0%float ∅ existing' [] result'
              Hkeys eq_refl eq_refl eq_refl Haug)
    as (dl & new & _ & _ & _ & _ & _ & Hres & _ & Hlen & _).
  split; [|rewrite Hres; exact Hlen].
  vm_compute in Haug. injection Haug as _ <-. reflexivity.
Defined.

(** ** The structure of the network *)

Lemma build_adjacency_from sections a : forall adj,
  default [] (fold_left add_to_adjacency sections adj !! a)
  = default [] (adj !! a)
    ++ map (fun s => (to_code s, s))
         (List.filter (fun s => String.eqb (from_code s) a) sections).
Proof.
  induction sections as [|s sections IH]; intros adj; cbn [fold_left List.filter map].
  - rewrite app_nil_r. reflexivity.
  - rewrite IH. unfold add_to_adjacency.
    destruct (String.eqb_spec (from_code s) a) as [Heq|Hne].
    + rewrite Heq, lookup_insert_eq. cbn [default map from_option id].
      rewrite <- app_assoc. reflexivity.
    + rewrite lookup_insert_ne by exact Hne. reflexivity.
Qed.

(** The neighbour list of [a]: the sections that leave [a], in order. *)
Lemma neighbors_spec sections a :
  neighbors (build_adjacency sections) a
  = map (fun s => (to_code s, s))
      (List.filter (fun s => String.eqb (from_code s) a) sections).
Proof.
  unfold neighbors, build_adjacency. rewrite build_adjacency_from.
  rewrite lookup_empty. reflexivity.
Qed.

(** The lookup of a code that no section leaves is empty. *)
Lemma neighbors_unknown sections a :
  (forall s, In s sections -> from_code s <> a) ->
  neighbors (build_adjacency sections) a = [].
Proof.
  intros Hnone. rewrite neighbors_spec.
  induction sections as [|s sections IH]; [reflexivity|]. cbn [List.filter].
  destruct (String.eqb_spec (from_code s) a) as [Heq|Hne].
  - exfalso. apply (Hnone s); [left; reflexivity|exact Heq].
  - apply IH. intros s' Hs'. apply Hnone. right. exact Hs'.
Qed.

(** The loaded sections are real, with two different non-empty codes. *)
Lemma load_real_sections_spec py fs path real :
  load_real_sections py fs path = Some real ->
  forall s, In s real ->
    leg_type s = "real" /\ from_code s <> "" /\ to_code s <> ""
    /\ from_code s <> to_code s.
Proof.
  unfold load_real_sections. destruct (fs path) as [[rows|]|];
    [|discriminate|intros [= <-] s []].
  apply (foldM_invariant
           (fun l => forall s, In s l ->
              leg_type s = "real" /\ from_code s <> "" /\ to_code s <> ""
              /\ from_code s <> to_code s)); [|intros s []].
  intros l row l' Hl. unfold load_section_row.
  set (fc := Py.strip (Py.or_str (row !! "From Station Code") "")).
  set (tc := Py.strip (Py.or_str (row !! "To Station Code") "")).
  destruct (Py.truthy_str fc && Py.truthy_str tc && negb (String.eqb fc tc)) eqn:Hok;
    intros [= <-]; [|exact Hl].
  apply andb_true_iff in Hok as [Hok Hne]. apply andb_true_iff in Hok as [Hfc Htc].
  unfold Py.truthy_str in Hfc, Htc.
  apply negb_true_iff, String.eqb_neq in Hfc, Htc, Hne.
  intros s Hs. apply in_app_iff in Hs as [Hs|[<-|[]]]; [apply Hl, Hs|].
  cbn. repeat split; assumption.
Qed.

(** C6, as stated, fails: the sections file of the example has a real section
    from [X] to [Q], and no station file has a station [Q]; the network built
    keeps the section, whose endpoint [Q] is not in the station set. *)
Lemma real_section_endpoint_not_a_station :
  (build_network Demo.builtins Demo.files Demo.inputs
     ≫= fun net => Some (Py.dict_keys net.1, map directed_pair net.2))
  = Some (["X"], [("X", "Q")])
  /\ (build_network Demo.builtins Demo.files Demo.inputs
        ≫= fun net => Some (Py.dict_mem net.1 "Q"))
     = Some false.
Proof. vm_compute. split; reflexivity. Qed.

(** C6, amended. For every network built by the pipeline, the sections are
    the loaded real sections followed by the inferred ones; the from and to
    endpoints of every inferred section exist in the station set; and an
    adjacency lookup for a code that is the [from_code] of no section yields
    the empty neighbour list. *)
Theorem network_structure (py : Py.Builtins) (fs : FileSystem) (inp : Inputs)
    (stations : Py.dict Station) (sections : list TrackSection) :
  build_network py fs inp = Some (stations, sections) ->
  exists real added,
    load_real_sections py fs (sih_sections_csv inp) = Some real
    /\ sections = real ++ added
    /\ (forall s, In s real -> leg_type s = "real")
    /\ (forall s, In s added ->
          leg_type s = "inferred"
          /\ In (from_code s) (Py.dict_keys stations)
          /\ In (to_code s) (Py.dict_keys stations))
    /\ (forall a, (forall s, In s sections -> from_code s <> a) ->
          neighbors (build_adjacency sections) a = []).
Proof.
  unfold build_network.
  destruct (merge_stations py fs _ _) as [merged|]; [|discriminate].
  cbn [mbind option_bind].
  destruct (load_real_sections py fs _) as [real|] eqn:Hreal; [|discriminate].
  cbn [mbind option_bind].
  destruct (augment_sections_with_knn py merged real 3 70%float) as [aug|] eqn:Haug;
    [|discriminate].
  cbn [mbind option_bind]. intros [= <- <-].
  apply augment_sections_with_knn_spec in Haug as (added & -> & Hadded & _ & _).
  exists real, added. split; [reflexivity|]. split; [reflexivity|].
  split; [intros s Hs; apply (load_real_sections_spec _ _ _ _ Hreal s Hs)|].
  split; [exact Hadded|]. intros a. apply neighbors_unknown.
Qed.

(** The theorem at the network of the example files: the code [Q], which no
    section leaves, has no neighbour. *)
Lemma network_structure_witness :
  exists stations sections,
    build_network Demo.builtins Demo.files Demo.inputs = Some (stations, sections)
    /\ map directed_pair sections = [("X", "Q")]
    /\ neighbors (build_adjacency sections) "Q" = [].
Proof.
  destruct (build_network Demo.builtins Demo.files Demo.inputs)
    as [[stations sections]|] eqn:Hnet; [|vm_compute in Hnet; discriminate].
  exists stations, sections. split; [reflexivity|].
  destruct (network_structure _ _ _ _ _ Hnet) as (real & added & _ & _ & _ & _ & Hadj).
  vm_compute in Hnet. injection Hnet as _ <-. split; [reflexivity|].
  apply Hadj. intros s [<-|[]]. discriminate.
Defined.

(** ** The overlap test *)

Section Overlap.

Lemma not_nan_spec x : PrimFloat.is_nan x = false -> Prim2SF x <> S754_nan.
Proof.
  unfold PrimFloat.is_nan. rewrite FloatAxioms.eqb_spec. intros H Hnan.
  rewrite Hnan in H. discriminate.
Qed.

(** For numbers, [not (y < x)] and [y < z] give [x < z]. *)
Lemma ltb_le_lt_trans x y z :
  PrimFloat.is_nan x = false -> PrimFloat.is_nan y = false ->
  PrimFloat.ltb y x = false -> PrimFloat.ltb y z = true ->
  PrimFloat.ltb x z = true.
Proof.
  rewrite !ltb_spec. intros Hx Hy.
  apply SFltb_le_lt_trans; apply not_nan_spec; assumption.
Qed.

(** For numbers, [x < y] and [not (z < y)] give [x < z]. *)
Lemma ltb_lt_le_trans x y z :
  PrimFloat.is_nan y = false -> PrimFloat.is_nan z = false ->
  PrimFloat.ltb x y = true -> PrimFloat.ltb z y = false ->
  PrimFloat.ltb x z = true.
Proof.
  rewrite !ltb_spec. intros Hy Hz.
  apply SFltb_lt_le_trans; apply not_nan_spec; assumption.
Qed.

(** Two intervals that touch at one instant do not overlap. *)
Lemma overlap_touching sa ea sb eb :
  ea = sb \/ eb = sa -> overlap sa ea sb eb = false.
Proof.
  unfold overlap, Py.max, Py.min. intros [->| ->].
  - destruct (PrimFloat.ltb sa sb) eqn:H1, (PrimFloat.ltb eb sb) eqn:H2.
    + apply ltb_asym, H2.
    + apply ltb_irrefl.
    + destruct (PrimFloat.ltb sa eb) eqn:H3; [|reflexivity].
      rewrite (ltb_trans _ _ _ H3 H2) in H1. discriminate.
    + exact H1.
  - destruct (PrimFloat.ltb sa sb) eqn:H1, (PrimFloat.ltb sa ea) eqn:H2.
    + apply ltb_asym, H1.
    + destruct (PrimFloat.ltb sb ea) eqn:H3; [|reflexivity].
      rewrite (ltb_trans _ _ _ H1 H3) in H2. discriminate.
    + apply ltb_irrefl.
    + exact H2.
Qed.

(** An overlap puts each start strictly before each end. *)
Lemma overlap_bounds sa ea sb eb :
  PrimFloat.is_nan sa = false -> PrimFloat.is_nan ea = false ->
  PrimFloat.is_nan sb = false -> PrimFloat.is_nan eb = false ->
  overlap sa ea sb eb = true ->
  PrimFloat.ltb sa ea = true /\ PrimFloat.ltb sa eb = true
  /\ PrimFloat.ltb sb ea = true /\ PrimFloat.ltb sb eb = true.
Proof.
  intros Nsa Nea Nsb Neb. unfold overlap, Py.max, Py.min.
  destruct (PrimFloat.ltb sa sb) eqn:H1, (PrimFloat.ltb eb ea) eqn:H2; intros H.
  - assert (PrimFloat.ltb sa eb = true) by exact (ltb_trans _ _ _ H1 H).
    assert (PrimFloat.ltb sb ea = true) by exact (ltb_trans _ _ _ H H2).
    repeat split; eauto using ltb_trans.
  - assert (PrimFloat.ltb sa ea = true) by exact (ltb_trans _ _ _ H1 H).
    assert (PrimFloat.ltb sb eb = true)
      by exact (ltb_lt_le_trans _ _ _ Nea Neb H H2).
    repeat split; eauto using ltb_trans.
  - assert (PrimFloat.ltb sa ea = true) by exact (ltb_trans _ _ _ H H2).
    assert (PrimFloat.ltb sb eb = true)
      by exact (ltb_le_lt_trans _ _ _ Nsb Nsa H1 H).
    repeat split; eauto using ltb_trans.
  - assert (PrimFloat.ltb sa eb = true)
      by exact (ltb_lt_le_trans _ _ _ Nea Neb H H2).
    assert (PrimFloat.ltb sb ea = true)
      by exact (ltb_le_lt_trans _ _ _ Nsb Nsa H1 H).
    repeat split; eauto using ltb_lt_le_trans, ltb_le_lt_trans.
Qed.

(** Each start strictly before each end gives an overlap. *)
Lemma bounds_overlap sa ea sb eb :
  PrimFloat.ltb sa ea = true -> PrimFloat.ltb sa eb = true ->
  PrimFloat.ltb sb ea = true -> PrimFloat.ltb sb eb = true ->
  overlap sa ea sb eb = true.
Proof.
  intros H1 H2 H3 H4. unfold overlap, Py.max, Py.min.
  destruct (PrimFloat.ltb sa sb), (PrimFloat.ltb eb ea); assumption.
Qed.

(** For times that are numbers the test does not depend on the order of the
    two occupancies. *)
Lemma overlap_sym sa ea sb eb :
  PrimFloat.is_nan sa = false -> PrimFloat.is_nan ea = false ->
  PrimFloat.is_nan sb = false -> PrimFloat.is_nan eb = false ->
  overlap sa ea sb eb = true -> overlap sb eb sa ea = true.
Proof.
  intros Nsa Nea Nsb Neb H.
  apply overlap_bounds in H as (H1 & H2 & H3 & H4); try assumption.
  apply bounds_overlap; assumption.
Qed.

End Overlap.

(** ** The one result of a stable sort *)

Section StableSortUnique.

Lemma not_ltb_trans x y z :
  PrimFloat.is_nan x = false -> PrimFloat.is_nan y = false ->
  PrimFloat.is_nan z = false ->
  PrimFloat.ltb y x = false -> PrimFloat.ltb z y = false ->
  PrimFloat.ltb z x = false.
Proof.
  rewrite !ltb_spec. intros Hx Hy Hz.
  apply SFnot_ltb_trans; apply not_nan_spec; assumption.
Qed.

Lemma float_eqb_of_not_ltb x y :
  PrimFloat.is_nan x = false -> PrimFloat.is_nan y = false ->
  PrimFloat.ltb x y = false -> PrimFloat.ltb y x = false ->
  PrimFloat.eqb x y = true.
Proof.
  rewrite !ltb_spec, FloatAxioms.eqb_spec. intros Hx Hy.
  apply SFeqb_of_not_ltb; apply not_nan_spec; assumption.
Qed.

Lemma float_eqb_refl x : PrimFloat.is_nan x = false -> PrimFloat.eqb x x = true.
Proof.
  intros Hx. rewrite FloatAxioms.eqb_spec. apply SFeqb_refl, not_nan_spec, Hx.
Qed.

Lemma no_nan_In l :
  no_nan l = true <-> forall x, In x l -> PrimFloat.is_nan (fst x) = false.
Proof.
  unfold no_nan. rewrite forallb_forall. split; intros H x Hx.
  - apply negb_true_iff, H, Hx.
  - apply negb_true_iff, H, Hx.
Qed.

(** In a sorted list without a NaN the head is not farther than any other
    element. *)
Lemma sorted_head_nearest t : forall x,
  no_nan (x :: t) = true -> Sorted not_farther (x :: t) ->
  forall z, In z t -> not_farther x z.
Proof.
  induction t as [|y t IH]; intros x Hnan Hs z Hz; [destruct Hz|].
  apply Sorted_inv in Hs as [Hs Hhd]. apply HdRel_inv in Hhd.
  destruct Hz as [<-|Hz]; [exact Hhd|].
  pose proof (proj1 (no_nan_In _) Hnan) as Hall.
  assert (no_nan (y :: t) = true) as Hnan'
    by (apply no_nan_In; intros w Hw; apply Hall; right; exact Hw).
  specialize (IH y Hnan' Hs z Hz). unfold not_farther in *.
  apply (not_ltb_trans (fst x) (fst y) (fst z)); try assumption.
  - apply Hall. left. reflexivity.
  - apply Hall. right. left. reflexivity.
  - apply Hall. right. right. exact Hz.
Qed.

(** Two sorted lists without a NaN that hold the same elements, in the same
    order at each distance, are one list. *)
Lemma sorted_stable_eq l1 : forall l2,
  no_nan l1 = true -> Permutation l1 l2 ->
  Sorted not_farther l1 -> Sorted not_farther l2 ->
  (forall d, same_distance d l1 = same_distance d l2) ->
  l1 = l2.
Proof.
  induction l1 as [|x t1 IH]; intros l2 Hnan Hperm Hs1 Hs2 Hstab.
  - apply Permutation_nil in Hperm. symmetry. exact Hperm.
  - destruct l2 as [|y t2];
      [apply Permutation_sym, Permutation_nil in Hperm; discriminate|].
    pose proof (proj1 (no_nan_In _) Hnan) as Hall.
    assert (no_nan (y :: t2) = true) as Hnan2.
    { apply no_nan_In. intros w Hw. apply Hall.
      apply (Permutation_in _ (Permutation_sym Hperm)), Hw. }
    pose proof (proj1 (no_nan_In _) Hnan2) as Hall2.
    assert (PrimFloat.ltb (fst y) (fst x) = false) as Hxy.
    { assert (In y (x :: t1)) as [<-|Hy]
        by (apply (Permutation_in _ (Permutation_sym Hperm)); left; reflexivity).
      - apply ltb_irrefl.
      - apply (sorted_head_nearest t1 x Hnan Hs1 y Hy). }
    assert (PrimFloat.ltb (fst x) (fst y) = false) as Hyx.
    { assert (In x (y :: t2)) as [<-|Hx]
        by (apply (Permutation_in _ Hperm); left; reflexivity).
      - apply ltb_irrefl.
      - apply (sorted_head_nearest t2 y Hnan2 Hs2 x Hx). }
    assert (PrimFloat.is_nan (fst x) = false) as Hx
      by (apply Hall; left; reflexivity).
    assert (PrimFloat.is_nan (fst y) = false) as Hy
      by (apply Hall2; left; reflexivity).
    pose proof (float_eqb_of_not_ltb _ _ Hy Hx Hxy Hyx) as Heq.
    assert (x = y) as <-.
    { specialize (Hstab (fst x)). unfold same_distance in Hstab.
      cbn [List.filter] in Hstab. rewrite (float_eqb_refl _ Hx), Heq in Hstab.
      injection Hstab as Hhead _. exact Hhead. }
    f_equal. apply IH.
    + apply no_nan_In. intros w Hw. apply Hall. right. exact Hw.
    + apply (Permutation_cons_inv Hperm).
    + apply Sorted_inv in Hs1 as [Hs1 _]. exact Hs1.
    + apply Sorted_inv in Hs2 as [Hs2 _]. exact Hs2.
    + intros d. specialize (Hstab d). unfold same_distance in *.
      cbn [List.filter] in Hstab.
      destruct (PrimFloat.eqb (fst x) d); [injection Hstab as Hstab|]; exact Hstab.
Qed.

(** Without a NaN, what a stable sort leaves is what [stable_sort] leaves:
    the one permutation of the list that is ascending by distance and keeps
    the order of the elements at each distance. *)
Lemma stable_sort_unique l l' :
  no_nan l = true -> Permutation l' l -> Sorted not_farther l' ->
  (forall d, same_distance d l' = same_distance d l) ->
  l' = stable_sort l.
Proof.
  intros Hnan Hperm Hsorted Hstab. apply sorted_stable_eq.
  - apply no_nan_In. intros x Hx. apply (proj1 (no_nan_In l) Hnan).
    apply (Permutation_in _ Hperm), Hx.
  - rewrite Hperm. symmetry. apply stable_sort_perm.
  - exact Hsorted.
  - apply stable_sort_sorted.
  - intros d. rewrite stable_sort_same_distance. apply Hstab.
Qed.

End StableSortUnique.

(** ** Conflict detection *)

Section Detection.

Lemma dict_get_of_In {V} (d : Py.dict V) k v :
  List.NoDup (Py.dict_keys d) -> In (k, v) d -> Py.dict_get d k = Some v.
Proof.
  induction d as [|[k' v'] d IH]; [intros _ []|].
  cbn [Py.dict_keys map fst Py.dict_get]. intros Hnd [[= -> ->]|Hin].
  - rewrite String.eqb_refl. reflexivity.
  - apply List.NoDup_cons_iff in Hnd as [Hfresh Hnd].
    destruct (String.eqb_spec k' k) as [->|Hne]; [|apply IH; assumption].
    exfalso. apply Hfresh. apply (in_map fst) in Hin. exact Hin.
Qed.

Lemma index_occupancy_lookup tid idx o blk :
  default [] (Py.dict_get (index_occupancy tid idx o) blk)
  = default [] (Py.dict_get idx blk)
    ++ map (fun o => (tid, start_time o, end_time o))
         (List.filter (fun o => String.eqb (block_id o) blk) [o]).
Proof.
  unfold index_occupancy. cbn [List.filter].
  destruct (String.eqb_spec (block_id o) blk) as [->|Hne].
  - rewrite dict_get_set_eq. reflexivity.
  - rewrite dict_get_set_ne by exact Hne. rewrite app_nil_r. reflexivity.
Qed.

Lemma index_occupancies_lookup tid occs blk : forall idx,
  default [] (Py.dict_get (fold_left (index_occupancy tid) occs idx) blk)
  = default [] (Py.dict_get idx blk)
    ++ map (fun o => (tid, start_time o, end_time o))
         (List.filter (fun o => String.eqb (block_id o) blk) occs).
Proof.
  induction occs as [|o occs IH]; intros idx; cbn [fold_left].
  - rewrite app_nil_r. reflexivity.
  - rewrite IH, index_occupancy_lookup. rewrite <- app_assoc, <- map_app.
    rewrite <- List.filter_app. reflexivity.
Qed.

Lemma block_index_from trains blk : forall idx,
  default []
    (Py.dict_get
       (fold_left
          (fun idx t => fold_left (index_occupancy (train_id t)) (occupancies t) idx)
          trains idx) blk)
  = default [] (Py.dict_get idx blk) ++ occupants_of trains blk.
Proof.
  induction trains as [|t trains IH]; intros idx; cbn [fold_left occupants_of flat_map].
  - rewrite app_nil_r. reflexivity.
  - rewrite IH, index_occupancies_lookup, <- app_assoc. reflexivity.
Qed.

(** The index holds, for each block, its occupants in order. *)
Lemma block_index_lookup trains blk :
  default [] (Py.dict_get (block_index trains) blk) = occupants_of trains blk.
Proof. unfold block_index. rewrite block_index_from. reflexivity. Qed.

Lemma block_index_NoDup trains : List.NoDup (Py.dict_keys (block_index trains)).
Proof.
  unfold block_index.
  assert (forall occs tid idx, List.NoDup (Py.dict_keys idx) ->
            List.NoDup (Py.dict_keys (fold_left (index_occupancy tid) occs idx)))
    as Hocc.
  { induction occs as [|o occs IH]; intros tid idx Hidx; [exact Hidx|].
    cbn [fold_left]. apply IH. apply dict_set_NoDup, Hidx. }
  assert (forall idx, List.NoDup (Py.dict_keys idx) ->
            List.NoDup
              (Py.dict_keys
                 (fold_left
                    (fun idx t =>
                       fold_left (index_occupancy (train_id t)) (occupancies t) idx)
                    trains idx))) as Htrains.
  { induction trains as [|t trains IH]; intros idx Hidx; [exact Hidx|].
    cbn [fold_left]. apply IH, Hocc, Hidx. }
  apply Htrains, List.NoDup_nil.
Qed.

Lemma occupants_of_In trains blk tid s e :
  In (tid, s, e) (occupants_of trains blk) <->
  exists t o, In t trains /\ In o (occupancies t)
              /\ train_id t = tid /\ block_id o = blk
              /\ start_time o = s /\ end_time o = e.
Proof.
  unfold occupants_of. rewrite in_flat_map. split.
  - intros (t & Ht & Hin). apply in_map_iff in Hin as (o & [= <- <- <-] & Ho).
    apply filter_In in Ho as [Ho Hb]. apply String.eqb_eq in Hb.
    exists t, o. repeat split; assumption.
  - intros (t & o & Ht & Ho & <- & <- & <- & <-). exists t. split; [exact Ht|].
    apply in_map_iff. exists o. split; [reflexivity|].
    apply filter_In. split; [exact Ho|apply String.eqb_refl].
Qed.

(** A conflict of a block comes from two of its occupants. *)
Lemma block_conflicts_sound blk occupants c :
  In c (block_conflicts blk occupants) ->
  exists a b, In a occupants /\ In b occupants /\ In c (pair_conflict blk a b).
Proof.
  induction occupants as [|x rest IH]; [intros []|].
  cbn [block_conflicts]. rewrite in_app_iff. intros [Hc|Hc].
  - unfold conflicts_with in Hc. apply in_flat_map in Hc as (y & Hy & Hc).
    exists x, y. split; [left; reflexivity|]. split; [right; exact Hy|exact Hc].
  - destruct (IH Hc) as (a & b & Ha & Hb & Hab).
    exists a, b. split; [right; exact Ha|]. split; [right; exact Hb|exact Hab].
Qed.

(** Two different occupants of a block are compared, in one order. *)
Lemma block_conflicts_complete blk occupants a b :
  In a occupants -> In b occupants -> a <> b ->
  (forall c, In c (pair_conflict blk a b) -> In c (block_conflicts blk occupants))
  \/ (forall c, In c (pair_conflict blk b a) -> In c (block_conflicts blk occupants)).
Proof.
  induction occupants as [|x rest IH]; [intros []|].
  intros Ha Hb Hne. cbn [block_conflicts].
  destruct Ha as [->|Ha], Hb as [->|Hb].
  - contradiction.
  - left. intros c Hc. apply in_app_iff. left.
    unfold conflicts_with. apply in_flat_map. exists b. split; assumption.
  - right. intros c Hc. apply in_app_iff. left.
    unfold conflicts_with. apply in_flat_map. exists a. split; assumption.
  - destruct (IH Ha Hb Hne) as [H|H]; [left|right];
      intros c Hc; apply in_app_iff; right; apply H, Hc.
Qed.

(** The conflicts detected are those of the blocks, each with its occupants. *)
Lemma detect_block_conflicts_In trains c :
  In c (detect_block_conflicts trains) <->
  exists blk, In c (block_conflicts blk (occupants_of trains blk)).
Proof.
  unfold detect_block_conflicts. rewrite in_flat_map. split.
  - intros ([blk occupants] & Hentry & Hc). exists blk.
    apply (dict_get_of_In _ _ _ (block_index_NoDup trains)) in Hentry.
    rewrite <- block_index_lookup, Hentry. exact Hc.
  - intros (blk & Hc). rewrite <- block_index_lookup in Hc.
    destruct (Py.dict_get (block_index trains) blk) as [occupants|] eqn:Hget;
      [|destruct Hc].
    exists (blk, occupants). split; [apply dict_get_Some_In, Hget|exact Hc].
Qed.

Lemma pair_conflict_In blk ida sa ea idb sb eb c :
  In c (pair_conflict blk (ida, sa, ea) (idb, sb, eb)) <->
  ida <> idb /\ overlap sa ea sb eb = true
  /\ c = (blk, ida, idb, (Py.max sa sb, Py.min ea eb)).
Proof.
  unfold pair_conflict. destruct (String.eqb_spec ida idb) as [Heq|Hne]; cbn [negb andb].
  - split; [intros []|intros (Hne & _); contradiction].
  - destruct (overlap sa ea sb eb); cbn [In].
    + split; [intros [<-|[]]; auto|intros (_ & _ & ->); left; reflexivity].
    + split; [intros []|intros (_ & Hov & _); discriminate].
Qed.

End Detection.

(** Two occupancies of one block, of trains with different ids, that overlap
    in both orders of the test are reported, in one order of the pair. *)
Lemma detection_complete trains ta tb oa ob :
  In ta trains -> In tb trains ->
  In oa (occupancies ta) -> In ob (occupancies tb) ->
  train_id ta <> train_id tb -> block_id oa = block_id ob ->
  overlap (start_time oa) (end_time oa) (start_time ob) (end_time ob) = true ->
  overlap (start_time ob) (end_time ob) (start_time oa) (end_time oa) = true ->
  In (block_id oa, train_id ta, train_id tb,
      (Py.max (start_time oa) (start_time ob), Py.min (end_time oa) (end_time ob)))
     (detect_block_conflicts trains)
  \/ In (block_id oa, train_id tb, train_id ta,
         (Py.max (start_time ob) (start_time oa), Py.min (end_time ob) (end_time oa)))
        (detect_block_conflicts trains).
Proof.
  intros Hta Htb Hoa Hob Hne Hblk Hab Hba.
  set (blk := block_id oa).
  set (a := (train_id ta, start_time oa, end_time oa) : Occupant).
  set (b := (train_id tb, start_time ob, end_time ob) : Occupant).
  assert (In a (occupants_of trains blk)) as Ha
    by (apply occupants_of_In; exists ta, oa; repeat split; assumption).
  assert (In b (occupants_of trains blk)) as Hb
    by (apply occupants_of_In; exists tb, ob; repeat split;
        try assumption; symmetry; assumption).
  assert (a <> b) as Hab' by (intros [= Hid _ _]; contradiction).
  destruct (block_conflicts_complete blk _ a b Ha Hb Hab') as [H|H];
    [left|right]; apply detect_block_conflicts_In; exists blk; apply H;
    apply pair_conflict_In; repeat split; auto.
Qed.

(** C1. A reported conflict [(blk, a, b, window)] names two trains of
    different ids, each with an occupancy of the block [blk], such that
    [max(startA, startB) < min(endA, endB)] holds strictly; its window is
    [(max(startA, startB), min(endA, endB))], and neither occupancy ends at
    the instant the other starts. Conversely, two occupancies of one block, of
    trains with different ids, whose times are numbers and satisfy the strict
    inequality, are reported, in one order of the pair. A pair of occupancies
    that touch at one instant yields no conflict, and a train is never paired
    with itself. *)
Theorem conflict_detection_criterion (trains : list SimTrain) :
  (forall blk a b w, In (blk, a, b, w) (detect_block_conflicts trains) ->
     a <> b
     /\ exists ta tb oa ob,
          In ta trains /\ In tb trains /\ train_id ta = a /\ train_id tb = b
          /\ In oa (occupancies ta) /\ In ob (occupancies tb)
          /\ block_id oa = blk /\ block_id ob = blk
          /\ PrimFloat.ltb (Py.max (start_time oa) (start_time ob))
                           (Py.min (end_time oa) (end_time ob)) = true
          /\ w = (Py.max (start_time oa) (start_time ob),
                  Py.min (end_time oa) (end_time ob))
          /\ end_time oa <> start_time ob /\ end_time ob <> start_time oa)
  /\ (forall ta tb oa ob,
        In ta trains -> In tb trains ->
        In oa (occupancies ta) -> In ob (occupancies tb) ->
        train_id ta <> train_id tb -> block_id oa = block_id ob ->
        PrimFloat.is_nan (start_time oa) = false ->
        PrimFloat.is_nan (end_time oa) = false ->
        PrimFloat.is_nan (start_time ob) = false ->
        PrimFloat.is_nan (end_time ob) = false ->
        PrimFloat.ltb (Py.max (start_time oa) (start_time ob))
                      (Py.min (end_time oa) (end_time ob)) = true ->
        In (block_id oa, train_id ta, train_id tb,
            (Py.max (start_time oa) (start_time ob),
             Py.min (end_time oa) (end_time ob)))
           (detect_block_conflicts trains)
        \/ In (block_id oa, train_id tb, train_id ta,
               (Py.max (start_time ob) (start_time oa),
                Py.min (end_time ob) (end_time oa)))
              (detect_block_conflicts trains))
  /\ (forall blk ida sa ea idb sb eb,
        ea = sb \/ eb = sa -> pair_conflict blk (ida, sa, ea) (idb, sb, eb) = [])
  /\ (forall blk id sa ea sb eb, pair_conflict blk (id, sa, ea) (id, sb, eb) = []).
Proof.
  split; [|split; [|split]].
  - intros blk a b w Hc. apply detect_block_conflicts_In in Hc as (blk' & Hc).
    apply block_conflicts_sound in Hc as ([[ida sa] ea] & [[idb sb] eb] & Ha & Hb & Hc).
    apply pair_conflict_In in Hc as (Hne & Hov & [= -> -> -> ->]).
    apply occupants_of_In in Ha as (ta & oa & Hta & Hoa & Hida & Hba & Hsa & Hea).
    apply occupants_of_In in Hb as (tb & ob & Htb & Hob & Hidb & Hbb & Hsb & Heb).
    split; [exact Hne|]. exists ta, tb, oa, ob. subst.
    repeat match goal with |- _ /\ _ => split end; try assumption; try reflexivity.
    + intros Heq. rewrite overlap_touching in Hov by (left; exact Heq). discriminate.
    + intros Heq. rewrite overlap_touching in Hov by (right; exact Heq). discriminate.
  - intros ta tb oa ob Hta Htb Hoa Hob Hne Hblk Nsa Nea Nsb Neb Hov.
    apply detection_complete; try assumption.
    apply overlap_sym; assumption.
  - intros blk ida sa ea idb sb eb Htouch. unfold pair_conflict.
    rewrite (overlap_touching _ _ _ _ Htouch), andb_false_r. reflexivity.
  - intros blk id sa ea sb eb. unfold pair_conflict.
    rewrite String.eqb_refl. reflexivity.
Qed.

(** The theorem at the three trains of the example: [A] at [0, 10) and [B] at
    [5, 15) are reported with the window [(5, 10)]; [A] and [C] at [10, 20)
    touch and are not. *)
Lemma conflict_detection_criterion_witness :
  detect_block_conflicts [Demo.train_a; Demo.train_b; Demo.train_c]
  = [("X-Y", "A", "B", (5%float, 10%float)); ("X-Y", "B", "C", (10%float, 15%float))]
  /\ (In ("X-Y", "A", "B", (5%float, 10%float))
        (detect_block_conflicts [Demo.train_a; Demo.train_b; Demo.train_c])
      \/ In ("X-Y", "B", "A", (5%float, 10%float))
           (detect_block_conflicts [Demo.train_a; Demo.train_b; Demo.train_c])).
Proof.
  split; [vm_compute; reflexivity|].
  apply (proj1 (proj2 (conflict_detection_criterion
                         [Demo.train_a; Demo.train_b; Demo.train_c]))
           Demo.train_a Demo.train_b
           (mkOcc "X-Y" 0%float 10%float) (mkOcc "X-Y" 5%float 15%float));
    try reflexivity; simpl; auto.
Defined.

(** ** Precedence *)

Section Precedence.

Lemma string_leb_swap a b : a <> b -> String.leb b a = negb (String.leb a b).
Proof.
  intros Hne. destruct (String.leb a b) eqn:Hab, (String.leb b a) eqn:Hba;
    try reflexivity.
  - exfalso. apply Hne. apply String.leb_antisym; assumption.
  - destruct (String.leb_total a b); congruence.
Qed.

Lemma beats_higher_priority a b :
  priority b < priority a -> beats a b = true /\ beats b a = false.
Proof.
  intros Hlt. unfold beats.
  destruct (Z.ltb_spec (priority b) (priority a)); [|lia].
  destruct (Z.ltb_spec (priority a) (priority b)); [lia|].
  split; reflexivity.
Qed.

Lemma beats_greater_delay a b :
  priority a = priority b ->
  PrimFloat.ltb (delay_minutes b) (delay_minutes a) = true ->
  beats a b = true /\ beats b a = false.
Proof.
  intros Heq Hlt. unfold beats. rewrite Heq, Z.ltb_irrefl, Hlt.
  rewrite (ltb_asym _ _ Hlt). split; reflexivity.
Qed.

Lemma beats_tie a b :
  priority a = priority b ->
  PrimFloat.ltb (delay_minutes a) (delay_minutes b) = false ->
  PrimFloat.ltb (delay_minutes b) (delay_minutes a) = false ->
  beats a b = String.leb (train_id a) (train_id b).
Proof.
  intros Heq Hab Hba. unfold beats. rewrite Heq, Z.ltb_irrefl, Hab, Hba.
  reflexivity.
Qed.

(** Of two trains with different ids exactly one wins. *)
Lemma beats_swap a b :
  train_id a <> train_id b -> beats b a = negb (beats a b).
Proof.
  intros Hne. unfold beats.
  destruct (Z.ltb_spec (priority b) (priority a)),
           (Z.ltb_spec (priority a) (priority b)); try lia; try reflexivity.
  destruct (PrimFloat.ltb (delay_minutes b) (delay_minutes a)) eqn:Hba,
           (PrimFloat.ltb (delay_minutes a) (delay_minutes b)) eqn:Hab;
    try reflexivity.
  - rewrite (ltb_asym _ _ Hba) in Hab. discriminate.
  - apply string_leb_swap. exact Hne.
Qed.

Context (trains_by_id : gmap string SimTrain).

(** After one pair: a train is held when it was held or loses the pair;
    a train has no verdict when it had none and is not in the pair. *)
Lemma decide_pair_lookup decisions p x :
  (decide_pair trains_by_id decisions p !! x = Some HOLD
   <-> decisions !! x = Some HOLD
       \/ exists w, outcome trains_by_id p = Some (w, x))
  /\ (decide_pair trains_by_id decisions p !! x = None
      <-> decisions !! x = None
          /\ forall w l, outcome trains_by_id p = Some (w, l) -> x <> w /\ x <> l).
Proof.
  unfold decide_pair. destruct (outcome trains_by_id p) as [[w l]|].
  - destruct (decide (l = x)) as [->|Hl].
    { rewrite lookup_insert_eq. split.
      - split; [intros _; right; exists w; reflexivity|reflexivity].
      - split; [discriminate|]. intros [_ H].
        destruct (H w x eq_refl) as [_ Hx]. contradiction. }
    rewrite lookup_insert_ne by exact Hl.
    destruct (decide (w = x)) as [->|Hw].
    { rewrite lookup_insert_eq. split.
      - destruct (decisions !! x) as [[|]|]; cbn; split;
          try (intros [H|[w' [= _ H]]]; congruence); try discriminate;
          try (intros _; left; reflexivity); reflexivity.
      - split; [discriminate|]. intros [_ H].
        destruct (H x l eq_refl) as [Hx _]. contradiction. }
    rewrite lookup_insert_ne by exact Hw. split.
    + split; [intros H; left; exact H|].
      intros [H|[w' [= _ H]]]; [exact H|contradiction].
    + split; [|intros [H _]; exact H]. intros H. split; [exact H|].
      intros w' l' [= <- <-]. split; congruence.
  - split.
    + split; [intros H; left; exact H|intros [H|[w H]]; [exact H|discriminate]].
    + split; [intros H; split; [exact H|discriminate]|intros [H _]; exact H].
Qed.

Lemma decide_fold_lookup pairs x : forall decisions,
  (fold_left (decide_pair trains_by_id) pairs decisions !! x = Some HOLD
   <-> decisions !! x = Some HOLD
       \/ exists p w, In p pairs /\ outcome trains_by_id p = Some (w, x))
  /\ (fold_left (decide_pair trains_by_id) pairs decisions !! x = None
      <-> decisions !! x = None
          /\ forall p w l, In p pairs -> outcome trains_by_id p = Some (w, l) ->
               x <> w /\ x <> l).
Proof.
  induction pairs as [|p pairs IH]; intros decisions; cbn [fold_left].
  - split.
    + split; [intros H; left; exact H|intros [H|(p & w & [] & _)]; exact H].
    + split; [intros H; split; [exact H|intros p w l []]|intros [H _]; exact H].
  - destruct (IH (decide_pair trains_by_id decisions p)) as [IHhold IHnone].
    destruct (decide_pair_lookup decisions p x) as [Hhold Hnone]. split.
    + rewrite IHhold, Hhold. split.
      * intros [[H|[w H]]|(q & w & Hq & H)]; [left; exact H| |].
        -- right. exists p, w. split; [left; reflexivity|exact H].
        -- right. exists q, w. split; [right; exact Hq|exact H].
      * intros [H|(q & w & [<-|Hq] & H)]; [left; left; exact H| |].
        -- left. right. exists w. exact H.
        -- right. exists q, w. split; assumption.
    + rewrite IHnone, Hnone. split.
      * intros [[H Hp] Hrest]. split; [exact H|].
        intros q w l [<-|Hq] Hout; [apply (Hp w l Hout)|apply (Hrest q w l Hq Hout)].
      * intros [H Hall]. split; [split; [exact H|]|].
        -- intros w l Hout. apply (Hall p w l); [left; reflexivity|exact Hout].
        -- intros q w l Hq Hout. apply (Hall q w l); [right; exact Hq|exact Hout].
Qed.

(** The decision map: held exactly when the train loses a pair, absent
    exactly when it is in no pair. *)
Lemma decide_precedence_lookup pairs x :
  (decide_precedence pairs trains_by_id !! x = Some HOLD
   <-> exists p w, In p pairs /\ outcome trains_by_id p = Some (w, x))
  /\ (decide_precedence pairs trains_by_id !! x = None
      <-> forall p w l, In p pairs -> outcome trains_by_id p = Some (w, l) ->
            x <> w /\ x <> l).
Proof.
  unfold decide_precedence. destruct (decide_fold_lookup pairs x ∅) as [Hhold Hnone].
  rewrite lookup_empty in Hhold, Hnone. split.
  - rewrite Hhold. split; [intros [H|H]; [discriminate|exact H]|intros H; right; exact H].
  - rewrite Hnone. split; [intros [_ H]; exact H|intros H; split; [reflexivity|exact H]].
Qed.

(** The decisions do not depend on the order, or on repetitions, of the
    pairs. *)
Lemma decide_precedence_same_pairs pairs pairs' :
  (forall p, In p pairs <-> In p pairs') ->
  decide_precedence pairs trains_by_id = decide_precedence pairs' trains_by_id.
Proof.
  intros Hsame. apply map_eq. intros x.
  destruct (decide_precedence_lookup pairs x) as [Hhold Hnone].
  destruct (decide_precedence_lookup pairs' x) as [Hhold' Hnone'].
  assert ((exists p w, In p pairs /\ outcome trains_by_id p = Some (w, x))
          <-> (exists p w, In p pairs' /\ outcome trains_by_id p = Some (w, x)))
    as Hh.
  { split; intros (p & w & Hp & H); exists p, w; split; try exact H;
      apply Hsame, Hp. }
  assert ((forall p w l, In p pairs -> outcome trains_by_id p = Some (w, l) ->
             x <> w /\ x <> l)
          <-> (forall p w l, In p pairs' -> outcome trains_by_id p = Some (w, l) ->
                 x <> w /\ x <> l)) as Hn.
  { split; intros H p w l Hp; apply H, Hsame, Hp. }
  destruct (decide_precedence pairs trains_by_id !! x) as [[|]|] eqn:E,
           (decide_precedence pairs' trains_by_id !! x) as [[|]|] eqn:E';
    try reflexivity; exfalso.
  - assert (Some PROCEED = Some HOLD) by (apply Hhold', Hh, Hhold; reflexivity).
    discriminate.
  - assert (@None Verdict = Some HOLD) by (apply Hhold', Hh, Hhold; reflexivity).
    discriminate.
  - assert (Some PROCEED = Some HOLD) by (apply Hhold, Hh, Hhold'; reflexivity).
    discriminate.
  - assert (Some PROCEED = None) by (apply Hnone, Hn, Hnone'; reflexivity).
    discriminate.
  - assert (@None Verdict = Some HOLD) by (apply Hhold, Hh, Hhold'; reflexivity).
    discriminate.
  - assert (Some PROCEED = None) by (apply Hnone', Hn, Hnone; reflexivity).
    discriminate.
Qed.

End Precedence.

Lemma verdict_of_HOLD decisions x :
  verdict_of decisions x = HOLD <-> decisions !! x = Some HOLD.
Proof.
  unfold verdict_of. destruct (decisions !! x) as [[|]|]; cbn;
    split; congruence.
Qed.

(** The pairs handed to the decider: one sorted pair per conflicting pair of
    train ids, each once. *)
Lemma id_pairs_elements conflicts p :
  In p (elements (id_pairs conflicts))
  <-> exists c : Conflict, In c conflicts /\ p = sorted_pair c.1.1.2 c.1.2.
Proof.
  rewrite <- list_elem_of_In, elem_of_elements. unfold id_pairs.
  rewrite elem_of_list_to_set, list_elem_of_In, in_map_iff.
  split; intros (c & H1 & H2); exists c; [split|split]; auto.
Qed.

(** C2. For a pair of trains, the one of higher priority wins; on equal
    priority the one of greater [delay_minutes] wins; on a further tie the
    lexicographically smaller [train_id] wins; of two trains with different
    ids exactly one wins. The loser of a pair is held and its winner has a
    verdict; a train is held overall exactly when it loses some pair, and
    proceeds otherwise; a train in no pair has no entry and proceeds by
    default; and the decisions do not depend on the order or repetition of
    the pairs. *)
Theorem precedence_decision_rules (pairs : list (string * string))
    (trains_by_id : gmap string SimTrain) :
  (forall a b, priority b < priority a -> beats a b = true /\ beats b a = false)
  /\ (forall a b, priority a = priority b ->
        PrimFloat.ltb (delay_minutes b) (delay_minutes a) = true ->
        beats a b = true /\ beats b a = false)
  /\ (forall a b, priority a = priority b ->
        PrimFloat.ltb (delay_minutes a) (delay_minutes b) = false ->
        PrimFloat.ltb (delay_minutes b) (delay_minutes a) = false ->
        beats a b = String.leb (train_id a) (train_id b))
  /\ (forall a b, train_id a <> train_id b -> beats b a = negb (beats a b))
  /\ (forall p a b, trains_by_id !! p.1 = Some a -> trains_by_id !! p.2 = Some b ->
        outcome trains_by_id p = Some (if beats a b then (p.1, p.2) else (p.2, p.1)))
  /\ (forall p w l, In p pairs -> outcome trains_by_id p = Some (w, l) ->
        verdict_of (decide_precedence pairs trains_by_id) l = HOLD
        /\ is_Some (decide_precedence pairs trains_by_id !! w))
  /\ (forall x, verdict_of (decide_precedence pairs trains_by_id) x = HOLD
                <-> exists p w, In p pairs /\ outcome trains_by_id p = Some (w, x))
  /\ (forall x, verdict_of (decide_precedence pairs trains_by_id) x = PROCEED
                <-> forall p w, In p pairs -> outcome trains_by_id p <> Some (w, x))
  /\ (forall x,
        (forall p w l, In p pairs -> outcome trains_by_id p = Some (w, l) ->
           x <> w /\ x <> l) ->
        decide_precedence pairs trains_by_id !! x = None
        /\ verdict_of (decide_precedence pairs trains_by_id) x = PROCEED)
  /\ (forall pairs', (forall p, In p pairs <-> In p pairs') ->
        decide_precedence pairs' trains_by_id = decide_precedence pairs trains_by_id).
Proof.
  assert (forall x, verdict_of (decide_precedence pairs trains_by_id) x = HOLD
                    <-> exists p w, In p pairs /\ outcome trains_by_id p = Some (w, x))
    as Hhold.
  { intros x. rewrite verdict_of_HOLD.
    apply (proj1 (decide_precedence_lookup trains_by_id pairs x)). }
  split; [apply beats_higher_priority|]. split; [apply beats_greater_delay|].
  split; [apply beats_tie|]. split; [apply beats_swap|].
  split; [intros p a b Ha Hb; unfold outcome; rewrite Ha, Hb; reflexivity|].
  split; [|split; [exact Hhold|split; [|split]]].
  - intros p w l Hp Hout. split; [apply Hhold; exists p, w; split; assumption|].
    destruct (decide_precedence pairs trains_by_id !! w) eqn:E; [eexists; reflexivity|].
    pose proof (proj1 (proj2 (decide_precedence_lookup trains_by_id pairs w)) E)
      as Hnone.
    destruct (Hnone p w l Hp Hout) as [Hw _]. contradiction.
  - intros x. split.
    + intros Hpro p w Hp Hout.
      assert (verdict_of (decide_precedence pairs trains_by_id) x = HOLD) as H
        by (apply Hhold; exists p, w; split; assumption).
      rewrite Hpro in H. discriminate.
    + intros Hnone.
      destruct (verdict_of (decide_precedence pairs trains_by_id) x) eqn:E;
        [|reflexivity].
      apply Hhold in E as (p & w & Hp & Hout). destruct (Hnone p w Hp Hout).
  - intros x Hnone.
    assert (decide_precedence pairs trains_by_id !! x = None) as E
      by (apply (proj2 (decide_precedence_lookup trains_by_id pairs x)); exact Hnone).
    split; [exact E|]. unfold verdict_of. rewrite E. reflexivity.
  - intros pairs' Hsame. apply decide_precedence_same_pairs.
    intros p. symmetry. apply Hsame.
Qed.

(** The theorem at the trains [A] (priority 5), [B] (priority 1) and [C]
    (priority 3) of the example, with the pairs [A-B] and [B-C] that their
    conflicts give: [B] loses against [A] and is held. *)
Lemma precedence_decision_rules_witness :
  elements (id_pairs (detect_block_conflicts
                        [Demo.train_a; Demo.train_b; Demo.train_c]))
  = [("A", "B"); ("B", "C")]
  /\ outcome (trains_by_id [Demo.train_a; Demo.train_b; Demo.train_c]) ("A", "B")
     = Some ("A", "B")
  /\ verdict_of
       (decide_precedence [("A", "B"); ("B", "C")]
          (trains_by_id [Demo.train_a; Demo.train_b; Demo.train_c])) "B"
     = HOLD.
Proof.
  split; [vm_compute; reflexivity|]. split; [vm_compute; reflexivity|].
  apply (proj1 (proj2 (proj2 (proj2 (proj2 (proj2
           (precedence_decision_rules [("A", "B"); ("B", "C")]
              (trains_by_id [Demo.train_a; Demo.train_b; Demo.train_c])))))))
           ("A", "B") "A" "B").
  - left. reflexivity.
  - vm_compute. reflexivity.
Defined.

(** On the trains that [analyze_scenario] builds, whose delays are all
    [0.0], a tie on priority is settled by the train ids alone. *)
Lemma equal_priority_falls_to_train_id augmented_sections trains a b :
  In a (built_trains (analyze_network augmented_sections trains)) ->
  In b (built_trains (analyze_network augmented_sections trains)) ->
  priority a = priority b ->
  beats a b = String.leb (train_id a) (train_id b).
Proof.
  unfold analyze_network. cbn [built_trains]. intros Ha Hb Heq.
  apply build_trains_In in Ha as (_ & _ & _ & _ & _ & _ & _ & Ha).
  apply build_trains_In in Hb as (_ & _ & _ & _ & _ & _ & _ & Hb).
  apply beats_tie; [exact Heq| |]; rewrite Ha, Hb; reflexivity.
Qed.

(** ** The travel-time map *)

Lemma edge_tt_from sections u v t : forall st,
  (fold_left add_named_edge sections st).2 !! (u, v) = Some t ->
  st.2 !! (u, v) = Some t
  \/ exists sec, In sec sections /\ from_name sec = u /\ to_name sec = v
                 /\ t = Py.max 1%float (travel_min sec).
Proof.
  induction sections as [|sec sections IH]; intros st; cbn [fold_left];
    [intros H; left; exact H|].
  intros H. destruct (IH _ H) as [Hst|(sec' & Hin & Hsec')].
  - unfold add_named_edge in Hst.
    destruct (negb (Py.truthy_str (from_name sec))
              || negb (Py.truthy_str (to_name sec))); [left; exact Hst|].
    cbn [snd] in Hst.
    destruct (decide ((from_name sec, to_name sec) = (u, v))) as [Heq|Hne].
    + rewrite Heq, lookup_insert_eq in Hst. injection Hst as <-.
      injection Heq as Hu Hv. right. exists sec.
      split; [left; reflexivity|]. repeat split; assumption.
    + rewrite lookup_insert_ne in Hst by exact Hne. left. exact Hst.
  - right. exists sec'. split; [right; exact Hin|exact Hsec'].
Qed.

(** A travel time of [edge_tt] is that of a named section from [u] to [v],
    raised to one minute when it is less. *)
Lemma edge_tt_value augmented_sections u v t :
  (name_network augmented_sections).2 !! (u, v) = Some t ->
  exists sec, In sec augmented_sections
              /\ from_name sec = u /\ to_name sec = v
              /\ t = Py.max 1%float (travel_min sec).
Proof.
  unfold name_network. intros H.
  destruct (edge_tt_from _ _ _ _ _ H) as [Hempty|Hsec]; [|exact Hsec].
  cbn [snd] in Hempty. rewrite lookup_empty in Hempty. discriminate.
Qed.

(** ** The pipeline on the examples *)

Example route_on_line :
  shortest_path (name_network Demo.line_sections).1 "A" "C" = ["A"; "B"; "C"].
Proof. vm_compute. reflexivity. Qed.

Example occupancies_on_line :
  map occupancies
    (built_trains (analyze_network Demo.line_sections [Demo.through_train]))
  = [[mkOcc "A-B" 0%float 7%float; mkOcc "B-C" 7%float 16%float]].
Proof. vm_compute. reflexivity. Qed.

(** Priority 5 at [0, 10) against priority 1 at [5, 15) on one block: one
    conflict with the window [(5, 10)]; the first proceeds, the second is
    held. *)
Example two_trains_one_block :
  detect_block_conflicts [Demo.train_a; Demo.train_b]
  = [("X-Y", "A", "B", (5%float, 10%float))]
  /\ decisions_of [Demo.train_a; Demo.train_b] !! "A" = Some PROCEED
  /\ decisions_of [Demo.train_a; Demo.train_b] !! "B" = Some HOLD
  /\ size (decisions_of [Demo.train_a; Demo.train_b]) = 2%nat.
Proof. vm_compute. repeat split; reflexivity. Qed.

(** Three trains that overlap pairwise on one block, with priorities 5, 3
    and 1: the first proceeds, the others are held. *)
Example three_trains_one_block :
  map (fun c : Conflict => (c.1.1.2, c.1.2))
    (detect_block_conflicts [Demo.train_a; Demo.train_d; Demo.train_b])
  = [("A", "D"); ("A", "B"); ("D", "B")]
  /\ decisions_of [Demo.train_a; Demo.train_d; Demo.train_b] !! "A" = Some PROCEED
  /\ decisions_of [Demo.train_a; Demo.train_d; Demo.train_b] !! "D" = Some HOLD
  /\ decisions_of [Demo.train_a; Demo.train_d; Demo.train_b] !! "B" = Some HOLD.
Proof. vm_compute. repeat split; reflexivity. Qed.

(** ** Route search: what [shortest_path] returns *)

Section RouteValidity.

Context (name_graph : gmap string (list string)) (start : string).

Lemma is_walk_snoc path node nb :
  is_walk name_graph path -> last path = Some node ->
  In nb (named_neighbors name_graph node) ->
  is_walk name_graph (path ++ [nb]).
Proof.
  induction path as [|u [|v rest] IH]; [discriminate| |].
  - cbn. intros _ [= ->] Hnb. split; [exact Hnb|exact I].
  - intros [Huv Hrest] Hlast Hnb. cbn [app is_walk]. split; [exact Huv|].
    apply IH; assumption.
Qed.

Lemma queue_entry_ok_mono seen seen' e :
  (forall x, x ∈ seen -> x ∈ seen') ->
  queue_entry_ok name_graph start seen e -> queue_entry_ok name_graph start seen' e.
Proof.
  intros Hsub (Hwalk & Hnd & Hin). split; [exact Hwalk|]. split; [exact Hnd|].
  intros x Hx. apply Hsub, Hin, Hx.
Qed.

Lemma visit_entry_ok node path seen q nb :
  queue_entry_ok name_graph start seen (node, path) ->
  Forall (queue_entry_ok name_graph start seen) q ->
  In nb (named_neighbors name_graph node) ->
  (forall x, x ∈ seen -> x ∈ (visit path (seen, q) nb).1)
  /\ Forall (queue_entry_ok name_graph start (visit path (seen, q) nb).1)
       (visit path (seen, q) nb).2.
Proof.
  intros ((Hhead & Hlast & Hwalk) & Hnd & Hin) Hq Hnb. unfold visit. cbn [fst snd] in *.
  destruct (decide (nb ∈ seen)) as [Hseen|Hnew]; cbn [fst snd]; [split; auto|].
  assert (forall x, x ∈ seen -> x ∈ {[nb]} ∪ seen) as Hsub
    by (intros x Hx; apply elem_of_union_r, Hx).
  split; [exact Hsub|]. apply Forall_app. split.
  - eapply Forall_impl; [exact Hq|]. intros e. apply queue_entry_ok_mono, Hsub.
  - apply Forall_cons. split; [|constructor]. split; [|split]; cbn [fst snd].
    + split; [|split].
      * destruct path; [discriminate|exact Hhead].
      * apply last_snoc.
      * apply (is_walk_snoc path node nb); assumption.
    + apply NoDup_ListNoDup, NoDup_app.
      split; [apply NoDup_ListNoDup, Hnd|]. split; [|apply NoDup_singleton].
      intros x Hx Hx'. apply list_elem_of_singleton in Hx'. subst x.
      apply Hnew, Hin, list_elem_of_In, Hx.
    + intros x Hx. apply in_app_iff in Hx as [Hx|[<-|[]]].
      * apply Hsub, Hin, Hx.
      * apply elem_of_union_l, elem_of_singleton. reflexivity.
Qed.

Lemma visit_fold_entry_ok node path nbs : forall seen q,
  queue_entry_ok name_graph start seen (node, path) ->
  Forall (queue_entry_ok name_graph start seen) q ->
  (forall nb, In nb nbs -> In nb (named_neighbors name_graph node)) ->
  Forall (queue_entry_ok name_graph start (fold_left (visit path) nbs (seen, q)).1)
    (fold_left (visit path) nbs (seen, q)).2.
Proof.
  induction nbs as [|nb nbs IH]; intros seen q He Hq Hnbs; [exact Hq|].
  cbn [fold_left].
  destruct (visit_entry_ok node path seen q nb He Hq (Hnbs nb (or_introl eq_refl)))
    as [Hsub Hq'].
  destruct (visit path (seen, q) nb) as [seen' q'] eqn:Hv. cbn [fst snd] in *.
  apply IH; [|exact Hq'|intros nb' Hnb'; apply Hnbs; right; exact Hnb'].
  eapply queue_entry_ok_mono; [exact Hsub|exact He].
Qed.

Lemma bfs_entry_ok fuel end_ : forall q seen route,
  Forall (queue_entry_ok name_graph start seen) q ->
  bfs fuel name_graph end_ q seen = Some route ->
  route = [] \/ (walk_between name_graph start end_ route /\ List.NoDup route).
Proof.
  induction fuel as [|fuel IH]; intros q seen route Hq; [discriminate|].
  destruct q as [|[node path] q']; cbn [bfs]; [intros [= <-]; left; reflexivity|].
  apply Forall_cons in Hq as [He Hq'].
  destruct (String.eqb_spec node end_) as [->|Hne].
  - intros [= <-]. right. destruct He as (Hwalk & Hnd & _). split; assumption.
  - apply IH. apply (visit_fold_entry_ok node path); [exact He|exact Hq'|].
    intros nb Hnb. exact Hnb.
Qed.

End RouteValidity.

Lemma shortest_path_walk (name_graph : gmap string (list string))
    (start end_ : string) :
  shortest_path name_graph start end_ = []
  \/ (walk_between name_graph start end_ (shortest_path name_graph start end_)
      /\ List.NoDup (shortest_path name_graph start end_)).
Proof.
  destruct (shortest_path_returns name_graph start end_) as [[_ H]|[_ H]];
    [left; exact H|].
  apply (bfs_entry_ok name_graph start _ end_ _ _ _) in H; [exact H|].
  apply Forall_cons. split; [|constructor].
  split; [|split]; cbn [fst snd].
  - split; [reflexivity|]. split; [reflexivity|exact I].
  - apply List.NoDup_cons; [intros []|apply List.NoDup_nil].
  - intros x [<-|[]]. apply elem_of_singleton. reflexivity.
Qed.

Section RouteCompleteness.

Context (name_graph : gmap string (list string)) (end_ : string).

Lemma visit_seen path seen q nb :
  (forall x, x ∈ seen -> x ∈ (visit path (seen, q) nb).1)
  /\ nb ∈ (visit path (seen, q) nb).1
  /\ (forall x, x ∈ (visit path (seen, q) nb).1 ->
        (x ∈ seen) \/ In x (map fst (visit path (seen, q) nb).2))
  /\ (forall x, In x (map fst q) -> In x (map fst (visit path (seen, q) nb).2)).
Proof.
  unfold visit. cbn [fst snd].
  destruct (decide (nb ∈ seen)) as [Hseen|Hnew]; cbn [fst snd].
  - repeat split; auto.
  - split; [intros x Hx; apply elem_of_union_r, Hx|].
    split; [apply elem_of_union_l, elem_of_singleton; reflexivity|].
    split.
    + intros x Hx. apply elem_of_union in Hx as [Hx|Hx]; [|left; exact Hx].
      apply elem_of_singleton in Hx. subst x. right.
      rewrite map_app, in_app_iff. right. left. reflexivity.
    + intros x Hx. rewrite map_app, in_app_iff. left. exact Hx.
Qed.

Lemma visit_fold_seen path nbs : forall seen q,
  (forall x, x ∈ seen -> x ∈ (fold_left (visit path) nbs (seen, q)).1)
  /\ (forall nb, In nb nbs -> nb ∈ (fold_left (visit path) nbs (seen, q)).1)
  /\ (forall x, x ∈ (fold_left (visit path) nbs (seen, q)).1 ->
        (x ∈ seen) \/ In x (map fst (fold_left (visit path) nbs (seen, q)).2))
  /\ (forall x, In x (map fst q) ->
        In x (map fst (fold_left (visit path) nbs (seen, q)).2)).
Proof.
  induction nbs as [|nb nbs IH]; intros seen q; cbn [fold_left].
  - cbn [fst snd]. repeat split; auto. intros nb [].
  - destruct (visit_seen path seen q nb) as (H1 & H2 & H3 & H4).
    destruct (visit path (seen, q) nb) as [seen' q'] eqn:Hv. cbn [fst snd] in *.
    destruct (IH seen' q') as (I1 & I2 & I3 & I4).
    split; [intros x Hx; apply I1, H1, Hx|].
    split; [intros nb' [<-|Hnb']; [apply I1, H2|apply I2, Hnb']|].
    split; [|intros x Hx; apply I4, H4, Hx].
    intros x Hx. destruct (I3 x Hx) as [Hx'|Hx']; [|right; exact Hx'].
    destruct (H3 x Hx') as [Hs|Hq]; [left; exact Hs|right; apply I4, Hq].
Qed.

(** When the loop ends with an empty queue, the names seen are closed under
    the neighbour relation and [end_] is not among them. *)
Lemma bfs_exhausted start fuel : forall q seen,
  Forall (queue_entry_ok name_graph start seen) q ->
  seen_closed name_graph end_ q seen ->
  bfs fuel name_graph end_ q seen = Some [] ->
  exists closed : gset string,
    (forall x, x ∈ seen -> x ∈ closed)
    /\ (forall x, x ∈ closed ->
          x <> end_
          /\ forall nb, In nb (named_neighbors name_graph x) -> nb ∈ closed).
Proof.
  induction fuel as [|fuel IH]; intros q seen Hq Hclosed; [discriminate|].
  destruct q as [|[node path] q']; cbn [bfs].
  - intros _. exists seen. split; [auto|]. intros x Hx.
    destruct (Hclosed x Hx) as [[]|H]. exact H.
  - pose proof Hq as Hq0. apply Forall_cons in Hq as [He Hq'].
    destruct (String.eqb_spec node end_) as [->|Hne].
    + intros [= ->]. destruct He as ((Hhead & _) & _). discriminate.
    + intros Hbfs.
      destruct (visit_fold_seen path (default [] (name_graph !! node)) seen q')
        as (H1 & H2 & H3 & H4).
      apply IH in Hbfs.
      * destruct Hbfs as (closed & Hsub & Hcl). exists closed.
        split; [intros x Hx; apply Hsub, H1, Hx|exact Hcl].
      * apply (visit_fold_entry_ok name_graph start node path);
          [exact He|exact Hq'|intros nb Hnb; exact Hnb].
      * intros x Hx. destruct (H3 x Hx) as [Hs|Hnew]; [|left; exact Hnew].
        destruct (Hclosed x Hs) as [[<-|Hin]|[Hxe Hnbs]].
        -- right. split; [exact Hne|]. intros nb Hnb. apply H2, Hnb.
        -- left. apply H4, Hin.
        -- right. split; [exact Hxe|]. intros nb Hnb. apply H1, Hnbs, Hnb.
Qed.

Lemma walk_stays_closed (closed : gset string) path :
  (forall x, x ∈ closed ->
     forall nb, In nb (named_neighbors name_graph x) -> nb ∈ closed) ->
  is_walk name_graph path ->
  (forall x, head path = Some x -> x ∈ closed) ->
  forall x, In x path -> x ∈ closed.
Proof.
  intros Hcl. induction path as [|u [|v rest] IH]; [intros _ _ x []| |].
  - intros _ Hhead x [<-|[]]. apply Hhead. reflexivity.
  - intros [Huv Hrest] Hhead x [<-|Hx]; [apply Hhead; reflexivity|].
    apply IH; [exact Hrest| |exact Hx].
    intros y [= <-]. apply (Hcl u); [apply Hhead; reflexivity|exact Huv].
Qed.

End RouteCompleteness.

Lemma shortest_path_nonempty_iff (name_graph : gmap string (list string))
    (start end_ : string) :
  shortest_path name_graph start end_ <> []
  <-> is_Some (name_graph !! start)
      /\ exists path, walk_between name_graph start end_ path.
Proof.
  split.
  - intros Hroute.
    destruct (shortest_path_returns name_graph start end_) as [[_ H]|[Hkey _]];
      [contradiction|].
    split; [exact Hkey|].
    destruct (shortest_path_walk name_graph start end_) as [H|[H _]];
      [contradiction|].
    eexists. exact H.
  - intros [Hkey (path & Hhead & Hlast & Hwalk)] Hempty.
    destruct (shortest_path_returns name_graph start end_) as [[Hnone _]|[_ H]].
    + rewrite Hnone in Hkey. destruct Hkey as [? [=]].
    + rewrite Hempty in H.
      apply (bfs_exhausted name_graph end_ start) in H.
      * destruct H as (closed & Hsub & Hcl).
        assert (end_ ∈ closed) as Hend.
        { apply (walk_stays_closed name_graph closed path).
          - intros x Hx. apply (Hcl x Hx).
          - exact Hwalk.
          - intros x Hx. rewrite Hhead in Hx. injection Hx as <-.
            apply Hsub, elem_of_singleton. reflexivity.
          - destruct path as [|p0 path'] using rev_ind; [discriminate|].
            rewrite last_snoc in Hlast. injection Hlast as ->.
            apply in_app_iff. right. left. reflexivity. }
        destruct (Hcl end_ Hend) as [Hne _]. contradiction.
      * apply Forall_cons. split; [|constructor].
        split; [|split]; cbn [fst snd].
        -- split; [reflexivity|]. split; [reflexivity|exact I].
        -- apply List.NoDup_cons; [intros []|apply List.NoDup_nil].
        -- intros x [<-|[]]. apply elem_of_singleton. reflexivity.
      * intros x Hx. apply elem_of_singleton in Hx. subst x. left. left. reflexivity.
Qed.

(** ** Route search: no walk is shorter *)

Section RouteShortest.

Context (name_graph : gmap string (list string)) (start end_ : string).

Lemma is_walk_unsnoc w y x :
  last w = Some y -> is_walk name_graph (w ++ [x]) ->
  is_walk name_graph w /\ In x (named_neighbors name_graph y).
Proof.
  induction w as [|u [|v rest] IH]; [discriminate| |].
  - intros [= ->] [Hx _]. split; [exact I|exact Hx].
  - intros Hlast [Huv Hrest]. destruct (IH Hlast Hrest) as [Hw Hx].
    split; [split; assumption|exact Hx].
Qed.

Lemma walk_between_unsnoc x w :
  walk_between name_graph start x w ->
  w = [start]
  \/ exists w' y, w = w' ++ [x] /\ walk_between name_graph start y w'
                  /\ In x (named_neighbors name_graph y).
Proof.
  intros (Hhead & Hlast & Hwalk).
  destruct w as [|z w' _] using rev_ind; [discriminate|].
  rewrite last_snoc in Hlast. injection Hlast as ->.
  destruct w' as [|u w'']; [left; injection Hhead as ->; reflexivity|].
  right. destruct (last (u :: w'')) as [y|] eqn:Hy.
  - destruct (is_walk_unsnoc _ y x Hy Hwalk) as [Hw Hx].
    exists (u :: w''), y. split; [reflexivity|]. split; [|exact Hx].
    split; [exact Hhead|]. split; [exact Hy|exact Hw].
  - apply last_None in Hy. discriminate.
Qed.

Lemma visit_fold_news path nbs : forall seen q,
  exists news,
    (fold_left (visit path) nbs (seen, q)).2 = q ++ news
    /\ Forall (fun e => e.2 = path ++ [e.1] /\ (e.1 ∉ seen) /\ In e.1 nbs) news.
Proof.
  induction nbs as [|nb nbs IH]; intros seen q; cbn [fold_left].
  - exists []. rewrite app_nil_r. split; [reflexivity|constructor].
  - unfold visit at 2. cbn [fst snd].
    destruct (decide (nb ∈ seen)) as [Hseen|Hnew].
    + destruct (IH seen q) as (news & Heq & Hnews). exists news.
      split; [exact Heq|]. eapply Forall_impl; [exact Hnews|].
      intros e (H1 & H2 & H3). split; [exact H1|]. split; [exact H2|].
      right. exact H3.
    + destruct (IH ({[nb]} ∪ seen) (q ++ [(nb, path ++ [nb])]))
        as (news & Heq & Hnews).
      exists ((nb, path ++ [nb]) :: news). rewrite Heq, <- app_assoc.
      split; [reflexivity|]. apply Forall_cons. split.
      * cbn [fst snd]. split; [reflexivity|]. split; [exact Hnew|].
        left. reflexivity.
      * eapply Forall_impl; [exact Hnews|].
        intros e (H1 & H2 & H3). split; [exact H1|]. split.
        -- intros Hin. apply H2, elem_of_union_r, Hin.
        -- right. exact H3.
Qed.

(** When the paths of [L] names are used up, every name that a walk of
    [L + 1] names reaches has been seen. *)
Lemma bfs_level_next L q2 seen :
  bfs_level_inv name_graph start end_ L [] q2 seen ->
  bfs_level_inv name_graph start end_ (S L) q2 [] seen.
Proof.
  intros (HL1 & _ & H2 & Hq & Hclosed & Hseen). cbn [app] in *.
  split; [lia|]. split; [exact H2|]. split; [constructor|]. rewrite app_nil_r.
  split; [exact Hq|]. split; [exact Hclosed|].
  intros w x Hw Hlen.
  destruct (Nat.eq_dec (length w) (S L)) as [HL|HL];
    [|apply (Hseen w x Hw); lia].
  destruct (walk_between_unsnoc x w Hw) as [->|(w' & y & -> & Hw' & Hx)].
  - apply (Hseen [start] x Hw). cbn in *. lia.
  - rewrite length_app in HL. cbn in HL.
    assert (y ∈ seen) as Hy by (apply (Hseen w' y Hw'); lia).
    destruct (Hclosed y Hy) as [Hin|[_ Hnbs]]; [|apply Hnbs, Hx].
    apply in_map_iff in Hin as ([n p] & <- & He). cbn [fst] in *.
    rewrite Forall_forall in H2, Hq.
    apply list_elem_of_In in He.
    pose proof (H2 _ He) as Hp. destruct (Hq _ He) as [_ Hmin].
    cbn [fst snd] in *. specialize (Hmin w' Hw'). lia.
Qed.

Lemma bfs_level_step L node path q1 q2 seen :
  node <> end_ ->
  bfs_level_inv name_graph start end_ L ((node, path) :: q1) q2 seen ->
  exists news,
    (fold_left (visit path) (named_neighbors name_graph node)
       (seen, q1 ++ q2)).2 = q1 ++ (q2 ++ news)
    /\ bfs_level_inv name_graph start end_ L q1 (q2 ++ news)
         (fold_left (visit path) (named_neighbors name_graph node)
            (seen, q1 ++ q2)).1.
Proof.
  intros Hne (HL1 & H1 & H2 & Hq & Hclosed & Hseen).
  apply Forall_cons in H1 as [HL H1]. cbn [fst snd] in HL.
  cbn [app] in Hq. apply Forall_cons in Hq as [[Hpath Hmin] Hq].
  cbn [fst snd] in Hpath, Hmin.
  destruct (visit_fold_news path (named_neighbors name_graph node) seen (q1 ++ q2))
    as (news & Heq & Hnews).
  destruct (visit_fold_seen path (named_neighbors name_graph node) seen (q1 ++ q2))
    as (S1 & S2 & S3 & S4).
  exists news. rewrite Heq in *. rewrite <- app_assoc. split; [reflexivity|].
  split; [exact HL1|]. split; [exact H1|]. split.
  { apply Forall_app. split; [exact H2|]. eapply Forall_impl; [exact Hnews|].
    intros e (-> & _ & _). rewrite length_app. cbn. lia. }
  split.
  { rewrite app_assoc. apply Forall_app. split; [exact Hq|].
    eapply Forall_impl; [exact Hnews|]. intros [nb p] (Hp & Hnew & Hnb).
    cbn [fst snd] in *. subst p. split.
    - destruct Hpath as (Hhead & Hlast & Hwalk). split; [|split].
      + destruct path; [discriminate|exact Hhead].
      + apply last_snoc.
      + apply (is_walk_snoc name_graph path node nb); assumption.
    - intros w Hw. rewrite length_app. cbn.
      destruct (le_lt_dec (length w) L) as [Hle|Hlt]; [|lia].
      destruct Hnew. apply (Hseen w nb Hw Hle). }
  split.
  { intros x Hx. rewrite app_assoc.
    destruct (S3 x Hx) as [Hs|Hnew]; [|left; exact Hnew].
    destruct (Hclosed x Hs) as [[<-|Hin]|[Hxe Hnbs]].
    - right. split; [exact Hne|]. intros nb Hnb. apply S2, Hnb.
    - left. apply S4, Hin.
    - right. split; [exact Hxe|]. intros nb Hnb. apply S1, Hnbs, Hnb. }
  intros w x Hw Hle. apply S1, (Hseen w x Hw Hle).
Qed.

Lemma bfs_level_shortest fuel : forall L q1 q2 seen route,
  bfs_level_inv name_graph start end_ L q1 q2 seen ->
  bfs fuel name_graph end_ (q1 ++ q2) seen = Some route ->
  forall w, walk_between name_graph start end_ w ->
    (length route <= length w)%nat.
Proof.
  induction fuel as [|fuel IH]; intros L q1 q2 seen route Hinv; [discriminate|].
  assert (forall L node path q1 q2 seen route,
            bfs_level_inv name_graph start end_ L ((node, path) :: q1) q2 seen ->
            bfs (S fuel) name_graph end_ (((node, path) :: q1) ++ q2) seen
            = Some route ->
            forall w, walk_between name_graph start end_ w ->
              (length route <= length w)%nat) as Hstep.
  { clear L q1 q2 seen route Hinv. intros L node path q1 q2 seen route Hinv.
    cbn [app bfs]. destruct (String.eqb_spec node end_) as [->|Hne].
    - intros [= <-] w Hw. destruct Hinv as (_ & _ & _ & Hq & _).
      cbn [app] in Hq. apply Forall_cons in Hq as [[_ Hmin] _].
      apply Hmin, Hw.
    - destruct (bfs_level_step L node path q1 q2 seen Hne Hinv)
        as (news & Heq & Hinv').
      fold (named_neighbors name_graph node). rewrite Heq.
      apply (IH L q1 (q2 ++ news) _ route Hinv'). }
  destruct q1 as [|[node path] q1]; [|apply (Hstep L), Hinv].
  destruct q2 as [|[node path] q2].
  - cbn [app bfs]. intros [= <-] w _. cbn. lia.
  - intros Hbfs. apply (Hstep (S L) node path q2 [] seen route).
    + apply bfs_level_next, Hinv.
    + rewrite app_nil_r. exact Hbfs.
Qed.

Lemma shortest_path_minimal w :
  walk_between name_graph start end_ w ->
  (length (shortest_path name_graph start end_) <= length w)%nat.
Proof.
  intros Hw.
  destruct (shortest_path_returns name_graph start end_) as [[_ H]|[_ H]];
    [rewrite H; cbn; lia|].
  apply (bfs_level_shortest _ 1 [(start, [start])] [] _ _) with (w := w) in H;
    [exact H| |exact Hw].
  split; [lia|]. split; [apply Forall_cons; split; [reflexivity|constructor]|].
  split; [constructor|]. split; [|split].
  - apply Forall_cons. split; [|constructor]. cbn [fst snd]. split.
    + split; [reflexivity|]. split; [reflexivity|exact I].
    + intros w' (Hhead & _). destruct w'; [discriminate|cbn; lia].
  - intros x Hx. apply elem_of_singleton in Hx. subst x. left. left. reflexivity.
  - intros w' x (Hhead & Hlast & _) Hlen.
    destruct w' as [|u [|v rest]]; [discriminate| |cbn in Hlen; lia].
    cbn in Hhead, Hlast. injection Hhead as ->. injection Hlast as <-.
    apply elem_of_singleton. reflexivity.
Qed.

End RouteShortest.

(** ** The name graph and the travel times of [analyze_scenario] *)

Lemma name_graph_from sections u : forall st,
  named_neighbors (fold_left add_named_edge sections st).1 u
  = named_neighbors st.1 u ++ map to_name (List.filter (named_from u) sections).
Proof.
  unfold named_neighbors.
  induction sections as [|sec sections IH]; intros st; cbn [fold_left List.filter map].
  - rewrite app_nil_r. reflexivity.
  - rewrite IH. unfold add_named_edge, named_from, is_named.
    destruct (Py.truthy_str (from_name sec)); cbn [negb orb andb]; [|reflexivity].
    destruct (Py.truthy_str (to_name sec)); cbn [negb orb andb fst]; [|reflexivity].
    destruct (String.eqb_spec (from_name sec) u) as [->|Hne].
    + rewrite lookup_insert_eq. cbn [default from_option id map].
      rewrite <- app_assoc. reflexivity.
    + rewrite lookup_insert_ne by exact Hne. reflexivity.
Qed.

Lemma edge_tt_from_last sections u v : forall st,
  (fold_left add_named_edge sections st).2 !! (u, v)
  = match last (List.filter (named_edge u v) sections) with
    | Some sec => Some (Py.max 1%float (travel_min sec))
    | None => st.2 !! (u, v)
    end.
Proof.
  induction sections as [|sec sections IH] using rev_ind; intros st; [reflexivity|].
  rewrite fold_left_app, List.filter_app. cbn [fold_left List.filter].
  unfold add_named_edge at 1, named_edge, named_from, is_named.
  destruct (Py.truthy_str (from_name sec)); cbn [negb orb andb];
    [|rewrite app_nil_r; apply IH].
  destruct (Py.truthy_str (to_name sec)); cbn [negb orb andb snd];
    [|rewrite app_nil_r; apply IH].
  destruct (String.eqb_spec (from_name sec) u) as [Hu|Hu]; cbn [andb].
  - destruct (String.eqb_spec (to_name sec) v) as [Hv|Hv].
    + rewrite last_snoc, Hu, Hv, lookup_insert_eq. reflexivity.
    + rewrite app_nil_r, lookup_insert_ne by congruence. apply IH.
  - rewrite app_nil_r, lookup_insert_ne by congruence. apply IH.
Qed.

Lemma py_max_one_not_below x : PrimFloat.ltb (Py.max 1%float x) 1%float = false.
Proof.
  unfold Py.max. destruct (PrimFloat.ltb 1%float x) eqn:H; [apply ltb_asym, H|].
  reflexivity.
Qed.

Lemma name_network_neighbors (augmented_sections : list TrackSection) (u : string) :
  named_neighbors (name_network augmented_sections).1 u
  = map to_name (List.filter (named_from u) augmented_sections).
Proof.
  unfold name_network. rewrite name_graph_from. cbn [fst].
  unfold named_neighbors. rewrite lookup_empty. reflexivity.
Qed.

Lemma name_network_edge_tt (augmented_sections : list TrackSection)
    (u v : string) :
  (name_network augmented_sections).2 !! (u, v)
  = (fun sec => Py.max 1%float (travel_min sec))
      <$> last (List.filter (named_edge u v) augmented_sections)
  /\ (forall t, (name_network augmented_sections).2 !! (u, v) = Some t ->
        PrimFloat.ltb t 1%float = false).
Proof.
  assert ((name_network augmented_sections).2 !! (u, v)
          = (fun sec => Py.max 1%float (travel_min sec))
              <$> last (List.filter (named_edge u v) augmented_sections)) as Heq.
  { unfold name_network. rewrite edge_tt_from_last. cbn [snd].
    destruct (last _); [reflexivity|apply lookup_empty]. }
  split; [exact Heq|]. intros t. rewrite Heq.
  destruct (last _) as [sec|]; cbn; [|discriminate].
  intros [= <-]. apply py_max_one_not_below.
Qed.

(** An edge of the name graph has a travel time. *)
Lemma name_graph_edge_has_time augmented_sections u v :
  In v (named_neighbors (name_network augmented_sections).1 u) ->
  is_Some ((name_network augmented_sections).2 !! (u, v)).
Proof.
  rewrite name_network_neighbors. intros Hv.
  apply in_map_iff in Hv as (sec & <- & Hsec).
  apply filter_In in Hsec as [Hin Hnamed].
  destruct (name_network_edge_tt augmented_sections u (to_name sec))
    as [-> _].
  assert (In sec (List.filter (named_edge u (to_name sec)) augmented_sections)) as Hf.
  { apply filter_In. split; [exact Hin|]. unfold named_edge.
    rewrite Hnamed, String.eqb_refl. reflexivity. }
  destruct (List.filter _ augmented_sections) as [|x l] using rev_ind; [destruct Hf|].
  rewrite last_snoc. eexists. reflexivity.
Qed.

Lemma is_walk_lookup name_graph path : forall i u v,
  is_walk name_graph path ->
  path !! i = Some u -> path !! S i = Some v ->
  In v (named_neighbors name_graph u).
Proof.
  induction path as [|a [|b rest] IH]; intros i u v Hwalk Hu Hv;
    [discriminate|destruct i; discriminate|].
  destruct Hwalk as [Hab Hrest]. destruct i as [|i].
  - cbn in Hu, Hv. injection Hu as <-. injection Hv as <-. exact Hab.
  - apply (IH i); assumption.
Qed.

(** ** The trains built *)

(** X6. Every hop of the route of a built train is an edge of the name graph
    with a travel time in [edge_tt]: the default of five minutes is never
    used, and no hop lasts less than one minute. The route is a walk from the
    requested source to the requested destination that repeats no station. *)
Theorem built_routes_use_known_travel_times
    (augmented_sections : list TrackSection) (trains : list Scenario.Train)
    (tr : SimTrain) :
  In tr (built_trains (analyze_network augmented_sections trains)) ->
  (exists t, In t trains
     /\ train_id tr = Scenario.train_id t
     /\ walk_between (name_network augmented_sections).1
          (Scenario.source t) (Scenario.destination t) (planned_path tr))
  /\ List.NoDup (planned_path tr)
  /\ (forall i u v,
        planned_path tr !! i = Some u -> planned_path tr !! S i = Some v ->
        exists time,
          (name_network augmented_sections).2 !! (u, v) = Some time
          /\ travel_time (name_network augmented_sections).2 u v = time
          /\ PrimFloat.ltb time 1%float = false).
Proof.
  unfold analyze_network. cbn [built_trains]. intros Hin.
  apply build_trains_In in Hin as (t & Ht & Hpath & Hne & Hid & _).
  destruct (shortest_path_walk (name_network augmented_sections).1
              (Scenario.source t) (Scenario.destination t)) as [Hempty|[Hwalk Hnd]];
    [rewrite <- Hpath in Hempty; contradiction|].
  rewrite <- Hpath in Hwalk, Hnd.
  split; [exists t; repeat split; try assumption; apply Hwalk|].
  split; [exact Hnd|]. intros i u v Hu Hv.
  destruct Hwalk as (_ & _ & Hwalk).
  destruct (name_graph_edge_has_time augmented_sections u v
              (is_walk_lookup _ _ i u v Hwalk Hu Hv)) as [time Htime].
  exists time. split; [exact Htime|]. split.
  - unfold travel_time. rewrite Htime. reflexivity.
  - apply (proj2 (name_network_edge_tt augmented_sections u v)), Htime.
Qed.

(** ** Loaders: errors and invariants *)

Lemma foldM_app {A B} (f : B -> A -> option B) l1 l2 b :
  Py.foldM f b (l1 ++ l2) = Py.foldM f b l1 ≫= fun b' => Py.foldM f b' l2.
Proof.
  revert b. induction l1 as [|x l1 IH]; intros b; cbn [app Py.foldM]; [reflexivity|].
  destruct (f b x); [apply IH|reflexivity].
Qed.

Lemma foldM_None_iff {A B} (f : B -> A -> option B) (bad : A -> Prop) l :
  (forall b x, f b x = None <-> bad x) ->
  forall b, Py.foldM f b l = None <-> exists x, In x l /\ bad x.
Proof.
  intros Hf. induction l as [|x l IH]; intros b; cbn [Py.foldM].
  - split; [discriminate|intros (x & [] & _)].
  - destruct (f b x) as [b'|] eqn:E.
    + rewrite IH. split; intros (y & Hy & Hbad).
      * exists y. split; [right; exact Hy|exact Hbad].
      * destruct Hy as [<-|Hy]; [|exists y; split; assumption].
        apply (Hf b) in Hbad. congruence.
    + split; [|reflexivity]. intros _. exists x.
      split; [left; reflexivity|apply (Hf b), E].
Qed.

Lemma dict_set_In {V} (d : Py.dict V) k v k' v' :
  In (k', v') (Py.dict_set d k v) -> (k' = k /\ v' = v) \/ In (k', v') d.
Proof.
  induction d as [|[k0 v0] d IH]; cbn [Py.dict_set].
  - intros [[= <- <-]|[]]. left. split; reflexivity.
  - destruct (String.eqb_spec k0 k) as [->|Hne].
    + intros [[= <- <-]|Hin]; [left; split; reflexivity|right; right; exact Hin].
    + intros [Heq|Hin]; [right; left; exact Heq|].
      destruct (IH Hin) as [H|H]; [left; exact H|right; right; exact H].
Qed.

Section LoaderFacts.

Context (py : Py.Builtins).

(** X7. A station loader raises in two cases only: the file exists and
    cannot be read, or it is read to the end and some row has a platform
    count that is neither empty nor an integer. No other field of a row can
    make it fail. *)
Theorem station_loaders_fail_on_bad_platform_count (fs : FileSystem)
    (path : string) :
  (load_sih_stations py fs path = None
   <-> fs path = Some Unreadable
       \/ exists rows row,
            fs path = Some (Rows rows) /\ In row rows
            /\ platform_of_row py row = None)
  /\ (load_trainsih_stations py fs path = None
      <-> fs path = Some Unreadable
          \/ exists rows row,
               fs path = Some (Rows rows) /\ In row rows
               /\ platform_of_row py row = None).
Proof.
  assert (forall f : Py.dict Station -> gmap string string -> option (Py.dict Station),
            (forall d row, f d row = None <-> platform_of_row py row = None) ->
            match fs path with
            | None => Some []
            | Some Unreadable => None
            | Some (Rows rows) => Py.foldM f [] rows
            end = None
            <-> fs path = Some Unreadable
                \/ exists rows row,
                     fs path = Some (Rows rows) /\ In row rows
                     /\ platform_of_row py row = None) as Hloop.
  { intros f Hf. destruct (fs path) as [[rows|]|].
    - rewrite (foldM_None_iff f (fun row => platform_of_row py row = None))
        by exact Hf.
      split.
      + intros (row & Hin & Hbad). right. exists rows, row. repeat split; assumption.
      + intros [[=]|(rows' & row & [= <-] & Hin & Hbad)]. exists row.
        split; assumption.
    - split; [intros _; left; reflexivity|reflexivity].
    - split; [discriminate|]. intros [[=]|(rows & row & [=] & _)]. }
  split; apply Hloop; intros d row.
  - unfold load_sih_row. destruct (platform_of_row py row); cbn; split; congruence.
  - unfold load_trainsih_row.
    destruct (platform_of_row py row); cbn; [|split; congruence].
    destruct (Py.dict_get d _); [destruct (_ && _)|]; split; congruence.
Qed.

(** X8. Section loading raises only when the file exists and cannot be
    read: nothing that a row holds makes it raise. What it returns has at
    most one section per row of the file, each real and with two different
    non-empty codes. *)
Theorem section_loader_keeps_proper_rows (fs : FileSystem) (path : string) :
  (load_real_sections py fs path = None <-> fs path = Some Unreadable)
  /\ (forall real, load_real_sections py fs path = Some real ->
        (forall rows, fs path = Some (Rows rows) ->
           (length real <= length rows)%nat)
        /\ (forall s, In s real ->
              leg_type s = "real" /\ from_code s <> "" /\ to_code s <> ""
              /\ from_code s <> to_code s)).
Proof.
  assert (forall rows acc, exists real,
            Py.foldM (load_section_row py) acc rows = Some real
            /\ (length real <= length acc + length rows)%nat) as Hfold.
  { induction rows as [|row rows IH]; intros acc; cbn [Py.foldM].
    - exists acc. split; [reflexivity|cbn; lia].
    - unfold load_section_row at 1.
      destruct (_ && _ && _).
      + destruct (IH (acc ++ [mkSection
                                (Py.strip (Py.or_str (row !! "From Station Code") ""))
                                (Py.strip (Py.or_str (row !! "From Station Name")
                                   (Py.strip (Py.or_str (row !! "From Station Code") ""))))
                                (Py.strip (Py.or_str (row !! "To Station Code") ""))
                                (Py.strip (Py.or_str (row !! "To Station Name")
                                   (Py.strip (Py.or_str (row !! "To Station Code") ""))))
                                (parse_float py (Py.or_str (row !! "Distance (km)") "0") 0)
                                (parse_float py
                                   (Py.or_str (row !! "Average Travel Time (mins)") "0") 0)
                                "real"])) as (real & Hreal & Hlen).
        exists real. split; [exact Hreal|].
        rewrite length_app in Hlen. cbn [length] in *. lia.
      + destruct (IH acc) as (real & Hreal & Hlen).
        exists real. split; [exact Hreal|]. cbn [length]. lia. }
  split.
  - unfold load_real_sections. destruct (fs path) as [[rows|]|].
    + destruct (Hfold rows []) as (real & -> & _). split; discriminate.
    + split; reflexivity.
    + split; discriminate.
  - intros real Hload. split; [|apply (load_real_sections_spec py fs path real Hload)].
    intros rows Hfs. unfold load_real_sections in Hload. rewrite Hfs in Hload.
    destruct (Hfold rows []) as (real' & Hreal' & Hlen).
    rewrite Hload in Hreal'. injection Hreal' as <-. exact Hlen.
Qed.

Lemma load_trainsih_row_keeps_coords stations row stations' c e :
  load_trainsih_row py stations row = Some stations' ->
  Py.dict_get stations c = Some e -> has_coords e = true ->
  Py.dict_get stations' c = Some e.
Proof.
  unfold load_trainsih_row. destruct (platform_of_row py row); cbn; [|discriminate].
  set (code := Py.strip (Py.or_str (row !! "Station Code") "")).
  intros Hrow He Hcoords.
  destruct (String.eqb_spec code c) as [<-|Hne].
  - rewrite He, Hcoords in Hrow. cbn in Hrow. injection Hrow as <-. exact He.
  - destruct (Py.dict_get stations code); [destruct (_ && _)|];
      injection Hrow as <-; try exact He;
      rewrite dict_get_set_ne by exact Hne; exact He.
Qed.

(** X9. In the Trainsih loader a station that has both coordinates is never
    replaced by a later row of the same code: once the rows read so far hold
    such a station for a code, the loaded set holds that station. *)
Theorem trainsih_loader_keeps_first_coordinates (fs : FileSystem) (path : string)
    (rows1 rows2 : list (gmap string string))
    (loaded1 loaded : Py.dict Station) (c : string) (e : Station) :
  fs path = Some (Rows (rows1 ++ rows2)) ->
  Py.foldM (load_trainsih_row py) [] rows1 = Some loaded1 ->
  Py.dict_get loaded1 c = Some e -> has_coords e = true ->
  load_trainsih_stations py fs path = Some loaded ->
  Py.dict_get loaded c = Some e.
Proof.
  intros Hfs H1 He Hcoords. unfold load_trainsih_stations.
  rewrite Hfs, foldM_app, H1. cbn [mbind option_bind].
  clear Hfs H1. revert loaded1 He.
  induction rows2 as [|row rows2 IH]; intros loaded1 He; cbn [Py.foldM].
  - intros [= <-]. exact He.
  - destruct (load_trainsih_row py loaded1 row) as [d|] eqn:Hrow; [|discriminate].
    apply (IH d). eapply load_trainsih_row_keeps_coords; eassumption.
Qed.

(** Every loaded station is stored under its own code; an SIH station has no
    coordinates. *)
Lemma load_sih_stations_entries fs path sih :
  load_sih_stations py fs path = Some sih ->
  forall k st, In (k, st) sih -> code st = k /\ lat st = None /\ lon st = None.
Proof.
  unfold load_sih_stations.
  destruct (fs path) as [[rows|]|]; [|discriminate|intros [= <-] k st []].
  apply (foldM_invariant
           (fun d => forall k st, In (k, st) d ->
                       code st = k /\ lat st = None /\ lon st = None));
    [|intros k st []].
  intros d row d' Hd. unfold load_sih_row.
  destruct (platform_of_row py row); cbn; [|discriminate].
  intros [= <-] k st Hin. apply dict_set_In in Hin as [[-> ->]|Hin];
    [repeat split|apply Hd, Hin].
Qed.

Lemma load_trainsih_stations_entries fs path trn :
  load_trainsih_stations py fs path = Some trn ->
  forall k st, In (k, st) trn -> code st = k.
Proof.
  unfold load_trainsih_stations. destruct (fs path) as [[rows|]|];
    [|discriminate|intros [= <-] k st []].
  apply (foldM_invariant (fun d => forall k st, In (k, st) d -> code st = k));
    [|intros k st []].
  intros d row d' Hd. unfold load_trainsih_row.
  destruct (platform_of_row py row); cbn; [|discriminate].
  destruct (Py.dict_get d _); [destruct (_ && _)|]; intros [= <-] k st Hin;
    try (apply Hd, Hin);
    apply dict_set_In in Hin as [[-> ->]|Hin]; [reflexivity|apply Hd, Hin
                                                |reflexivity|apply Hd, Hin].
Qed.

End LoaderFacts.

(** ** Merging: the union of the two station sets *)

Section MergeUnion.

Context (py : Py.Builtins).

Lemma dict_mem_In {V} (d : Py.dict V) k :
  Py.dict_mem d k = true <-> In k (Py.dict_keys d).
Proof.
  unfold Py.dict_mem. destruct (Py.dict_get d k) eqn:E.
  - split; [intros _; eapply dict_get_In_keys; exact E|reflexivity].
  - split; [discriminate|]. intros Hin. apply dict_get_None in E. contradiction.
Qed.

Lemma merge_entry_keys merged c st :
  Py.dict_keys (merge_entry merged (c, st))
  = Py.dict_keys merged ++ (if Py.dict_mem merged c then [] else [c]).
Proof.
  unfold merge_entry, Py.dict_mem.
  destruct (Py.dict_get merged c) as [m|] eqn:E.
  - rewrite dict_keys_set_present by (eapply dict_get_In_keys; exact E).
    rewrite app_nil_r. reflexivity.
  - rewrite dict_set_fresh by (apply dict_get_None, E).
    unfold Py.dict_keys. rewrite map_app. reflexivity.
Qed.

Lemma merge_fold_keys sih : forall merged,
  List.NoDup (Py.dict_keys sih) ->
  Py.dict_keys (fold_left merge_entry sih merged)
  = Py.dict_keys merged
    ++ List.filter (fun c => negb (Py.dict_mem merged c)) (Py.dict_keys sih).
Proof.
  induction sih as [|[c st] sih IH]; intros merged Hnd; cbn [fold_left].
  - cbn. rewrite app_nil_r. reflexivity.
  - change (Py.dict_keys ((c, st) :: sih)) with (c :: Py.dict_keys sih) in *.
    apply List.NoDup_cons_iff in Hnd as [Hc Hnd].
    rewrite (IH _ Hnd), merge_entry_keys. cbn [List.filter].
    assert (List.filter (fun c0 => negb (Py.dict_mem (merge_entry merged (c, st)) c0))
              (Py.dict_keys sih)
            = List.filter (fun c0 => negb (Py.dict_mem merged c0)) (Py.dict_keys sih))
      as ->.
    { apply filter_ext_in. intros c0 Hc0. f_equal.
      unfold Py.dict_mem. rewrite merge_entry_other; [reflexivity|].
      intros ->. contradiction. }
    destruct (Py.dict_mem merged c); cbn [negb];
      [rewrite app_nil_r|rewrite <- app_assoc]; reflexivity.
Qed.

Lemma merge_loaded_lookup sih trn c :
  List.NoDup (Py.dict_keys sih) -> List.NoDup (Py.dict_keys trn) ->
  Py.dict_get (merge_loaded sih trn) c
  = match Py.dict_get sih c with
    | Some st => Some (merge_value c (Py.dict_get trn c) st)
    | None => Py.dict_get trn c
    end.
Proof.
  intros Hsih Htrn. unfold merge_loaded.
  rewrite (dict_update_fresh [] trn) by exact Htrn. cbn [app].
  destruct (Py.dict_get sih c) as [st|] eqn:E.
  - apply merge_fold_hit; assumption.
  - apply merge_fold_other, dict_get_None, E.
Qed.

(** X10. [merge_stations] is a union keyed by code: the codes of the result are
    those of the Trainsih set, in its order, followed by the codes that only
    the SIH set has, in its order; a code that only one set has keeps the
    station of that set, and a code that neither has is absent. *)
Theorem merge_is_a_keyed_union (fs : FileSystem) (sih_path trainsih_path : string)
    (sih trn : Py.dict Station) :
  load_sih_stations py fs sih_path = Some sih ->
  load_trainsih_stations py fs trainsih_path = Some trn ->
  exists merged,
    merge_stations py fs sih_path trainsih_path = Some merged
    /\ Py.dict_keys merged
       = Py.dict_keys trn
         ++ List.filter (fun c => negb (Py.dict_mem trn c)) (Py.dict_keys sih)
    /\ List.NoDup (Py.dict_keys merged)
    /\ (forall c, Py.dict_get sih c = None ->
          Py.dict_get merged c = Py.dict_get trn c)
    /\ (forall c, Py.dict_get trn c = None ->
          Py.dict_get merged c = Py.dict_get sih c).
Proof.
  intros Hsih Htrn.
  pose proof (load_sih_stations_NoDup py fs _ _ Hsih) as Nsih.
  pose proof (load_trainsih_stations_NoDup py fs _ _ Htrn) as Ntrn.
  exists (merge_loaded sih trn).
  split; [unfold merge_stations; rewrite Hsih, Htrn; reflexivity|].
  assert (Py.dict_keys (merge_loaded sih trn)
          = Py.dict_keys trn
            ++ List.filter (fun c => negb (Py.dict_mem trn c)) (Py.dict_keys sih))
    as Hkeys.
  { unfold merge_loaded. rewrite (dict_update_fresh [] trn) by exact Ntrn.
    apply merge_fold_keys, Nsih. }
  split; [exact Hkeys|]. split; [|split].
  - rewrite Hkeys. apply List.NoDup_app; [exact Ntrn|apply List.NoDup_filter, Nsih|].
    intros c Hc Hc'. apply filter_In in Hc' as [_ Hc'].
    apply dict_mem_In in Hc. rewrite Hc in Hc'. discriminate.
  - intros c Hc. rewrite merge_loaded_lookup, Hc by assumption. reflexivity.
  - intros c Hc. rewrite merge_loaded_lookup, Hc by assumption.
    destruct (Py.dict_get sih c); reflexivity.
Qed.

(** X11. Every merged station is stored under its own code, and its coordinates
    are those of the Trainsih station of that code: a code that the Trainsih
    set lacks has no coordinates after the merge. *)
Theorem merged_stations_invariant (fs : FileSystem)
    (sih_path trainsih_path : string) (trn merged : Py.dict Station) :
  load_trainsih_stations py fs trainsih_path = Some trn ->
  merge_stations py fs sih_path trainsih_path = Some merged ->
  forall c st, Py.dict_get merged c = Some st ->
    code st = c
    /\ lat st = Py.dict_get trn c ≫= lat
    /\ lon st = Py.dict_get trn c ≫= lon.
Proof.
  intros Htrn. unfold merge_stations.
  destruct (load_sih_stations py fs sih_path) as [sih|] eqn:Hsih; [|discriminate].
  cbn [mbind option_bind]. rewrite Htrn. cbn [mbind option_bind]. intros [= <-].
  pose proof (load_sih_stations_NoDup py fs _ _ Hsih) as Nsih.
  pose proof (load_trainsih_stations_NoDup py fs _ _ Htrn) as Ntrn.
  intros c st. rewrite merge_loaded_lookup by assumption.
  destruct (Py.dict_get sih c) as [s|] eqn:Hs.
  - apply dict_get_Some_In in Hs.
    destruct (load_sih_stations_entries py fs _ _ Hsih c s Hs) as (Hcode & Hlat & Hlon).
    unfold merge_value. destruct (Py.dict_get trn c) as [m|]; intros [= <-]; cbn.
    + repeat split.
    + repeat split; assumption.
  - intros Hm. rewrite Hm. cbn. split; [|split; reflexivity].
    apply dict_get_Some_In in Hm.
    apply (load_trainsih_stations_entries py fs _ _ Htrn c st Hm).
Qed.

End MergeUnion.

(** ** Augmentation: what the inferred sections are, and how many *)

Lemma connect_length stations k avg_speed_kmph code dlist : forall added st st',
  connect stations k avg_speed_kmph code dlist added st = Some st' ->
  (length st'.2 <= length st.2 + Z.to_nat (k - added))%nat.
Proof.
  induction dlist as [|[d oc] rest IH]; intros added st st'; cbn [connect].
  - intros [= <-]. lia.
  - destruct (Z.geb_spec added k); [intros [= <-]; lia|].
    destruct (decide ((code, oc) ∈ st.1)); [apply IH|].
    destruct (Py.div d avg_speed_kmph); cbn [mbind option_bind]; [|discriminate].
    destruct (Py.dict_get stations code); cbn [mbind option_bind]; [|discriminate].
    destruct (Py.dict_get stations oc); cbn [mbind option_bind]; [|discriminate].
    intros Hc. apply IH in Hc. cbn [snd] in Hc. rewrite length_app in Hc.
    cbn [length] in Hc. lia.
Qed.

Section InferredSections.

Context (py : Py.Builtins) (stations : Py.dict Station) (k : Z)
        (avg_speed_kmph : float).

(** What one station adds: sections that leave it, at most [k]. *)
Lemma augment_station_adds st code st' :
  augment_station py stations k avg_speed_kmph st code = Some st' ->
  exists new,
    st'.2 = st.2 ++ new
    /\ (length new <= Z.to_nat k)%nat
    /\ (forall s, In s new ->
          from_code s = code /\ inferred_between py stations avg_speed_kmph s).
Proof.
  unfold augment_station.
  destruct (Py.dict_get stations code) as [sc|] eqn:Hsc; [|discriminate].
  cbn [mbind option_bind].
  destruct (lat sc) as [la|] eqn:Hla; [destruct (lon sc) as [lo|] eqn:Hlo|];
    try (intros [= <-]; exists []; rewrite app_nil_r;
         split; [reflexivity|split; [cbn; lia|intros s []]]).
  destruct (distances py stations code la lo (Py.dict_keys stations)) as [dl|] eqn:Hdl;
    [|discriminate].
  cbn [mbind option_bind]. destruct st as [existing result], st' as [existing' result'].
  intros Hc. pose proof (connect_length _ _ _ _ _ _ _ _ Hc) as Hlen.
  apply connect_spec in Hc as (new & Hres & _ & Hnew & _ & _).
  destruct (distances_spec py stations code la lo _ dl Hdl) as [Hsnd Hhav].
  exists new. cbn [snd] in *. split; [exact Hres|]. split.
  - rewrite Hres, length_app, Z.sub_0_r in Hlen. lia.
  - intros s Hs. destruct (Hnew s Hs) as (Hfrom & Hleg & _ & Hin & (q & Hq & Ht)
                                          & sa & sb & Hsa & Hsb & Hfn & Htn).
    split; [exact Hfrom|].
    apply (Permutation_in _ (sort_by_distance_perm py dl)) in Hin.
    destruct (Hhav _ _ Hin) as (ot & ola & olo & Hot & Hola & Holo & Hd).
    assert (In (to_code s) (map snd dl)) as Hcand
      by (apply in_map_iff; exists (distance_km s, to_code s); split; auto).
    rewrite Hsnd in Hcand. apply filter_In in Hcand as [_ Hcand].
    unfold is_candidate in Hcand. apply andb_true_iff in Hcand as [Hne _].
    apply negb_true_iff, String.eqb_neq in Hne.
    split; [exact Hleg|]. split; [rewrite Hfrom; congruence|].
    rewrite Hsb in Hot. injection Hot as <-. rewrite Hsc in Hsa. injection Hsa as <-.
    exists sc, sb, la, lo, ola, olo, q. rewrite Hfrom.
    repeat split; assumption.
Qed.

Lemma sections_from_app c l1 l2 :
  sections_from c (l1 ++ l2) = sections_from c l1 ++ sections_from c l2.
Proof. apply List.filter_app. Qed.

Lemma sections_from_other c code new :
  (forall s, In s new -> from_code s = code) -> code <> c ->
  sections_from c new = [].
Proof.
  intros Hfrom Hne. induction new as [|s new IH]; [reflexivity|].
  cbn [sections_from List.filter]. rewrite (Hfrom s (or_introl eq_refl)).
  destruct (String.eqb_spec code c) as [Heq|_]; [contradiction|].
  apply IH. intros s' Hs'. apply Hfrom. right. exact Hs'.
Qed.

Lemma sections_from_length c l : (length (sections_from c l) <= length l)%nat.
Proof. apply List.filter_length_le. Qed.

(** The loop over the codes. *)
Lemma augment_fold_adds codes : forall st st',
  List.NoDup codes ->
  Py.foldM (augment_station py stations k avg_speed_kmph) st codes = Some st' ->
  exists added,
    st'.2 = st.2 ++ added
    /\ (forall s, In s added ->
          In (from_code s) codes /\ inferred_between py stations avg_speed_kmph s)
    /\ (forall c, (length (sections_from c added) <= Z.to_nat k)%nat).
Proof.
  induction codes as [|code codes IH]; intros st st' Hnd; cbn [Py.foldM].
  - intros [= <-]. exists []. rewrite app_nil_r.
    split; [reflexivity|]. split; [intros s []|intros c; cbn; lia].
  - destruct (augment_station py stations k avg_speed_kmph st code) as [st1|] eqn:H1;
      [|discriminate].
    apply List.NoDup_cons_iff in Hnd as [Hfresh Hnd]. intros Hrest.
    destruct (augment_station_adds _ _ _ H1) as (new & Hnew & Hlen & Hall).
    destruct (IH _ _ Hnd Hrest) as (added & Hadded & Hin & Hcount).
    exists (new ++ added). split; [rewrite Hadded, Hnew, app_assoc; reflexivity|].
    split.
    + intros s Hs. apply in_app_iff in Hs as [Hs|Hs].
      * destruct (Hall s Hs) as [-> H]. split; [left; reflexivity|exact H].
      * destruct (Hin s Hs) as [H1' H2]. split; [right; exact H1'|exact H2].
    + intros c. rewrite sections_from_app, length_app.
      destruct (String.eqb_spec code c) as [<-|Hne].
      * assert (sections_from code added = []) as ->.
        { destruct (sections_from code added) as [|s l] eqn:E; [reflexivity|].
          assert (In s (sections_from code added)) as Hs by (rewrite E; left; reflexivity).
          apply filter_In in Hs as [Hs Hc]. apply String.eqb_eq in Hc.
          destruct (Hin s Hs) as [Hcodes _]. rewrite Hc in Hcodes. contradiction. }
        pose proof (sections_from_length code new). cbn [length]. lia.
      * rewrite (sections_from_other c code new); [|intros s Hs; apply (Hall s Hs)|exact Hne].
        cbn [length]. apply Hcount.
Qed.

End InferredSections.

(** X12. Every section the augmentation appends joins two different stations
    that both have coordinates, carries the haversine distance between them
    and the travel time of that distance at the average speed, and takes its
    names from the two stations. *)
Theorem inferred_sections_join_located_stations (py : Py.Builtins)
    (stations : Py.dict Station) (base : list TrackSection) (k : Z)
    (avg_speed_kmph : float) (result : list TrackSection) :
  List.NoDup (Py.dict_keys stations) ->
  augment_sections_with_knn py stations base k avg_speed_kmph = Some result ->
  exists added,
    result = base ++ added
    /\ forall s, In s added -> inferred_between py stations avg_speed_kmph s.
Proof.
  intros Hkeys. unfold augment_sections_with_knn, augment_loop.
  destruct (Py.foldM _ _ _) as [st|] eqn:Hfold; [|discriminate].
  cbn [mbind option_bind]. intros [= <-].
  destruct (augment_fold_adds py stations k avg_speed_kmph _ _ _ Hkeys Hfold)
    as (added & Hres & Hin & _).
  exists added. split; [exact Hres|]. intros s Hs. apply (Hin s Hs).
Qed.

(** X13. At most [k] appended sections leave any one station; a [k] of zero or
    less appends nothing. *)
Theorem at_most_k_inferred_sections_per_station (py : Py.Builtins)
    (stations : Py.dict Station) (base : list TrackSection) (k : Z)
    (avg_speed_kmph : float) (result : list TrackSection) :
  List.NoDup (Py.dict_keys stations) ->
  augment_sections_with_knn py stations base k avg_speed_kmph = Some result ->
  (forall c,
     (length (sections_from c result)
      <= length (sections_from c base) + Z.to_nat k)%nat)
  /\ (k <= 0 -> result = base).
Proof.
  intros Hkeys. unfold augment_sections_with_knn, augment_loop.
  destruct (Py.foldM _ _ _) as [st|] eqn:Hfold; [|discriminate].
  cbn [mbind option_bind]. intros [= <-].
  destruct (augment_fold_adds py stations k avg_speed_kmph _ _ _ Hkeys Hfold)
    as (added & Hres & Hin & Hcount).
  cbn [snd] in Hres. rewrite Hres. split.
  - intros c. rewrite sections_from_app, length_app. specialize (Hcount c). lia.
  - intros Hk. destruct added as [|s added]; [apply app_nil_r|].
    specialize (Hcount (from_code s)). cbn [sections_from List.filter] in Hcount.
    rewrite String.eqb_refl in Hcount. cbn [length] in Hcount. lia.
Qed.

(** ** Adjacency *)

Lemma build_adjacency_lookup_from sections a : forall adj,
  fold_left add_to_adjacency sections adj !! a
  = match sections_from a sections with
    | [] => adj !! a
    | s :: l =>
        Some (default [] (adj !! a) ++ map (fun s => (to_code s, s)) (s :: l))
    end.
Proof.
  induction sections as [|s sections IH]; intros adj; [reflexivity|].
  cbn [fold_left sections_from List.filter]. rewrite IH.
  fold (sections_from a sections). unfold add_to_adjacency.
  destruct (String.eqb_spec (from_code s) a) as [Heq|Hne].
  - rewrite Heq, lookup_insert_eq. cbn [default from_option id].
    destruct (sections_from a sections); cbn [map]; rewrite <- ?app_assoc; reflexivity.
  - rewrite lookup_insert_ne by exact Hne. reflexivity.
Qed.

(** X14. The adjacency has a key for exactly the codes that some section leaves,
    and the list under a key holds the sections that leave it, in section
    order, each with its [to_code]. *)
Theorem adjacency_lists_the_leaving_sections (sections : list TrackSection)
    (a : string) :
  neighbors (build_adjacency sections) a
  = map (fun s => (to_code s, s)) (sections_from a sections)
  /\ (is_Some (build_adjacency sections !! a)
      <-> exists s, In s sections /\ from_code s = a).
Proof.
  split; [apply neighbors_spec|].
  unfold build_adjacency. rewrite build_adjacency_lookup_from, lookup_empty.
  destruct (sections_from a sections) as [|s l] eqn:E.
  - split; [intros [x [=]]|]. intros (s & Hs & Hfrom).
    assert (In s (sections_from a sections)) as Hin
      by (apply filter_In; split; [exact Hs|apply String.eqb_eq, Hfrom]).
    rewrite E in Hin. destruct Hin.
  - split; [|intros _; eexists; reflexivity]. intros _. exists s.
    assert (In s (sections_from a sections)) as Hin by (rewrite E; left; reflexivity).
    apply filter_In in Hin as [Hs Hfrom]. apply String.eqb_eq in Hfrom.
    split; assumption.
Qed.

(** ** The path of a user train *)

Section AddTrainPathFacts.

Context (py : Py.Builtins) (merged_stations : Py.dict Station)
        (sections : list TrackSection).

(** A leg joins the two stations it was asked for; a section of the network
    from [a] to [b] is used when there is one, the first in section order,
    and a leg is made up only when there is none. *)
Lemma leg_between_spec a b leg :
  leg_between py merged_stations (build_adjacency sections) a b = Some leg ->
  match List.filter (fun s => String.eqb (to_code s) b) (sections_from a sections) with
  | s :: _ => leg = Some s
  | [] =>
      forall sec, leg = Some sec ->
        from_code sec = a /\ to_code sec = b /\ leg_type sec = "inferred"
        /\ travel_min sec
           = PrimFloat.mul (PrimFloat.div (distance_km sec) 70%float) 60%float
  end.
Proof.
  unfold leg_between. rewrite neighbors_spec.
  assert (forall l : list TrackSection,
            List.filter (fun e : string * TrackSection => String.eqb e.1 b)
              (map (fun s => (to_code s, s)) l)
            = map (fun s => (to_code s, s))
                (List.filter (fun s => String.eqb (to_code s) b) l)) as Hmap.
  { induction l as [|s l IH]; [reflexivity|]. cbn [map List.filter fst].
    destruct (String.eqb (to_code s) b); cbn [map]; rewrite IH; reflexivity. }
  rewrite Hmap. unfold sections_from.
  destruct (List.filter _ (List.filter _ sections)) as [|s l]; simpl.
  - destruct (Py.dict_get merged_stations a) as [sa|];
      [destruct (Py.dict_get merged_stations b) as [sb|]|];
      try (intros [= <-] sec [=]).
    destruct (lat sa), (lon sa), (lat sb), (lon sb); try (intros [= <-] sec [=]).
    destruct (haversine_km py _ _ _ _) as [dist|]; simpl; [|intros [=]].
    intros [= Hleg] sec Hsec. rewrite Hsec in Hleg. injection Hleg as <-.
    simpl. repeat split.
  - intros [= <-]. reflexivity.
Qed.

Lemma leg_between_ends a b sec :
  leg_between py merged_stations (build_adjacency sections) a b = Some (Some sec) ->
  from_code sec = a /\ to_code sec = b.
Proof.
  intros Hleg. pose proof (leg_between_spec a b _ Hleg) as H.
  destruct (List.filter _ (sections_from a sections)) as [|s l] eqn:E.
  - destruct (H sec eq_refl) as (? & ? & _). split; assumption.
  - injection H as ->.
    assert (In s (List.filter (fun s => String.eqb (to_code s) b)
                    (sections_from a sections))) as Hin
      by (rewrite E; left; reflexivity).
    apply filter_In in Hin as [Hin Hto]. apply filter_In in Hin as [_ Hfrom].
    apply String.eqb_eq in Hto, Hfrom. split; assumption.
Qed.

Lemma follows_shift a stations path :
  follows stations path -> follows (a :: stations) path.
Proof.
  destruct path as [|sec path]; [intros _; exact I|].
  intros (before & after & -> & Hrest). exists (a :: before), after.
  split; [reflexivity|exact Hrest].
Qed.

Lemma path_sections_from_spec stations : forall acc result,
  path_sections_from py merged_stations (build_adjacency sections) stations acc
  = Some result ->
  exists path,
    result = acc ++ path
    /\ follows stations path
    /\ (length path <= length stations - 1)%nat.
Proof.
  induction stations as [|a [|b rest] IH]; intros acc result;
    try (intros [= <-]; exists []; rewrite app_nil_r;
         split; [reflexivity|split; [exact I|cbn; lia]]).
  change (path_sections_from py merged_stations (build_adjacency sections)
            (a :: b :: rest) acc)
    with (leg_between py merged_stations (build_adjacency sections) a b
            ≫= fun leg =>
                 path_sections_from py merged_stations (build_adjacency sections)
                   (b :: rest)
                   match leg with Some sec => acc ++ [sec] | None => acc end).
  destruct (leg_between py merged_stations (build_adjacency sections) a b)
    as [[sec|]|] eqn:Hleg; cbn [mbind option_bind]; [| |discriminate].
  - intros Hrest. destruct (IH _ _ Hrest) as (path & -> & Hfollows & Hlen).
    destruct (leg_between_ends a b sec Hleg) as [Ha Hb].
    exists (sec :: path). split; [rewrite <- app_assoc; reflexivity|]. split.
    + exists [], rest. rewrite Ha, Hb. split; [reflexivity|exact Hfollows].
    + cbn [length] in *. lia.
  - intros Hrest. destruct (IH _ _ Hrest) as (path & -> & Hfollows & Hlen).
    exists path. split; [reflexivity|]. split; [apply follows_shift, Hfollows|].
    cbn [length] in *. lia.
Qed.

End AddTrainPathFacts.

(** X15. The path sections of a user train join consecutive stations of the
    request, in the order of the request, with at most one section per pair:
    there are at most [len(stations) - 1] of them. *)
Theorem add_train_path_follows_request (py : Py.Builtins) (fs : FileSystem)
    (inp : Inputs) (stations : list string) (path_sections : list TrackSection) :
  add_train_path py fs inp stations = Some path_sections ->
  follows stations path_sections
  /\ (length path_sections <= length stations - 1)%nat.
Proof.
  unfold add_train_path.
  destruct (build_network py fs inp) as [[merged sections]|]; [|discriminate].
  cbn [mbind option_bind fst snd]. intros Hpath.
  destruct (path_sections_from_spec py merged sections stations [] _ Hpath)
    as (path & -> & Hfollows & Hlen).
  split; assumption.
Qed.

(** X16. Between two consecutive stations of a request, a section of the network
    is used when one joins them, the first in section order; a direct leg is
    made up, at 70 km/h and marked inferred, only when none does. *)
Theorem add_train_prefers_network_sections (py : Py.Builtins)
    (merged_stations : Py.dict Station) (sections : list TrackSection)
    (a b : string) (leg : option TrackSection) :
  leg_between py merged_stations (build_adjacency sections) a b = Some leg ->
  match List.filter (fun s => String.eqb (to_code s) b) (sections_from a sections) with
  | s :: _ => leg = Some s
  | [] =>
      forall sec, leg = Some sec ->
        from_code sec = a /\ to_code sec = b /\ leg_type sec = "inferred"
        /\ travel_min sec
           = PrimFloat.mul (PrimFloat.div (distance_km sec) 70%float) 60%float
  end.
Proof. apply leg_between_spec. Qed.

(** ** A random route *)

Section PickRouteFacts.

Context (R : Random) (sections : list TrackSection).

Lemma choice_In {A} (s s' : rng R) (seq : list A) x :
  choice R s seq = Some (x, s') -> In x seq.
Proof.
  unfold choice. destruct seq as [|y seq]; [discriminate|].
  destruct (nth_error (y :: seq) _) as [z|] eqn:Hz; [|discriminate].
  cbn [mbind option_bind]. intros [= <- _]. eapply nth_error_In, Hz.
Qed.

Lemma randint_range (s s' : rng R) a b t :
  randint R s a b = Some (t, s') -> (a <= t <= b)%Z.
Proof.
  unfold randint. destruct (Z.ltb_spec 0 (b + 1 - a)) as [Hpos|]; [|discriminate].
  intros [= <- _].
  pose proof (randbelow_lt R s (Z.to_nat (b + 1 - a)) ltac:(lia)). lia.
Qed.

Lemma pick_start_In n adj keys : forall c s c' s',
  In c keys -> pick_start R n adj keys c s = Some (c', s') -> In c' keys.
Proof.
  induction n as [|n IH]; intros c s c' s' Hc; cbn [pick_start];
    [intros [= <- _]; exact Hc|].
  destruct (adj !! c); [intros [= <- _]; exact Hc|].
  destruct (choice R s keys) as [[c1 s1]|] eqn:Hch; [|discriminate].
  cbn [mbind option_bind fst snd]. apply IH. eapply choice_In, Hch.
Qed.

Lemma unvisited_spec visited current sec :
  In sec (unvisited (build_adjacency sections) visited current) ->
  In sec sections /\ from_code sec = current /\ to_code sec ∉ visited.
Proof.
  unfold unvisited. rewrite neighbors_spec. intros Hin.
  apply in_map_iff in Hin as ([nxt sec'] & Hsnd & Hin). cbn [snd] in Hsnd. subst sec'.
  apply filter_In in Hin as [Hin Hnew]. cbn [fst] in Hnew.
  apply in_map_iff in Hin as (s0 & [= <- ->] & Hin).
  apply filter_In in Hin as [Hin Hfrom]. apply String.eqb_eq in Hfrom.
  split; [exact Hin|]. split; [exact Hfrom|].
  intros Hv. rewrite bool_decide_eq_true_2 in Hnew by exact Hv. discriminate.
Qed.

Lemma last_cons_default {A} (l : list A) : forall x d d',
  List.last (x :: l) d = List.last (x :: l) d'.
Proof.
  induction l as [|y l IH]; intros x d d'; [reflexivity|].
  change (List.last (y :: l) d = List.last (y :: l) d'). apply IH.
Qed.

Lemma route_chain_snoc start path sec :
  route_chain start path -> from_code sec = route_end start path ->
  route_chain start (path ++ [sec]).
Proof.
  unfold route_end. revert start.
  induction path as [|s0 path IH]; intros start; cbn [app route_chain map].
  - intros _ Hfrom. split; [exact Hfrom|exact I].
  - intros [Hs0 Hrest] Hfrom. split; [exact Hs0|]. apply IH; [exact Hrest|].
    rewrite Hfrom. destruct path as [|s1 path]; [reflexivity|].
    cbn [map]. apply (last_cons_default (map to_code path)).
Qed.

Lemma route_end_snoc start path sec :
  route_end start (path ++ [sec]) = to_code sec.
Proof. unfold route_end. rewrite map_app. cbn [map]. apply last_last. Qed.

Lemma extend_route_spec start target_len n : forall s visited path result s',
  route_chain start path ->
  Forall (fun sec => In sec sections) path ->
  List.NoDup (start :: map to_code path) ->
  (forall x, x ∈ visited <-> In x (start :: map to_code path)) ->
  (Z.of_nat (length path) < target_len)%Z \/ path = [] ->
  extend_route R n (build_adjacency sections) target_len s visited path
    (route_end start path) = Some (result, s') ->
  route_chain start result
  /\ Forall (fun sec => In sec sections) result
  /\ List.NoDup (start :: map to_code result)
  /\ (Z.of_nat (length result) <= Z.max 1 target_len)%Z.
Proof.
  induction n as [|n IH]; intros s visited path result s' Hchain Hsecs Hnd Hvis Hlen;
    cbn [extend_route]; cbv zeta.
  - intros [= <- _]. repeat split; try assumption.
    destruct Hlen as [Hlen| ->]; [lia|cbn; lia].
  - destruct (unvisited (build_adjacency sections) visited (route_end start path))
      as [|nb0 nbs] eqn:Hnbs.
    + intros [= <- _]. repeat split; try assumption.
      destruct Hlen as [Hlen| ->]; [lia|cbn; lia].
    + destruct (choice R s (nb0 :: nbs)) as [[sec s1]|] eqn:Hch;
        cbn [mbind option_bind fst snd]; [|discriminate].
      apply choice_In in Hch. rewrite <- Hnbs in Hch.
      apply unvisited_spec in Hch as (Hin & Hfrom & Hnew).
      assert (route_chain start (path ++ [sec])) as Hchain'
        by (apply route_chain_snoc; assumption).
      assert (Forall (fun sec => In sec sections) (path ++ [sec])) as Hsecs'
        by (apply Forall_app; split; [exact Hsecs|apply Forall_cons; split;
                                                    [exact Hin|constructor]]).
      assert (List.NoDup (start :: map to_code (path ++ [sec]))) as Hnd'.
      { rewrite map_app. cbn [map]. rewrite app_comm_cons.
        apply NoDup_ListNoDup, NoDup_app. split; [apply NoDup_ListNoDup, Hnd|].
        split; [|apply NoDup_singleton].
        intros x Hx Hx'. apply list_elem_of_singleton in Hx'. subst x.
        apply Hnew, Hvis, list_elem_of_In, Hx. }
      destruct (Z.leb_spec target_len (Z.of_nat (length (path ++ [sec]))))
        as [Hdone|Hmore].
      * intros [= <- _]. repeat split; try assumption.
        rewrite length_app in *. cbn [length] in *.
        destruct Hlen as [Hlen| ->]; [lia|cbn; lia].
      * rewrite <- (route_end_snoc start path sec) at 2.
        apply IH; try assumption; [|left; exact Hmore].
        intros x. rewrite map_app. cbn [map]. rewrite app_comm_cons, in_app_iff.
        rewrite elem_of_union, elem_of_singleton, Hvis. split.
        -- intros [->|H]; [right; left; reflexivity|left; exact H].
        -- intros [H|[<-|[]]]; [right; exact H|left; reflexivity].
Qed.

Lemma pick_route_spec stations min_stops max_stops s path s' :
  pick_route R (build_adjacency sections) stations min_stops max_stops s
  = Some (path, s') ->
  path = []
  \/ exists start,
       In start (Py.dict_keys stations)
       /\ route_chain start path
       /\ Forall (fun sec => In sec sections) path
       /\ List.NoDup (start :: map to_code path)
       /\ (min_stops - 1 <= Z.of_nat (length path) <= Z.max 1 (max_stops - 1))%Z.
Proof.
  unfold pick_route. destruct (size (build_adjacency sections) =? 0)%nat;
    [intros [= <- _]; left; reflexivity|].
  destruct (choice R s (Py.dict_keys stations)) as [[c s1]|] eqn:Hch; [|discriminate].
  cbn [mbind option_bind fst snd].
  destruct (pick_start R 50 _ _ c s1) as [[start s2]|] eqn:Hst; [|discriminate].
  cbn [mbind option_bind fst snd].
  destruct (build_adjacency sections !! start); [|intros [= <- _]; left; reflexivity].
  destruct (randint R s2 _ _) as [[t s3]|] eqn:Ht; [|discriminate].
  cbn [mbind option_bind fst snd].
  destruct (extend_route R 200 _ t s3 {[start]} [] start) as [[r s4]|] eqn:Hr;
    [|discriminate].
  cbn [mbind option_bind fst snd].
  destruct (Z.ltb_spec (Z.of_nat (length r)) (min_stops - 1)) as [Hshort|Hlong];
    [intros [= <- _]; left; reflexivity|].
  intros [= <- <-]. right. exists start.
  apply randint_range in Ht.
  apply (extend_route_spec start t 200 s3 {[start]} [] r s4) in Hr.
  - destruct Hr as (Hchain & Hsecs & Hnd & Hlen).
    split; [eapply pick_start_In; [eapply choice_In, Hch|exact Hst]|].
    repeat split; try assumption. lia.
  - exact I.
  - constructor.
  - cbn [map]. apply List.NoDup_cons; [intros []|apply List.NoDup_nil].
  - intros x. rewrite elem_of_singleton. cbn. intuition.
  - right. reflexivity.
Qed.

End PickRouteFacts.

(** ** Timelines *)

Lemma py_max_not_below a x :
  PrimFloat.leb a a = true -> PrimFloat.leb a (Py.max a x) = true.
Proof.
  intros Ha. unfold Py.max. destruct (PrimFloat.ltb a x) eqn:H; [|exact Ha].
  rewrite leb_spec. rewrite ltb_spec in H. unfold SFltb in H. unfold SFleb.
  destruct (SFcompare _ _) as [[]|]; congruence.
Qed.

Section TimelineFacts.

Context (D : DateTime) (m : TrainMeta) (stations : Py.dict Station).

Lemma add_stop_spec sched t e i sec st' :
  add_stop D m stations (sched, t, e, i) sec = Some st' ->
  match Py.dict_get stations (to_code sec) with
  | None => st'.1.1.1 = sched /\ st'.2 = i
  | Some _ =>
      exists row,
        st'.1.1.1 = sched ++ [row] /\ st'.2 = (i + 1)%Z
        /\ TrainStop.stop_index row = i /\ stop_of m stations sec row
  end.
Proof.
  unfold add_stop.
  destruct (plus_minutes D t _) as [arrival|]; cbn [mbind option_bind];
    [|discriminate].
  destruct (Py.dict_get stations (to_code sec)) as [to_st|] eqn:Hto.
  - destruct (plus_minutes D arrival _) as [departure|]; cbn [mbind option_bind];
      [|discriminate].
    intros [= <-]. cbn [fst snd]. eexists. split; [reflexivity|].
    split; [reflexivity|]. split; [reflexivity|].
    unfold stop_of, row_of_train. cbn. rewrite Hto.
    split; [repeat split|]. split; [reflexivity|]. split; [reflexivity|].
    split; [reflexivity|]. split; [exists to_st; repeat split|].
    split; [reflexivity|]. split; apply py_max_not_below; reflexivity.
  - intros [= <-]. split; reflexivity.
Qed.

Lemma numbered_from_snoc first rows row :
  numbered_from first rows ->
  TrainStop.stop_index row = (first + Z.of_nat (length rows))%Z ->
  numbered_from first (rows ++ [row]).
Proof.
  unfold numbered_from. intros Hrows Hrow.
  rewrite map_app, length_app, seq_app, map_app, Hrows. cbn. rewrite Hrow.
  reflexivity.
Qed.

Lemma numbered_from_cons first row rows :
  TrainStop.stop_index row = first -> numbered_from (first + 1) rows ->
  numbered_from first (row :: rows).
Proof.
  unfold numbered_from. intros Hrow Hrows. cbn [map length seq].
  rewrite Hrow, Hrows, <- seq_shift, map_map. f_equal; [lia|].
  apply map_ext. intros k. lia.
Qed.

(** The loop over the path sections adds one row for each section that ends
    at a station, in path order, and numbers the rows from [i] on. *)
Lemma timeline_loop_spec path : forall sched t e i st',
  Py.foldM (add_stop D m stations) (sched, t, e, i) path = Some st' ->
  exists rows,
    st'.1.1.1 = sched ++ rows
    /\ st'.2 = (i + Z.of_nat (length rows))%Z
    /\ numbered_from i rows
    /\ Forall2 (stop_of m stations) (to_known stations path) rows.
Proof.
  induction path as [|sec path IH]; intros sched t e i st'; cbn [Py.foldM].
  - intros [= <-]. exists []. cbn. rewrite app_nil_r.
    split; [reflexivity|]. split; [lia|]. split; [reflexivity|constructor].
  - destruct (add_stop D m stations (sched, t, e, i) sec)
      as [[[[sched1 t1] e1] i1]|] eqn:Hstop; [|discriminate].
    intros Hrest. apply add_stop_spec in Hstop.
    destruct (IH _ _ _ _ _ Hrest) as (rows & Hsched & Hi & Hnum & Hrows).
    unfold to_known in *. cbn [List.filter]. unfold Py.dict_mem at 1.
    cbn [fst snd] in Hstop.
    destruct (Py.dict_get stations (to_code sec)) as [to_st|].
    + destruct Hstop as (row & -> & -> & Hidx & Hrow).
      exists (row :: rows). rewrite Hsched, Hi, <- app_assoc. cbn [app length].
      split; [reflexivity|]. split; [lia|].
      split; [apply numbered_from_cons; assumption|].
      apply Forall2_cons; split; assumption.
    + destruct Hstop as [-> ->]. exists rows. repeat split; assumption.
Qed.

Lemma timeline_spec start_dt origin path first schedule result :
  timeline D m stations start_dt origin path first schedule = Some result ->
  exists rows,
    result = schedule ++ origin_stop D m start_dt origin first :: rows
    /\ numbered_from 0 (origin_stop D m start_dt origin first :: rows)
    /\ Forall2 (stop_of m stations) (to_known stations path) rows.
Proof.
  unfold timeline.
  destruct (Py.foldM _ _ path) as [st'|] eqn:Hloop; [|discriminate].
  cbn [mbind option_bind]. intros [= <-].
  destruct (timeline_loop_spec _ _ _ _ _ _ Hloop) as (rows & Hsched & _ & Hnum & Hrows).
  exists rows. rewrite Hsched, <- app_assoc. split; [reflexivity|].
  split; [apply numbered_from_cons; [reflexivity|exact Hnum]|exact Hrows].
Qed.

Lemma to_known_length path : (length (to_known stations path) <= length path)%nat.
Proof. apply filter_length_le. Qed.

End TimelineFacts.

(** ** The answer of [add_train] *)

Section AddTrainFacts.

Context (py : Py.Builtins) (D : DateTime) (user_train_id : list string -> string).

Lemma path_sections_from_legs merged sections stations : forall acc result,
  path_sections_from py merged (build_adjacency sections) stations acc = Some result ->
  exists path,
    result = acc ++ path
    /\ Forall (fun sec =>
                 exists a b, In a stations
                   /\ leg_between py merged (build_adjacency sections) a b
                      = Some (Some sec)) path.
Proof.
  induction stations as [|a [|b rest] IH]; intros acc result;
    try (intros [= <-]; exists []; rewrite app_nil_r;
         split; [reflexivity|constructor]).
  change (path_sections_from py merged (build_adjacency sections)
            (a :: b :: rest) acc)
    with (leg_between py merged (build_adjacency sections) a b
            ≫= fun leg =>
                 path_sections_from py merged (build_adjacency sections)
                   (b :: rest)
                   match leg with Some sec => acc ++ [sec] | None => acc end).
  destruct (leg_between py merged (build_adjacency sections) a b)
    as [[sec|]|] eqn:Hleg; cbn [mbind option_bind]; [| |discriminate].
  - intros Hrest. destruct (IH _ _ Hrest) as (path & -> & Hlegs).
    exists (sec :: path). split; [rewrite <- app_assoc; reflexivity|].
    apply Forall_cons. split.
    + exists a, b. split; [left; reflexivity|exact Hleg].
    + eapply Forall_impl; [exact Hlegs|].
      intros s (a' & b' & Ha' & Hs). exists a', b'. split; [right; exact Ha'|exact Hs].
  - intros Hrest. destruct (IH _ _ Hrest) as (path & -> & Hlegs).
    exists path. split; [reflexivity|].
    eapply Forall_impl; [exact Hlegs|].
    intros s (a' & b' & Ha' & Hs). exists a', b'. split; [right; exact Ha'|exact Hs].
Qed.

(** A leg that leaves a code that is no station is a section of the
    network. *)
Lemma leg_between_unknown merged sections a b sec :
  leg_between py merged (build_adjacency sections) a b = Some (Some sec) ->
  Py.dict_get merged a = None ->
  In sec sections /\ from_code sec = a.
Proof.
  unfold leg_between. rewrite neighbors_spec. intros Hleg Hnone. rewrite Hnone in Hleg.
  destruct (List.filter _ _) as [|e l] eqn:E; [discriminate|].
  injection Hleg as <-.
  assert (In e (e :: l)) as Hin by (left; reflexivity).
  rewrite <- E in Hin. apply filter_In in Hin as [Hin _].
  apply in_map_iff in Hin as (s & <- & Hs). cbn [snd].
  apply filter_In in Hs as [Hs Hfrom]. apply String.eqb_eq in Hfrom.
  split; assumption.
Qed.

(** X17. When [add_train] answers with a schedule, the path sections of the
    request are not empty and leave a station, the origin; the schedule is
    the origin row followed by one row for each path section that ends at a
    station, in path order (a section to a code that is no station gets no
    row); the rows are numbered from 0 without a gap, every row after the
    first has a travel time of at least one minute and a halt of at least
    zero, and there are at most as many rows as requested stations. *)
Theorem add_train_schedule_rows fs inp req schedule :
  add_train py D user_train_id fs inp req = Some (inr schedule) ->
  exists net first path origin start_dt rows,
    build_network py fs inp = Some net
    /\ add_train_path py fs inp (AddTrainRequest.stations req) = Some (first :: path)
    /\ Py.dict_get net.1 (from_code first) = Some origin
    /\ fromisoformat D (AddTrainRequest.start_time_iso req) = Some start_dt
    /\ schedule
       = origin_stop D (request_meta user_train_id req) start_dt origin first :: rows
    /\ numbered_from 0 schedule
    /\ Forall2 (stop_of (request_meta user_train_id req) net.1)
         (to_known net.1 (first :: path)) rows
    /\ (length schedule <= length (AddTrainRequest.stations req))%nat.
Proof.
  unfold add_train, add_train_path.
  destruct (build_network py fs inp) as [net|]; [|discriminate].
  cbn [mbind option_bind].
  destruct (path_sections_from py net.1 _ _ []) as [[|first path]|] eqn:Hpath;
    cbn [mbind option_bind]; [discriminate| |discriminate].
  destruct (fromisoformat D _) as [start_dt|]; cbn [mbind option_bind]; [|discriminate].
  destruct (Py.dict_get net.1 (from_code first)) as [origin|] eqn:Horigin;
    [|discriminate].
  destruct (timeline _ _ _ _ _ _ _ _) as [result|] eqn:Htl; cbn [mbind option_bind];
    [|discriminate].
  intros [= <-]. apply timeline_spec in Htl as (rows & -> & Hnum & Hrows).
  exists net, first, path, origin, start_dt, rows. cbn [app].
  repeat split; try assumption; try reflexivity.
  destruct (path_sections_from_spec py net.1 net.2 _ _ _ Hpath)
    as (p & Hp & _ & Hlen). cbn [app] in Hp. subst p.
  apply Forall2_length in Hrows.
  pose proof (to_known_length net.1 (first :: path)) as Hk.
  cbn [length] in *. lia.
Qed.

(** X18. [add_train] answers with an error in two cases only. The text is
    [No valid path built from provided stations] when no two consecutive
    requested stations give a path section. It is [Origin not found] when
    the first path section is a real section of the section file that leaves
    a requested code that no station file has. *)
Theorem add_train_errors fs inp req msg :
  add_train py D user_train_id fs inp req = Some (inl msg) ->
  (msg = "No valid path built from provided stations"
   /\ add_train_path py fs inp (AddTrainRequest.stations req) = Some [])
  \/ (msg = "Origin not found"
      /\ exists real sec rest merged,
           load_real_sections py fs (sih_sections_csv inp) = Some real
           /\ merge_stations py fs (sih_stations_csv inp) (trainsih_stations_csv inp)
              = Some merged
           /\ add_train_path py fs inp (AddTrainRequest.stations req)
              = Some (sec :: rest)
           /\ In sec real
           /\ In (from_code sec) (AddTrainRequest.stations req)
           /\ Py.dict_get merged (from_code sec) = None).
Proof.
  unfold add_train, add_train_path, build_network.
  destruct (merge_stations py fs _ _) as [merged|]; [|discriminate].
  cbn [mbind option_bind].
  destruct (load_real_sections py fs _) as [real|]; [|discriminate].
  cbn [mbind option_bind].
  destruct (augment_sections_with_knn py merged real 3 70) as [aug|] eqn:Haug;
    [|discriminate].
  cbn [mbind option_bind fst snd].
  destruct (path_sections_from py merged _ _ []) as [[|first path]|] eqn:Hpath;
    cbn [mbind option_bind]; [| |discriminate].
  - intros [= <-]. left. split; reflexivity.
  - destruct (fromisoformat D _) as [start_dt|]; cbn [mbind option_bind];
      [|discriminate].
    destruct (Py.dict_get merged (from_code first)) as [origin|] eqn:Horigin.
    + destruct (timeline _ _ _ _ _ _ _ _); discriminate.
    + intros [= <-]. right. split; [reflexivity|].
      exists real, first, path, merged. split; [reflexivity|].
      split; [reflexivity|]. split; [reflexivity|].
      destruct (path_sections_from_legs _ _ _ _ _ Hpath) as (p & Hp & Hlegs).
      cbn [app] in Hp. subst p. apply Forall_cons in Hlegs as [(a & b & Ha & Hleg) _].
      destruct (leg_between_ends py merged aug a b first Hleg) as [Hfrom _].
      rewrite <- Hfrom in Hleg.
      destruct (leg_between_unknown _ _ _ _ _ Hleg Horigin) as [Hin _].
      destruct (augment_sections_with_knn_spec _ _ _ _ _ _ Haug)
        as (added & -> & Hadded & _).
      apply in_app_iff in Hin as [Hin|Hin].
      * split; [exact Hin|]. split; [rewrite Hfrom; exact Ha|exact Horigin].
      * destruct (Hadded _ Hin) as (_ & Hkey & _).
        apply dict_keys_get in Hkey as [st Hst]. congruence.
Qed.

End AddTrainFacts.

(** ** Generated trains *)

Lemma build_adjacency_size sections :
  size (build_adjacency sections) = 0%nat <-> sections = [].
Proof.
  split; [|intros ->; reflexivity].
  intros Hsize. apply map_size_empty_inv in Hsize.
  destruct sections as [|s sections]; [reflexivity|].
  assert (build_adjacency (s :: sections) !! from_code s = None) as Hnone
    by (rewrite Hsize; apply lookup_empty).
  unfold build_adjacency in Hnone.
  rewrite build_adjacency_lookup_from, lookup_empty in Hnone.
  unfold sections_from in Hnone. cbn [List.filter] in Hnone.
  rewrite String.eqb_refl in Hnone. discriminate.
Qed.

Section GenerateFacts.

Context (R : Random) (D : DateTime) (seed : Z -> rng R).

Lemma trains_from_snoc stations sections start_dt blocks : forall first block,
  trains_from D stations sections start_dt first blocks ->
  generated_train D stations sections start_dt
    (first + Z.of_nat (length blocks)) block ->
  trains_from D stations sections start_dt first (blocks ++ [block]).
Proof.
  induction blocks as [|b blocks IH]; intros first block; cbn [app trains_from length].
  - rewrite Z.add_0_r. intros _ Hb. split; [exact Hb|exact I].
  - intros [Hb Hrest] Hblock. split; [exact Hb|]. apply IH; [exact Hrest|].
    replace (first + 1 + Z.of_nat (length blocks))%Z
      with (first + Z.of_nat (S (length blocks)))%Z by lia.
    exact Hblock.
Qed.

Lemma generated_train_length stations sections start_dt tcount block :
  generated_train D stations sections start_dt tcount block ->
  (1 <= length block <= 10)%nat.
Proof.
  intros (m & origin & first & path & rows & _ & _ & _ & _ & _ & _ & _ & _ & Hlen
          & -> & _ & Hrows).
  apply Forall2_length in Hrows.
  pose proof (to_known_length stations (first :: path)) as Hk.
  cbn [length] in *. lia.
Qed.

Lemma trains_from_length stations sections start_dt blocks : forall first,
  trains_from D stations sections start_dt first blocks ->
  (length (concat blocks) <= 10 * length blocks)%nat.
Proof.
  induction blocks as [|b blocks IH]; intros first; cbn [trains_from concat length];
    [lia|].
  intros [Hb Hrest]. apply generated_train_length in Hb. apply IH in Hrest.
  rewrite length_app. lia.
Qed.

(** What the loop of [generate_trains_schedule] keeps: the schedule is the
    rows of the trains generated so far, one block for each, and [tcount]
    counts them. *)
Lemma generate_loop_spec stations sections start_dt num_trains n :
  forall s blocks result,
    trains_from D stations sections start_dt 1 blocks ->
    (Z.of_nat (length blocks) <= Z.max 0 num_trains)%Z ->
    generate_loop R D n (build_adjacency sections) stations start_dt num_trains s
      (concat blocks) (Z.of_nat (length blocks)) = Some result ->
    exists blocks',
      result = concat blocks'
      /\ trains_from D stations sections start_dt 1 blocks'
      /\ (Z.of_nat (length blocks') <= Z.max 0 num_trains)%Z.
Proof.
  induction n as [|n IH]; intros s blocks result Hblocks Hcount; cbn [generate_loop].
  - intros [= <-]. exists blocks. repeat split; assumption.
  - destruct (Z.ltb_spec (Z.of_nat (length blocks)) num_trains) as [Hlt|Hge];
      [|intros [= <-]; exists blocks; repeat split; assumption].
    destruct (pick_route R _ stations 5 10 s) as [[route s1]|] eqn:Hroute;
      cbn [mbind option_bind fst snd]; [|discriminate].
    destruct route as [|first path]; [apply IH; assumption|].
    destruct (choice R s1 train_types) as [[ttype s2]|] eqn:Hty;
      cbn [mbind option_bind fst snd]; [|discriminate].
    destruct (choice R s2 priorities) as [[prio s3]|] eqn:Hpr;
      cbn [mbind option_bind fst snd]; [|discriminate].
    destruct (Py.dict_get stations (from_code first)) as [origin|] eqn:Horigin.
    + destruct (timeline _ _ _ _ _ _ _ _) as [schedule|] eqn:Htl;
        cbn [mbind option_bind]; [|discriminate].
      apply timeline_spec in Htl as (rows & -> & Hnum & Hrows).
      apply pick_route_spec in Hroute as [[=]|(start & _ & Hchain & Hsecs & Hnd & Hlen)].
      pose proof Hchain as [Hstart _]. subst start.
      set (m := Build_TrainMeta _ _ _ _) in *.
      assert (generated_train D stations sections start_dt
                (1 + Z.of_nat (length blocks))
                (origin_stop D m start_dt origin first :: rows)) as Hblock.
      { exists m, origin, first, path, rows. subst m.
        cbn [meta_id meta_name meta_type meta_priority].
        rewrite (Z.add_comm 1).
        split; [reflexivity|]. split; [reflexivity|].
        split; [eapply choice_In, Hty|]. split; [eapply choice_In, Hpr|].
        split; [exact Horigin|]. split; [exact Hchain|]. split; [exact Hsecs|].
        split; [exact Hnd|]. split; [cbn [length] in *; lia|].
        split; [reflexivity|]. split; [exact Hnum|exact Hrows]. }
      pose proof (trains_from_snoc _ _ _ _ _ _ Hblocks Hblock) as Hblocks'.
      set (block := origin_stop D m start_dt origin first :: rows) in *.
      replace (concat blocks ++ block) with (concat (blocks ++ [block]))
        by (rewrite concat_app; cbn [concat]; rewrite app_nil_r; reflexivity).
      replace (Z.of_nat (length blocks) + 1)%Z
        with (Z.of_nat (length (blocks ++ [block])))
        by (rewrite length_app; cbn [length]; lia).
      apply IH; [exact Hblocks'|].
      rewrite length_app. cbn [length]. lia.
    + replace (Z.of_nat (length blocks) + 1 - 1)%Z with (Z.of_nat (length blocks))
        by lia.
      apply IH; assumption.
Qed.

(** X21. A generated schedule is the rows of the generated trains, train after
    train, numbered [T001], [T002], ... without a gap. Each train has its
    origin row and one row for each section of its route that ends at a
    station, numbered from 0; its route is a chain of 4 to 9 sections of the
    network that starts at a station and comes to no station twice. There are
    at most [num_trains] trains and at most ten rows for each. *)
Theorem generated_schedule_is_blocks_of_trains stations sections num_trains
    start_time_iso schedule :
  generate_trains_schedule R D seed stations sections num_trains start_time_iso
  = Some schedule ->
  exists start_dt blocks,
    fromisoformat D start_time_iso = Some start_dt
    /\ schedule = concat blocks
    /\ trains_from D stations sections start_dt 1 blocks
    /\ (Z.of_nat (length blocks) <= Z.max 0 num_trains)%Z
    /\ (Z.of_nat (length schedule) <= 10 * Z.max 0 num_trains)%Z.
Proof.
  unfold generate_trains_schedule. cbv zeta.
  destruct (fromisoformat D start_time_iso) as [start_dt|]; [|discriminate].
  cbn [mbind option_bind]. intros Hloop.
  apply (generate_loop_spec stations sections start_dt num_trains _ _ [])
    in Hloop as (blocks & -> & Hblocks & Hcount); [|exact I|cbn; lia].
  exists start_dt, blocks. split; [reflexivity|]. split; [reflexivity|].
  split; [exact Hblocks|]. split; [exact Hcount|].
  apply trains_from_length in Hblocks. lia.
Qed.

(** Without a section no route is picked. *)
Lemma generate_loop_no_sections stations start_dt num_trains n : forall s,
  generate_loop R D n (build_adjacency []) stations start_dt num_trains s [] 0
  = Some [].
Proof.
  induction n as [|n IH]; intros s; cbn [generate_loop]; [reflexivity|].
  destruct (0 <? num_trains)%Z; [|reflexivity].
  unfold pick_route. cbn [build_adjacency fold_left].
  rewrite map_size_empty. cbn [Nat.eqb mbind option_bind fst snd]. apply IH.
Qed.

Lemma generate_no_sections stations num_trains start_time_iso :
  generate_trains_schedule R D seed stations [] num_trains start_time_iso
  = (_ ← fromisoformat D start_time_iso; Some []).
Proof.
  unfold generate_trains_schedule. cbv zeta.
  destruct (fromisoformat D start_time_iso) as [start_dt|]; [|reflexivity].
  cbn [mbind option_bind]. apply generate_loop_no_sections.
Qed.

(** With sections and no station, the first call of [random.choice] raises. *)
Lemma generate_no_stations sections num_trains start_time_iso :
  sections <> [] -> (0 < num_trains)%Z ->
  generate_trains_schedule R D seed [] sections num_trains start_time_iso = None.
Proof.
  intros Hsec Hnum. unfold generate_trains_schedule. cbv zeta.
  destruct (fromisoformat D start_time_iso) as [start_dt|]; [|reflexivity].
  cbn [mbind option_bind].
  destruct (Z.to_nat (num_trains * 10)) as [|n] eqn:Hn; [lia|].
  cbn [generate_loop]. destruct (Z.ltb_spec 0 num_trains) as [_|]; [|lia].
  unfold pick_route.
  destruct (Nat.eqb_spec (size (build_adjacency sections)) 0) as [Hsize|_];
    [apply build_adjacency_size in Hsize; contradiction|].
  reflexivity.
Qed.

End GenerateFacts.

(** ** When [pick_route] raises *)

Section PickRouteTotal.

Context (R : Random).

Lemma choice_total {A} (s : rng R) (seq : list A) :
  seq <> [] -> is_Some (choice R s seq).
Proof.
  unfold choice. destruct seq as [|x seq]; [contradiction|]. intros _.
  pose proof (randbelow_lt R s (length (x :: seq)) ltac:(cbn; lia)) as Hlt.
  apply nth_error_Some in Hlt.
  destruct (nth_error (x :: seq) _) as [y|]; [|contradiction].
  eexists. reflexivity.
Qed.

Lemma pick_start_total n adj keys : forall c s,
  keys <> [] -> is_Some (pick_start R n adj keys c s).
Proof.
  induction n as [|n IH]; intros c s Hkeys; cbn [pick_start];
    [eexists; reflexivity|].
  destruct (adj !! c); [eexists; reflexivity|].
  destruct (choice_total s keys Hkeys) as [[c1 s1] ->].
  cbn [mbind option_bind fst snd]. apply IH, Hkeys.
Qed.

Lemma extend_route_total n adj target_len : forall s visited path current,
  is_Some (extend_route R n adj target_len s visited path current).
Proof.
  induction n as [|n IH]; intros s visited path current; cbn [extend_route];
    [eexists; reflexivity|]. cbv zeta.
  destruct (unvisited adj visited current) as [|nb nbs] eqn:Hnbs;
    [eexists; reflexivity|].
  destruct (choice_total s (nb :: nbs) ltac:(discriminate)) as [[sec s1] ->].
  cbn [mbind option_bind fst snd].
  destruct (target_len <=? _)%Z; [eexists; reflexivity|apply IH].
Qed.

Lemma pick_route_returns adj stations min_stops max_stops s :
  stations <> [] -> (min_stops <= max_stops)%Z ->
  is_Some (pick_route R adj stations min_stops max_stops s).
Proof.
  intros Hst Hle. unfold pick_route.
  destruct (size adj =? 0)%nat; [eexists; reflexivity|].
  assert (Py.dict_keys stations <> []) as Hkeys
    by (destruct stations; [contradiction|discriminate]).
  destruct (choice_total s _ Hkeys) as [[c s1] ->].
  cbn [mbind option_bind fst snd].
  destruct (pick_start_total 50 adj _ c s1 Hkeys) as [[start s2] ->].
  cbn [mbind option_bind fst snd].
  destruct (adj !! start); [|eexists; reflexivity].
  unfold randint. destruct (Z.ltb_spec 0 (max_stops - 1 + 1 - (min_stops - 1)));
    [|lia].
  cbn [mbind option_bind fst snd].
  destruct (extend_route_total 200 adj
              (min_stops - 1
               + Z.of_nat (randbelow R s2
                             (Z.to_nat (max_stops - 1 + 1 - (min_stops - 1)))).1)
              (randbelow R s2 (Z.to_nat (max_stops - 1 + 1 - (min_stops - 1)))).2
              {[start]} [] start) as [[r s4] ->].
  cbn [mbind option_bind fst snd].
  destruct (_ <? _)%Z; eexists; reflexivity.
Qed.

Lemma pick_route_no_stations adj min_stops max_stops s :
  size adj <> 0%nat -> pick_route R adj [] min_stops max_stops s = None.
Proof.
  intros Hadj. unfold pick_route.
  destruct (Nat.eqb_spec (size adj) 0); [contradiction|reflexivity].
Qed.

End PickRouteTotal.

(** ** The simulation *)

Section RunSimulationFacts.

Context (py : Py.Builtins) (R : Random) (D : DateTime) (seed : Z -> rng R).

Lemma build_network_no_stations fs inp real :
  fs (sih_stations_csv inp) = None -> fs (trainsih_stations_csv inp) = None ->
  load_real_sections py fs (sih_sections_csv inp) = Some real ->
  build_network py fs inp = Some ([], real).
Proof.
  intros H1 H2 H3. unfold build_network.
  unfold merge_stations, load_sih_stations, load_trainsih_stations.
  rewrite H1, H2, H3. reflexivity.
Qed.

(** X23. Without the two station files, [run_simulation] answers with no station,
    no section and no train when the section file is missing too and the
    start time is a date; but when the section file gives a section and a
    train is asked for, it raises: the route generator draws a start station
    from an empty list. *)
Theorem run_simulation_without_station_files fs inp num_trains start_time_iso :
  fs (sih_stations_csv inp) = None -> fs (trainsih_stations_csv inp) = None ->
  (fs (sih_sections_csv inp) = None ->
   run_simulation py R D seed fs inp num_trains start_time_iso
   = (_ ← fromisoformat D start_time_iso; Some ([], [], [])))
  /\ (forall real,
        load_real_sections py fs (sih_sections_csv inp) = Some real ->
        real <> [] -> (0 < num_trains)%Z ->
        run_simulation py R D seed fs inp num_trains start_time_iso = None).
Proof.
  intros H1 H2. split.
  - intros H3. unfold run_simulation.
    rewrite (build_network_no_stations fs inp [] H1 H2)
      by (unfold load_real_sections; rewrite H3; reflexivity).
    cbn [mbind option_bind fst snd]. rewrite generate_no_sections.
    destruct (fromisoformat D start_time_iso); reflexivity.
  - intros real Hreal Hne Hnum. unfold run_simulation.
    rewrite (build_network_no_stations fs inp real H1 H2 Hreal).
    cbn [mbind option_bind fst snd].
    rewrite generate_no_stations by assumption. reflexivity.
Qed.

End RunSimulationFacts.

(** ** Route search: the results *)

(** X1. A route that [shortest_path] returns is empty or is a walk of the
    name graph from [start] to [end_] that repeats no station. *)
Theorem shortest_path_is_simple_walk (name_graph : gmap string (list string))
    (start end_ : string) :
  shortest_path name_graph start end_ = []
  \/ (walk_between name_graph start end_ (shortest_path name_graph start end_)
      /\ List.NoDup (shortest_path name_graph start end_)).
Proof. apply shortest_path_walk. Qed.

(** X2. [shortest_path] returns a route exactly when [start] is a key of the
    name graph and some walk of the graph leads from [start] to [end_]. *)
Theorem shortest_path_finds_a_route (name_graph : gmap string (list string))
    (start end_ : string) :
  shortest_path name_graph start end_ <> []
  <-> is_Some (name_graph !! start)
      /\ exists path, walk_between name_graph start end_ path.
Proof. apply shortest_path_nonempty_iff. Qed.

(** X3. When [start] is a key of the name graph and a walk leads from [start]
    to [end_], the route that [shortest_path] returns is such a walk, and no
    walk from [start] to [end_] has fewer stations. *)
Theorem shortest_path_has_fewest_stations (name_graph : gmap string (list string))
    (start end_ : string) (w : list string) :
  is_Some (name_graph !! start) ->
  walk_between name_graph start end_ w ->
  walk_between name_graph start end_ (shortest_path name_graph start end_)
  /\ (length (shortest_path name_graph start end_) <= length w)%nat.
Proof.
  intros Hkey Hw.
  destruct (shortest_path_walk name_graph start end_) as [Hempty|[Hwalk _]].
  - exfalso. revert Hempty. apply shortest_path_nonempty_iff.
    split; [exact Hkey|]. exists w. exact Hw.
  - split; [exact Hwalk|]. apply shortest_path_minimal, Hw.
Qed.

(** The theorem on the line [A -> B -> C] of the examples, against the walk
    [A, B, C]. *)
Lemma shortest_path_has_fewest_stations_witness :
  walk_between (name_network Demo.line_sections).1 "A" "C"
    (shortest_path (name_network Demo.line_sections).1 "A" "C")
  /\ (length (shortest_path (name_network Demo.line_sections).1 "A" "C") <= 3)%nat.
Proof.
  apply (shortest_path_has_fewest_stations (name_network Demo.line_sections).1
           "A" "C" ["A"; "B"; "C"]).
  - eexists. vm_compute. reflexivity.
  - vm_compute. repeat split; left; reflexivity.
Defined.

(** ** The name graph: the results *)

(** X4. The neighbours of [u] in the name graph are the [to_name]s of the
    named sections that leave [u], in section order, one for each section
    (parallel sections repeat the name). *)
Theorem name_graph_neighbors (augmented_sections : list TrackSection) (u : string) :
  named_neighbors (name_network augmented_sections).1 u
  = map to_name (List.filter (named_from u) augmented_sections).
Proof. apply name_network_neighbors. Qed.

(** X5. The travel time of [edge_tt] at [(u, v)] is that of the last named
    section from [u] to [v], raised to one minute when it is less (or not a
    number); a pair that no named section joins has no entry; no entry is
    below one minute. *)
Theorem edge_tt_is_last_named_section (augmented_sections : list TrackSection)
    (u v : string) :
  (name_network augmented_sections).2 !! (u, v)
  = (fun sec => Py.max 1%float (travel_min sec))
      <$> last (List.filter (named_edge u v) augmented_sections)
  /\ (forall t, (name_network augmented_sections).2 !! (u, v) = Some t ->
        PrimFloat.ltb t 1%float = false).
Proof. apply name_network_edge_tt. Qed.

(** ** The theorems at the examples *)

(** The train built for the request from [A] to [C] on the line of the
    examples: its first hop has a travel time in [edge_tt]. *)
Lemma built_routes_use_known_travel_times_witness :
  exists time,
    (name_network Demo.line_sections).2 !! ("A", "B") = Some time
    /\ PrimFloat.ltb time 1%float = false.
Proof.
  destruct (built_routes_use_known_travel_times Demo.line_sections
              [Demo.through_train]
              (mkTrain "T1" "express" 5 ["A"; "B"; "C"]
                 [mkOcc "A-B" 0%float 7%float; mkOcc "B-C" 7%float 16%float]
                 0%float))
    as (_ & _ & Hhops); [vm_compute; left; reflexivity|].
  destruct (Hhops 0%nat "A" "B" eq_refl eq_refl) as (time & Htime & _ & Hlow).
  exists time. split; assumption.
Defined.

(** A station file whose platform count is [two] makes the loader raise. *)
Lemma station_loaders_fail_on_bad_platform_count_witness :
  load_sih_stations Demo.builtins Sample.bad_files "sih_stations.csv" = None.
Proof.
  apply (proj1 (station_loaders_fail_on_bad_platform_count Demo.builtins
                  Sample.bad_files "sih_stations.csv")).
  right. exists Sample.bad_rows. eexists. split; [reflexivity|].
  split; [left; reflexivity|vm_compute; reflexivity].
Defined.

(** A section file that exists and cannot be read makes the loader raise. *)
Lemma section_loader_keeps_proper_rows_witness :
  load_real_sections Demo.builtins Sample.unreadable_files "sih_sections.csv"
  = None.
Proof.
  apply (proj1 (section_loader_keeps_proper_rows Demo.builtins
                  Sample.unreadable_files "sih_sections.csv")).
  reflexivity.
Defined.

(** Of the two rows for [X], the first, which has coordinates, is kept. *)
Lemma trainsih_loader_keeps_first_coordinates_witness :
  exists loaded,
    load_trainsih_stations Demo.builtins Sample.twice_files "trainsih_stations.csv"
    = Some loaded
    /\ Py.dict_get loaded "X"
       = Some (mkStation "X" "Beta" 4 3%float (Some 1%float) (Some 2%float)).
Proof.
  destruct (load_trainsih_stations Demo.builtins Sample.twice_files
              "trainsih_stations.csv") as [loaded|] eqn:Hload;
    [|vm_compute in Hload; discriminate].
  exists loaded. split; [reflexivity|].
  apply (trainsih_loader_keeps_first_coordinates Demo.builtins Sample.twice_files
           "trainsih_stations.csv" [Sample.first_row] [Sample.second_row]
           [("X", mkStation "X" "Beta" 4 3%float (Some 1%float) (Some 2%float))]
           loaded "X");
    [reflexivity|vm_compute; reflexivity|reflexivity|reflexivity|exact Hload].
Defined.

(** The merge of the two station files of the examples has the one code
    [X]. *)
Lemma merge_is_a_keyed_union_witness :
  exists merged,
    merge_stations Demo.builtins Demo.files "sih_stations.csv"
      "trainsih_stations.csv" = Some merged
    /\ Py.dict_keys merged = ["X"].
Proof.
  destruct (merge_is_a_keyed_union Demo.builtins Demo.files "sih_stations.csv"
              "trainsih_stations.csv"
              [("X", mkStation "X" "Alpha" 2 5%float None None)]
              [("X", mkStation "X" "Beta" 4 3%float (Some 1%float) (Some 2%float))])
    as (merged & Hmerged & Hkeys & _); [vm_compute; reflexivity..|].
  exists merged. split; [exact Hmerged|]. rewrite Hkeys. reflexivity.
Defined.

(** The merged station [X] of the examples is stored under [X] and has the
    coordinates of the Trainsih row. *)
Lemma merged_stations_invariant_witness :
  code (mkStation "X" "Beta" 4 3%float (Some 1%float) (Some 2%float)) = "X"
  /\ lat (mkStation "X" "Beta" 4 3%float (Some 1%float) (Some 2%float))
     = Some 1%float
  /\ lon (mkStation "X" "Beta" 4 3%float (Some 1%float) (Some 2%float))
     = Some 2%float.
Proof.
  apply (merged_stations_invariant Demo.builtins Demo.files "sih_stations.csv"
           "trainsih_stations.csv"
           [("X", mkStation "X" "Beta" 4 3%float (Some 1%float) (Some 2%float))]
           [("X", mkStation "X" "Beta" 4 3%float (Some 1%float) (Some 2%float))]);
    vm_compute; reflexivity.
Defined.

(** The augmentation of the three stations of the examples with [k = 1]. *)
Lemma inferred_sections_join_located_stations_witness :
  exists result added,
    augment_sections_with_knn Demo.builtins Demo.tie_stations Demo.tie_base
      1 70%float = Some result
    /\ result = Demo.tie_base ++ added
    /\ forall s, In s added ->
         inferred_between Demo.builtins Demo.tie_stations 70%float s.
Proof.
  destruct (augment_sections_with_knn Demo.builtins Demo.tie_stations Demo.tie_base
              1 70%float) as [result|] eqn:Haug; [|vm_compute in Haug; discriminate].
  assert (List.NoDup (Py.dict_keys Demo.tie_stations)) as Hkeys.
  { apply NoDup_ListNoDup. apply (bool_decide_unpack _). vm_compute. exact I. }
  destruct (inferred_sections_join_located_stations Demo.builtins Demo.tie_stations
              Demo.tie_base 1 70%float result Hkeys Haug) as (added & Hres & Hin).
  exists result, added. split; [reflexivity|]. split; assumption.
Defined.

(** With [k = 1], at most one section is added to the one that leaves [A]. *)
Lemma at_most_k_inferred_sections_per_station_witness :
  exists result,
    augment_sections_with_knn Demo.builtins Demo.tie_stations Demo.tie_base
      1 70%float = Some result
    /\ (length (sections_from "A" result) <= 2)%nat.
Proof.
  destruct (augment_sections_with_knn Demo.builtins Demo.tie_stations Demo.tie_base
              1 70%float) as [result|] eqn:Haug; [|vm_compute in Haug; discriminate].
  assert (List.NoDup (Py.dict_keys Demo.tie_stations)) as Hkeys.
  { apply NoDup_ListNoDup. apply (bool_decide_unpack _). vm_compute. exact I. }
  exists result. split; [reflexivity|].
  exact (proj1 (at_most_k_inferred_sections_per_station Demo.builtins
                  Demo.tie_stations Demo.tie_base 1 70%float result Hkeys Haug) "A").
Defined.

(** The request [X, Q, R] on the example files: one path section, from [X]
    to [Q]. *)
Lemma add_train_path_follows_request_witness :
  exists path_sections,
    add_train_path Demo.builtins Demo.files Demo.inputs ["X"; "Q"; "R"]
    = Some path_sections
    /\ follows ["X"; "Q"; "R"] path_sections
    /\ (length path_sections <= 2)%nat.
Proof.
  destruct (add_train_path Demo.builtins Demo.files Demo.inputs ["X"; "Q"; "R"])
    as [path_sections|] eqn:Hpath; [|vm_compute in Hpath; discriminate].
  exists path_sections. split; [reflexivity|].
  exact (add_train_path_follows_request Demo.builtins Demo.files Demo.inputs
           ["X"; "Q"; "R"] path_sections Hpath).
Defined.

(** On the line of six stations the leg from [A] to [B] is the section of
    the network. *)
Lemma add_train_prefers_network_sections_witness :
  match List.filter (fun s => String.eqb (to_code s) "B")
          (sections_from "A" Sample.line) with
  | s :: _ => Some (Sample.leg "A" "B") = Some s
  | [] =>
      forall sec, Some (Sample.leg "A" "B") = Some sec ->
        from_code sec = "A" /\ to_code sec = "B" /\ leg_type sec = "inferred"
        /\ travel_min sec
           = PrimFloat.mul (PrimFloat.div (distance_km sec) 70%float) 60%float
  end.
Proof.
  apply (add_train_prefers_network_sections Demo.builtins Sample.line_stations
           Sample.line "A" "B" (Some (Sample.leg "A" "B"))).
  vm_compute. reflexivity.
Defined.

(** The request from [A] to [B] on the files of the two stations: the origin
    row of [A] and the row of the stop at [B]. *)
Lemma add_train_schedule_rows_witness :
  exists schedule,
    add_train Demo.builtins Sample.clock Sample.user_train_id Sample.pair_files
      Demo.inputs Sample.pair_request = Some (inr schedule)
    /\ map TrainStop.station_code schedule = ["A"; "B"]
    /\ numbered_from 0 schedule
    /\ (length schedule <= 2)%nat.
Proof.
  destruct (add_train Demo.builtins Sample.clock Sample.user_train_id
              Sample.pair_files Demo.inputs Sample.pair_request)
    as [[msg|schedule]|] eqn:Hadd;
    [vm_compute in Hadd; discriminate| |vm_compute in Hadd; discriminate].
  exists schedule. split; [reflexivity|].
  destruct (add_train_schedule_rows Demo.builtins Sample.clock Sample.user_train_id
              Sample.pair_files Demo.inputs Sample.pair_request schedule Hadd)
    as (net & first & path & origin & start_dt & rows & _ & _ & _ & _ & _ & Hnum
        & _ & Hlen).
  split; [|split; [exact Hnum|exact Hlen]].
  vm_compute in Hadd. injection Hadd as <-. reflexivity.
Defined.

(** The same request with the section file alone: [X] is no station. *)
Lemma add_train_errors_witness :
  exists real sec rest merged,
    load_real_sections Demo.builtins Sample.sections_only
      (sih_sections_csv Demo.inputs) = Some real
    /\ merge_stations Demo.builtins Sample.sections_only
         (sih_stations_csv Demo.inputs) (trainsih_stations_csv Demo.inputs)
       = Some merged
    /\ add_train_path Demo.builtins Sample.sections_only Demo.inputs
         (AddTrainRequest.stations Sample.request) = Some (sec :: rest)
    /\ In sec real
    /\ In (from_code sec) (AddTrainRequest.stations Sample.request)
    /\ Py.dict_get merged (from_code sec) = None.
Proof.
  destruct (add_train_errors Demo.builtins Sample.clock Sample.user_train_id
              Sample.sections_only Demo.inputs Sample.request "Origin not found")
    as [[Hmsg _]|[_ H]]; [vm_compute; reflexivity|discriminate|exact H].
Defined.

(** ** Random routes and generated trains: the results *)

(** X19. A route that [pick_route] returns is empty, or it is a chain of
    sections of the network that starts at a station of the dict and comes
    to no station twice, with at least [min_stops - 1] sections and at most
    [max_stops - 1] (at most one when that is less than one). *)
Theorem picked_route_is_a_simple_chain (R : Random) (sections : list TrackSection)
    (stations : Py.dict Station) (min_stops max_stops : Z) (s s' : rng R)
    (path : list TrackSection) :
  pick_route R (build_adjacency sections) stations min_stops max_stops s
  = Some (path, s') ->
  path = []
  \/ exists start,
       In start (Py.dict_keys stations)
       /\ route_chain start path
       /\ Forall (fun sec => In sec sections) path
       /\ List.NoDup (start :: map to_code path)
       /\ (min_stops - 1 <= Z.of_nat (length path) <= Z.max 1 (max_stops - 1))%Z.
Proof. apply pick_route_spec. Qed.

(** The route picked on the line of six stations, from the counter 42: it
    has the five sections of the line. *)
Lemma picked_route_is_a_simple_chain_witness :
  exists start,
    In start (Py.dict_keys Sample.line_stations)
    /\ route_chain start Sample.line
    /\ Forall (fun sec => In sec Sample.line) Sample.line
    /\ List.NoDup (start :: map to_code Sample.line)
    /\ (5 - 1 <= Z.of_nat (length Sample.line) <= Z.max 1 (10 - 1))%Z.
Proof.
  destruct (picked_route_is_a_simple_chain Sample.counter Sample.line
              Sample.line_stations 5 10 42%nat 49%nat Sample.line)
    as [Hempty|H]; [vm_compute; reflexivity|discriminate|exact H].
Defined.

(** X20. [pick_route] raises when the adjacency is not empty and there is no
    station: [random.choice] is called on an empty list. With a station and
    [min_stops <= max_stops] it returns. *)
Theorem pick_route_raises_only_without_stations (R : Random)
    (adj : gmap string (list (string * TrackSection))) (stations : Py.dict Station)
    (min_stops max_stops : Z) (s : rng R) :
  (size adj <> 0%nat -> pick_route R adj [] min_stops max_stops s = None)
  /\ (stations <> [] -> (min_stops <= max_stops)%Z ->
      is_Some (pick_route R adj stations min_stops max_stops s)).
Proof.
  split; [apply pick_route_no_stations|apply pick_route_returns].
Qed.

(** The line of six stations without its stations. *)
Lemma pick_route_raises_only_without_stations_witness :
  pick_route Sample.counter (build_adjacency Sample.line) [] 5 10 42%nat = None.
Proof.
  apply (proj1 (pick_route_raises_only_without_stations Sample.counter
                  (build_adjacency Sample.line) Sample.line_stations 5 10 42%nat)).
  vm_compute. discriminate.
Defined.

(** One train generated on the line of six stations: six rows. *)
Lemma generated_schedule_is_blocks_of_trains_witness :
  exists schedule,
    generate_trains_schedule Sample.counter Sample.clock Sample.seed
      Sample.line_stations Sample.line 1 "2025-09-19T08:00:00" = Some schedule
    /\ length schedule = 6%nat
    /\ exists start_dt blocks,
         schedule = concat blocks
         /\ trains_from Sample.clock Sample.line_stations Sample.line start_dt 1
              blocks
         /\ (Z.of_nat (length blocks) <= 1)%Z.
Proof.
  destruct (generate_trains_schedule Sample.counter Sample.clock Sample.seed
              Sample.line_stations Sample.line 1 "2025-09-19T08:00:00")
    as [schedule|] eqn:Hgen; [|vm_compute in Hgen; discriminate].
  exists schedule. split; [reflexivity|].
  destruct (generated_schedule_is_blocks_of_trains Sample.counter Sample.clock
              Sample.seed Sample.line_stations Sample.line 1
              "2025-09-19T08:00:00" schedule Hgen)
    as (start_dt & blocks & _ & Hblocks & Htrains & Hcount & _).
  split; [vm_compute in Hgen; injection Hgen as <-; reflexivity|].
  exists start_dt, blocks. split; [exact Hblocks|]. split; [exact Htrains|exact Hcount].
Defined.

(** X22. Without a section [generate_trains_schedule] returns the empty
    schedule whenever the start time is a date. With a section, no station
    and at least one train asked for it raises: the route generator draws a
    start station from an empty list. *)
Theorem generate_on_degenerate_networks (R : Random) (D : DateTime)
    (seed : Z -> rng R) (stations : Py.dict Station) (sections : list TrackSection)
    (num_trains : Z) (start_time_iso : string) :
  generate_trains_schedule R D seed stations [] num_trains start_time_iso
  = (_ ← fromisoformat D start_time_iso; Some [])
  /\ (sections <> [] -> (0 < num_trains)%Z ->
      generate_trains_schedule R D seed [] sections num_trains start_time_iso
      = None).
Proof.
  split; [apply generate_no_sections|apply generate_no_stations].
Qed.

(** The line of six stations without its stations, one train asked for. *)
Lemma generate_on_degenerate_networks_witness :
  generate_trains_schedule Sample.counter Sample.clock Sample.seed
    [] Sample.line 1 "2025-09-19T08:00:00" = None.
Proof.
  apply (proj2 (generate_on_degenerate_networks Sample.counter Sample.clock
                  Sample.seed [] Sample.line 1 "2025-09-19T08:00:00"));
    [discriminate|reflexivity].
Defined.

(** The section file of the examples alone, one train asked for. *)
Lemma run_simulation_without_station_files_witness :
  run_simulation Demo.builtins Sample.counter Sample.clock Sample.seed
    Sample.sections_only Demo.inputs 1 "2025-09-19T08:00:00" = None.
Proof.
  destruct (load_real_sections Demo.builtins Sample.sections_only
              (sih_sections_csv Demo.inputs)) as [real|] eqn:Hreal;
    [|vm_compute in Hreal; discriminate].
  apply (proj2 (run_simulation_without_station_files Demo.builtins Sample.counter
                  Sample.clock Sample.seed Sample.sections_only Demo.inputs 1
                  "2025-09-19T08:00:00" eq_refl eq_refl) real Hreal);
    [|reflexivity].
  intros ->. vm_compute in Hreal. discriminate.
Defined.
